(** * Asciicast v2 records (termtosvg/asciicast.py)

    A shallow embedding of [termtosvg/asciicast.py] and of the parts of the
    Python runtime it calls: the dynamic values that reach the constructors,
    [codecs]' incremental UTF-8 decoder with the [replace] handler,
    [str.encode('utf-8')], [json.dumps(..., ensure_ascii=False)] and
    [json.loads].

    Conventions.
    - A Python [str] is a list of code points ([N]); [bytes] is a list of
      [Byte.byte].
    - A Python [int] is a [Z] (CPython's optional cap on the number of digits
      of an int/str conversion is not modelled).
    - Exceptions are values of type [exn]; fallible code returns [result].
    - The module-level [utf8_decoder] is mutable state shared by every call of
      [AsciiCastEvent.to_json_line]; it is threaded explicitly.
    - Binary floating point is kept abstract ([FloatModel]): the development
      never computes with floats, it only prints and reads them. *)

From Stdlib Require Import NArith ZArith List Bool Lia String Ascii Strings.Byte.
From Stdlib Require Import Decimal DecimalFacts DecimalPos DecimalN DecimalZ.
Import ListNotations.

Local Open Scope N_scope.
Local Open Scope list_scope.

(** ** Strings, bytes, results *)

Definition str := list N.
Definition bytes := list byte.

(** ASCII literal as a [str]. *)
Definition lit (s : string) : str :=
  map N_of_ascii (list_ascii_of_string s).

(** Same, with every apostrophe standing for a double quote, so that JSON
    text can be written down readably. *)
Definition jlit (s : string) : str :=
  map (fun c => if c =? 39 then 34 else c) (lit s).

Fixpoint str_eqb (a b : str) : bool :=
  match a, b with
  | [], [] => true
  | x :: a', y :: b' => (x =? y) && str_eqb a' b'
  | _, _ => false
  end.

(** ** Floats

    [finite] stands for the finite binary64 values; [float_repr] is
    [float.__repr__], [float_of_str] is [float(token)] on a JSON number
    token, and [float_eq_int] is [==] between a float and an int. *)

Inductive pyfloat (F : Type) : Type :=
| Fnan
| Finf (negative : bool)
| Ffinite (x : F).
Arguments Fnan {F}.
Arguments Finf {F} negative.
Arguments Ffinite {F} x.

Class FloatModel : Type := {
  finite : Type;
  float_repr : finite -> str;
  float_of_str : str -> pyfloat finite;
  float_eq_int : finite -> Z -> bool
}.

(** ** Python values, types and exceptions *)

Module Py.

Inductive pytype : Type :=
| NoneType | TBool | TInt | TFloat | TStr | TBytes | TList | TTuple | TDict
| TAsciiCastTheme.

Definition pytype_eqb (a b : pytype) : bool :=
  match a, b with
  | NoneType, NoneType | TBool, TBool | TInt, TInt | TFloat, TFloat
  | TStr, TStr | TBytes, TBytes | TList, TList | TTuple, TTuple
  | TDict, TDict | TAsciiCastTheme, TAsciiCastTheme => true
  | _, _ => false
  end.

(** [t in {t1, ..., tn}] *)
Definition type_in (t : pytype) (ts : list pytype) : bool :=
  existsb (pytype_eqb t) ts.

Inductive type_error : Type :=
| InvalidAttrType (attr : str) (ty : pytype)
    (* 'Invalid type for attribute {}: {} (possible type: {})' *)
| BadArguments         (* missing or unexpected argument of a namedtuple *)
| NotAMapping          (* argument after ** must be a mapping *)
| NotIterable          (* argument of type ... is not iterable / cannot unpack *)
| BadIndex             (* str or list indices must be integers *)
| NotSerializable (ty : pytype). (* Object of type ... is not JSON serializable *)

Inductive value_error : Type :=
| OnlyV2Supported      (* 'Only asciicast v2 format is supported' *)
| UnpackCount.         (* not enough / too many values to unpack *)

Inductive json_error : Type :=
| ExpectingValue
| ExtraData
| UnterminatedString
| InvalidControlCharacter
| InvalidEscape
| InvalidUnicodeEscape
| ExpectingPropertyName
| ExpectingColon
| ExpectingComma
| UnexpectedBOM.

Inductive exn : Type :=
| TypeError (info : type_error)
| ValueError (info : value_error)
| JSONDecodeError (info : json_error)   (* a subclass of ValueError *)
| NotImplementedError
| AttributeError
| KeyError
| UnicodeEncodeError
| UnicodeDecodeError
| RecursionError.                       (* the parser ran out of fuel *)

Inductive result (A : Type) : Type :=
| Ok (a : A)
| Error (e : exn).
Arguments Ok {A} a.
Arguments Error {A} e.

Definition bind {A B} (r : result A) (k : A -> result B) : result B :=
  match r with
  | Ok a => k a
  | Error e => Error e
  end.

Section Values.
Context {FM : FloatModel}.

#[warnings="-register-all"]
(** A [dict] is kept in insertion order; its keys are strings (the only keys
    this program ever builds or reads). *)
Inductive value : Type :=
| VNone
| VBool (b : bool)
| VInt (z : Z)
| VFloat (f : pyfloat finite)
| VStr (s : str)
| VBytes (b : bytes)
| VList (l : list value)
| VTuple (l : list value)
| VDict (d : list (str * value))
| VTheme (fg bg palette : value).      (* an AsciiCastTheme namedtuple *)

Definition dict := list (str * value).

(** [type(v)] *)
Definition type_of (v : value) : pytype :=
  match v with
  | VNone => NoneType
  | VBool _ => TBool
  | VInt _ => TInt
  | VFloat _ => TFloat
  | VStr _ => TStr
  | VBytes _ => TBytes
  | VList _ => TList
  | VTuple _ => TTuple
  | VDict _ => TDict
  | VTheme _ _ _ => TAsciiCastTheme
  end.

(** [k in d] and [d[k]] *)
Fixpoint dict_get (d : dict) (k : str) : option value :=
  match d with
  | [] => None
  | (k', v) :: d' => if str_eqb k k' then Some v else dict_get d' k
  end.

Definition dict_mem (d : dict) (k : str) : bool :=
  match dict_get d k with Some _ => true | None => false end.

(** [d[k] = v]: an existing key keeps its position. *)
Fixpoint dict_set (d : dict) (k : str) (v : value) : dict :=
  match d with
  | [] => [(k, v)]
  | (k', v') :: d' =>
      if str_eqb k k' then (k', v) :: d' else (k', v') :: dict_set d' k v
  end.

(** [del d[k]] for a key that is present. *)
Fixpoint dict_del (d : dict) (k : str) : dict :=
  match d with
  | [] => []
  | (k', v') :: d' => if str_eqb k k' then d' else (k', v') :: dict_del d' k
  end.

(** [dict(pairs)]: later pairs overwrite earlier ones. *)
Definition dict_of_pairs (pairs : list (str * value)) : dict :=
  fold_left (fun d kv => dict_set d (fst kv) (snd kv)) pairs [].

(** [v != n] for an int [n]. *)
Definition ne_int (v : value) (n : Z) : bool :=
  match v with
  | VInt z => negb (Z.eqb z n)
  | VBool b => negb (Z.eqb (if b then 1 else 0) n)
  | VFloat (Ffinite x) => negb (float_eq_int x n)
  | _ => true
  end.

End Values.

End Py.
Export Py.

Declare Scope result_scope.
Notation "x <- c ;; k" := (bind c (fun x => k))
  (at level 61, c at next level, right associativity) : result_scope.
Notation "' pat <- c ;; k" := (bind c (fun x => match x with pat => k end))
  (at level 61, pat pattern, c at next level, right associativity) : result_scope.
Local Open Scope result_scope.

(** ** UTF-8 (the [codecs] module and [str.encode])

    [utf_8_decode errors final data] is [codecs.utf_8_decode]: it returns the
    decoded text together with the bytes it did not consume.  The byte
    classes, the order of the checks and the length of each ill-formed
    subsequence follow CPython's decoder: an invalid start byte, or a lead
    byte followed by an invalid continuation, is one error spanning the bytes
    read so far; a truncated sequence at the end of the input is left
    unconsumed unless [final] is set. *)

Module Utf8.

Inductive errors : Type := strict | replace.

Definition REPLACEMENT : N := 0xFFFD.

Definition is_continuation (b : N) : bool := (0x80 <=? b) && (b <? 0xC0).

Definition emit (c : N) (r : result (str * bytes)) : result (str * bytes) :=
  '(s, rest) <- r ;; Ok (c :: s, rest).

(** The error handler, resuming after the ill-formed bytes. *)
Definition invalid (errs : errors) (r : result (str * bytes))
  : result (str * bytes) :=
  match errs with
  | strict => Error UnicodeDecodeError
  | replace => emit REPLACEMENT r
  end.

(** 'unexpected end of data' at [data], which holds the whole tail. *)
Definition truncated (errs : errors) (final : bool) (data : bytes)
  : result (str * bytes) :=
  if final then
    match errs with
    | strict => Error UnicodeDecodeError
    | replace => Ok ([REPLACEMENT], [])
    end
  else Ok ([], data).

Definition is_nil {A} (l : list A) : bool :=
  match l with [] => true | _ => false end.

Fixpoint utf_8_decode (errs : errors) (final : bool) (data : bytes)
  : result (str * bytes) :=
  match data with
  | [] => Ok ([], [])
  | b0 :: r0 =>
    let ch := Byte.to_N b0 in
    if ch <? 0x80 then emit ch (utf_8_decode errs final r0)
    else if ch <? 0xC2 then invalid errs (utf_8_decode errs final r0)
    else if ch <? 0xE0 then
      (* \XC2\x80-\xDF\xBF -- 0080-07FF *)
      match r0 with
      | [] => truncated errs final data
      | b1 :: r1 =>
        let ch2 := Byte.to_N b1 in
        if is_continuation ch2
        then emit (N.shiftl ch 6 + ch2 - (N.shiftl 0xC0 6 + 0x80))
                  (utf_8_decode errs final r1)
        else invalid errs (utf_8_decode errs final r0)
      end
    else if ch <? 0xF0 then
      (* \xE0\xA0\x80-\xEF\xBF\xBF -- 0800-FFFF, without the surrogates *)
      match r0 with
      | [] => truncated errs final data
      | b1 :: r1 =>
        let ch2 := Byte.to_N b1 in
        if negb (is_continuation ch2)
           || (if ch2 <? 0xA0 then ch =? 0xE0 else ch =? 0xED)
        then
          (* a truncated surrogate is kept for the next call *)
          if negb final && (ch =? 0xED) && is_nil r1
             && (0xA0 <=? ch2) && (ch2 <=? 0xBF)
          then Ok ([], data)
          else invalid errs (utf_8_decode errs final r0)
        else
          match r1 with
          | [] => truncated errs final data
          | b2 :: r2 =>
            let ch3 := Byte.to_N b2 in
            if is_continuation ch3
            then emit (N.shiftl ch 12 + N.shiftl ch2 6 + ch3
                       - (N.shiftl 0xE0 12 + N.shiftl 0x80 6 + 0x80))
                      (utf_8_decode errs final r2)
            else invalid errs (utf_8_decode errs final r1)
          end
      end
    else if ch <? 0xF5 then
      (* \xF0\x90\x80\x80-\xF4\x8F\xBF\xBF -- 10000-10FFFF *)
      match r0 with
      | [] => truncated errs final data
      | b1 :: r1 =>
        let ch2 := Byte.to_N b1 in
        if negb (is_continuation ch2)
           || (if ch2 <? 0x90 then ch =? 0xF0 else ch =? 0xF4)
        then invalid errs (utf_8_decode errs final r0)
        else
          match r1 with
          | [] => truncated errs final data
          | b2 :: r2 =>
            let ch3 := Byte.to_N b2 in
            if negb (is_continuation ch3)
            then invalid errs (utf_8_decode errs final r1)
            else
              match r2 with
              | [] => truncated errs final data
              | b3 :: r3 =>
                let ch4 := Byte.to_N b3 in
                if is_continuation ch4
                then emit (N.shiftl ch 18 + N.shiftl ch2 12 + N.shiftl ch3 6
                             + ch4
                           - (N.shiftl 0xF0 18 + N.shiftl 0x80 12
                              + N.shiftl 0x80 6 + 0x80))
                          (utf_8_decode errs final r3)
                else invalid errs (utf_8_decode errs final r2)
              end
          end
      end
    else invalid errs (utf_8_decode errs final r0)
  end.

(** [data.decode('utf-8')] *)
Definition decode (data : bytes) : result str :=
  '(s, _) <- utf_8_decode strict true data ;; Ok s.

(** "[data] is valid UTF-8": the strict decoder accepts it. *)
Definition valid (data : bytes) : bool :=
  match decode data with Ok _ => true | Error _ => false end.

Definition byte_of_N (n : N) : byte :=
  match Byte.of_N n with Some b => b | None => x00 end.

Definition is_surrogate (c : N) : bool := (0xD800 <=? c) && (c <=? 0xDFFF).

(** The bytes of one code point. *)
Definition encode_char (c : N) : result bytes :=
  if c <? 0x80 then Ok [byte_of_N c]
  else if c <? 0x800 then
    Ok [byte_of_N (N.lor 0xC0 (N.shiftr c 6));
        byte_of_N (N.lor 0x80 (N.land c 0x3F))]
  else if c <? 0x10000 then
    if is_surrogate c then Error UnicodeEncodeError
    else
      Ok [byte_of_N (N.lor 0xE0 (N.shiftr c 12));
          byte_of_N (N.lor 0x80 (N.land (N.shiftr c 6) 0x3F));
          byte_of_N (N.lor 0x80 (N.land c 0x3F))]
  else
    Ok [byte_of_N (N.lor 0xF0 (N.shiftr c 18));
        byte_of_N (N.lor 0x80 (N.land (N.shiftr c 12) 0x3F));
        byte_of_N (N.lor 0x80 (N.land (N.shiftr c 6) 0x3F));
        byte_of_N (N.lor 0x80 (N.land c 0x3F))].

(** [s.encode('utf-8')] *)
Fixpoint encode (s : str) : result bytes :=
  match s with
  | [] => Ok []
  | c :: s' =>
    b <- encode_char c ;;
    bs <- encode s' ;;
    Ok (b ++ bs)
  end.

(** [codecs.getincrementaldecoder('utf-8')(errors)]: the object only holds
    the bytes that the previous calls left undecoded. *)
Record IncrementalDecoder : Type := { errs : errors; buffer : bytes }.

(** [decoder.decode(input)], [final] being [False] *)
Definition IncrementalDecoder_decode (self : IncrementalDecoder) (input : bytes)
  : result str * IncrementalDecoder :=
  let data := buffer self ++ input in
  match utf_8_decode (errs self) false data with
  | Ok (text, rest) => (Ok text, {| errs := errs self; buffer := rest |})
  | Error e => (Error e, self)
  end.

End Utf8.

(** The module-level decoder when [pending] bytes are waiting in it.  The
    object is created once, with the [replace] handler, so its pending bytes
    are all that changes. *)
Definition utf8_decoder_at (pending : bytes) : Utf8.IncrementalDecoder :=
  {| Utf8.errs := Utf8.replace; Utf8.buffer := pending |}.

(** [utf8_decoder = codecs.getincrementaldecoder('utf-8')('replace')], as it
    is when the module has just been loaded. *)
Definition utf8_decoder : Utf8.IncrementalDecoder := utf8_decoder_at [].

(** ** JSON (the [json] module)

    [dumps] is [json.dumps(obj, ensure_ascii=False)], [loads] is
    [json.loads(s)] for a [str] argument, after CPython's scanner. *)

Module Json.

(** *** Integers as decimal text *)

Fixpoint str_of_uint (d : Decimal.uint) : str :=
  match d with
  | Nil => []
  | D0 d => 48 :: str_of_uint d
  | D1 d => 49 :: str_of_uint d
  | D2 d => 50 :: str_of_uint d
  | D3 d => 51 :: str_of_uint d
  | D4 d => 52 :: str_of_uint d
  | D5 d => 53 :: str_of_uint d
  | D6 d => 54 :: str_of_uint d
  | D7 d => 55 :: str_of_uint d
  | D8 d => 56 :: str_of_uint d
  | D9 d => 57 :: str_of_uint d
  end.

(** [int.__repr__] *)
Definition int_repr (z : Z) : str :=
  match Z.to_int z with
  | Pos d => str_of_uint d
  | Neg d => 45 :: str_of_uint d
  end.

Definition is_digit (c : N) : bool := (48 <=? c) && (c <=? 57).

(** The digits of a token; a character that is no digit ends it. *)
Fixpoint uint_of_str (s : str) : Decimal.uint :=
  match s with
  | [] => Nil
  | c :: s' =>
    let d := uint_of_str s' in
    match c - 48 with
    | 0 => D0 d | 1 => D1 d | 2 => D2 d | 3 => D3 d | 4 => D4 d
    | 5 => D5 d | 6 => D6 d | 7 => D7 d | 8 => D8 d | 9 => D9 d
    | _ => Nil
    end
  end.

(** [int(token)] on a token of the integer grammar *)
Definition int_of_str (s : str) : Z :=
  match s with
  | c :: s' => if c =? 45 then Z.of_int (Neg (uint_of_str s'))
               else Z.of_int (Pos (uint_of_str s))
  | [] => 0%Z
  end.

(** *** Encoder *)

Definition hex_char (n : N) : N := if n <? 10 then 48 + n else 87 + n.

(** [ESCAPE_DCT]: the replacement of a character matched by [ESCAPE] *)
Definition escape_char (c : N) : option str :=
  if c =? 92 then Some [92; 92]
  else if c =? 34 then Some [92; 34]
  else if c =? 8 then Some [92; 98]
  else if c =? 12 then Some [92; 102]
  else if c =? 10 then Some [92; 110]
  else if c =? 13 then Some [92; 114]
  else if c =? 9 then Some [92; 116]
  else if c <? 0x20 then
    Some [92; 117; 48; 48; hex_char (c / 16); hex_char (c mod 16)]
  else None.

Fixpoint escape (s : str) : str :=
  match s with
  | [] => []
  | c :: s' =>
    match escape_char c with
    | Some e => e ++ escape s'
    | None => c :: escape s'
    end
  end.

(** [encode_basestring] *)
Definition encode_basestring (s : str) : str := 34 :: escape s ++ [34].

Section WithFloats.
Context {FM : FloatModel}.

(** [floatstr], [allow_nan] being true *)
Definition floatstr (f : pyfloat finite) : str :=
  match f with
  | Fnan => lit "NaN"
  | Finf false => lit "Infinity"
  | Finf true => lit "-Infinity"
  | Ffinite x => float_repr x
  end.

Definition item_separator : str := lit ", ".
Definition key_separator : str := lit ": ".

(** The elements of a list or tuple and the members of a dict, joined by
    [item_separator]; [dumps] is the encoder of one element. *)
Definition dumps_items (dumps : value -> result str)
  : list value -> result str :=
  fix items (l : list value) : result str :=
    match l with
    | [] => Ok []
    | [x] => dumps x
    | x :: l' =>
      a <- dumps x ;; b <- items l' ;; Ok (a ++ item_separator ++ b)
    end.

Definition dumps_members (dumps : value -> result str)
  : list (str * value) -> result str :=
  fix members (d : list (str * value)) : result str :=
    match d with
    | [] => Ok []
    | [(k, x)] =>
      a <- dumps x ;; Ok (encode_basestring k ++ key_separator ++ a)
    | (k, x) :: d' =>
      a <- dumps x ;; b <- members d' ;;
      Ok (encode_basestring k ++ key_separator ++ a ++ item_separator ++ b)
    end.

Fixpoint dumps (v : value) : result str :=
  match v with
  | VNone => Ok (lit "null")
  | VBool true => Ok (lit "true")
  | VBool false => Ok (lit "false")
  | VInt z => Ok (int_repr z)
  | VFloat f => Ok (floatstr f)
  | VStr s => Ok (encode_basestring s)
  | VBytes _ => Error (TypeError (NotSerializable TBytes))
  | VList l | VTuple l => b <- dumps_items dumps l ;; Ok (91 :: b ++ [93])
  | VTheme fg bg palette =>
    a <- dumps fg ;; b <- dumps bg ;; c <- dumps palette ;;
    Ok (91 :: (a ++ item_separator ++ b ++ item_separator ++ c) ++ [93])
  | VDict d => b <- dumps_members dumps d ;; Ok (123 :: b ++ [125])
  end.

(** *** Decoder *)

Definition is_ws (c : N) : bool :=
  (c =? 32) || (c =? 9) || (c =? 10) || (c =? 13).

Fixpoint skip_ws (s : str) : str :=
  match s with
  | c :: r => if is_ws c then skip_ws r else s
  | [] => []
  end.

Fixpoint strip_prefix (p s : str) : option str :=
  match p, s with
  | [], _ => Some s
  | a :: p', b :: s' => if a =? b then strip_prefix p' s' else None
  | _ :: _, [] => None
  end.

Definition hex_digit (c : N) : option N :=
  if (48 <=? c) && (c <=? 57) then Some (c - 48)
  else if (97 <=? c) && (c <=? 102) then Some (c - 87)
  else if (65 <=? c) && (c <=? 70) then Some (c - 55)
  else None.

Definition hex4 (a b c d : N) : option N :=
  match hex_digit a, hex_digit b, hex_digit c, hex_digit d with
  | Some x, Some y, Some z, Some w => Some (((x * 16 + y) * 16 + z) * 16 + w)
  | _, _, _, _ => None
  end.

(** [BACKSLASH] *)
Definition backslash (e : N) : option N :=
  if e =? 34 then Some 34
  else if e =? 92 then Some 92
  else if e =? 47 then Some 47
  else if e =? 98 then Some 8
  else if e =? 102 then Some 12
  else if e =? 110 then Some 10
  else if e =? 114 then Some 13
  else if e =? 116 then Some 9
  else None.

Definition push (c : N) (r : result (str * str)) : result (str * str) :=
  '(x, rest) <- r ;; Ok (c :: x, rest).

(** [scanstring], strict, entered just after the opening quote; returns the
    string and what follows the closing quote. *)
Fixpoint scanstring (s : str) : result (str * str) :=
  match s with
  | [] => Error (JSONDecodeError UnterminatedString)
  | c :: r =>
    if c =? 34 then Ok ([], r)
    else if c =? 92 then
      match r with
      | [] => Error (JSONDecodeError UnterminatedString)
      | e :: r1 =>
        if e =? 117 then
          match r1 with
          | h1 :: h2 :: h3 :: h4 :: r2 =>
            match hex4 h1 h2 h3 h4 with
            | None => Error (JSONDecodeError InvalidUnicodeEscape)
            | Some uni =>
              if (0xD800 <=? uni) && (uni <=? 0xDBFF) then
                match r2 with
                | b :: u :: k1 :: k2 :: k3 :: k4 :: r3 =>
                  if (b =? 92) && (u =? 117) then
                    match hex4 k1 k2 k3 k4 with
                    | None => Error (JSONDecodeError InvalidUnicodeEscape)
                    | Some uni2 =>
                      if (0xDC00 <=? uni2) && (uni2 <=? 0xDFFF)
                      then push (0x10000
                                 + N.lor (N.shiftl (uni - 0xD800) 10)
                                         (uni2 - 0xDC00))
                                (scanstring r3)
                      else push uni (scanstring r2)
                    end
                  else push uni (scanstring r2)
                | _ => push uni (scanstring r2)
                end
              else push uni (scanstring r2)
            end
          | _ => Error (JSONDecodeError InvalidUnicodeEscape)
          end
        else
          match backslash e with
          | Some ch => push ch (scanstring r1)
          | None => Error (JSONDecodeError InvalidEscape)
          end
      end
    else if c <? 0x20 then Error (JSONDecodeError InvalidControlCharacter)
    else push c (scanstring r)
  end.

Fixpoint span_digits (s : str) : str * str :=
  match s with
  | c :: r =>
    if is_digit c then let (ds, rest) := span_digits r in (c :: ds, rest)
    else ([], s)
  | [] => ([], [])
  end.

(** The three groups of a number token: an optional minus sign followed by
    either a single zero or a non-zero digit and any digits; a point and at
    least one digit; an e or E, an optional sign and at least one digit.  A
    group that does not match is empty. *)
Definition match_integer (s : str) : option (str * str) :=
  let '(sign, s1) :=
    match s with
    | c :: r => if c =? 45 then ([c], r) else ([], s)
    | [] => ([], s)
    end in
  match s1 with
  | c :: r =>
    if (49 <=? c) && (c <=? 57)
    then let (ds, rest) := span_digits r in Some (sign ++ c :: ds, rest)
    else if c =? 48 then Some (sign ++ [c], r)
    else None
  | [] => None
  end.

Definition match_frac (s : str) : str * str :=
  match s with
  | p :: d :: r =>
    if (p =? 46) && is_digit d
    then let (ds, rest) := span_digits (d :: r) in (p :: ds, rest)
    else ([], s)
  | _ => ([], s)
  end.

Definition match_exp (s : str) : str * str :=
  match s with
  | e :: r =>
    if (e =? 101) || (e =? 69) then
      let '(sign, r1) :=
        match r with
        | c :: r' => if (c =? 45) || (c =? 43) then ([c], r') else ([], r)
        | [] => ([], r)
        end in
      match span_digits r1 with
      | ([], _) => ([], s)
      | (ds, rest) => (e :: sign ++ ds, rest)
      end
    else ([], s)
  | [] => ([], s)
  end.

(** [match_number]: the token, whether it is a float, and the rest. *)
Definition number_token (s : str) : option (str * bool * str) :=
  match match_integer s with
  | None => None
  | Some (int, s2) =>
    let (frac, s3) := match_frac s2 in
    let (exp, s4) := match_exp s3 in
    Some (int ++ frac ++ exp, negb (Utf8.is_nil frac && Utf8.is_nil exp), s4)
  end.

Definition match_number (s : str) : result (value * str) :=
  match number_token s with
  | None => Error (JSONDecodeError ExpectingValue)
  | Some (tok, true, rest) => Ok (VFloat (float_of_str tok), rest)
  | Some (tok, false, rest) => Ok (VInt (int_of_str tok), rest)
  end.

Definition constant (s : str) : option (value * str) :=
  match strip_prefix (lit "null") s with
  | Some r => Some (VNone, r)
  | None =>
  match strip_prefix (lit "true") s with
  | Some r => Some (VBool true, r)
  | None =>
  match strip_prefix (lit "false") s with
  | Some r => Some (VBool false, r)
  | None =>
  match strip_prefix (lit "NaN") s with
  | Some r => Some (VFloat Fnan, r)
  | None =>
  match strip_prefix (lit "Infinity") s with
  | Some r => Some (VFloat (Finf false), r)
  | None =>
  match strip_prefix (lit "-Infinity") s with
  | Some r => Some (VFloat (Finf true), r)
  | None => None
  end end end end end end.

(** [scan_once], [JSONObject] after its first key was found to start, and
    [JSONArray] after [[]; each call spends one unit of [fuel]. *)
Fixpoint scan_once (fuel : nat) (s : str) : result (value * str) :=
  match fuel with
  | O => Error RecursionError
  | S fuel =>
    match s with
    | [] => Error (JSONDecodeError ExpectingValue)
    | c :: r =>
      if c =? 34 then '(x, rest) <- scanstring r ;; Ok (VStr x, rest)
      else if c =? 123 then
        match skip_ws r with
        | c' :: r' =>
          if c' =? 125 then Ok (VDict [], r')
          else '(pairs, rest) <- JSONObject fuel (c' :: r') ;;
               Ok (VDict (dict_of_pairs pairs), rest)
        | [] => Error (JSONDecodeError ExpectingPropertyName)
        end
      else if c =? 91 then
        match skip_ws r with
        | c' :: r' =>
          if c' =? 93 then Ok (VList [], r')
          else '(vs, rest) <- JSONArray fuel (c' :: r') ;; Ok (VList vs, rest)
        | [] => Error (JSONDecodeError ExpectingValue)
        end
      else
        match constant s with
        | Some x => Ok x
        | None => match_number s
        end
    end
  end

with JSONObject (fuel : nat) (s : str) : result (list (str * value) * str) :=
  match fuel with
  | O => Error RecursionError
  | S fuel =>
    match s with
    | c :: r =>
      if c =? 34 then
        '(key, r1) <- scanstring r ;;
        match skip_ws r1 with
        | c2 :: r2 =>
          if c2 =? 58 then
            '(v, r3) <- scan_once fuel (skip_ws r2) ;;
            match skip_ws r3 with
            | c4 :: r4 =>
              if c4 =? 125 then Ok ([(key, v)], r4)
              else if c4 =? 44 then
                '(pairs, rest) <- JSONObject fuel (skip_ws r4) ;;
                Ok ((key, v) :: pairs, rest)
              else Error (JSONDecodeError ExpectingComma)
            | [] => Error (JSONDecodeError ExpectingComma)
            end
          else Error (JSONDecodeError ExpectingColon)
        | [] => Error (JSONDecodeError ExpectingColon)
        end
      else Error (JSONDecodeError ExpectingPropertyName)
    | [] => Error (JSONDecodeError ExpectingPropertyName)
    end
  end

with JSONArray (fuel : nat) (s : str) : result (list value * str) :=
  match fuel with
  | O => Error RecursionError
  | S fuel =>
    '(v, r1) <- scan_once fuel s ;;
    match skip_ws r1 with
    | c2 :: r2 =>
      if c2 =? 93 then Ok ([v], r2)
      else if c2 =? 44 then
        '(vs, rest) <- JSONArray fuel (skip_ws r2) ;; Ok (v :: vs, rest)
      else Error (JSONDecodeError ExpectingComma)
    | [] => Error (JSONDecodeError ExpectingComma)
    end
  end.

(** [json.loads]: one value, surrounded by optional whitespace.  Every call
    of the scanner that spends fuel is followed, within two calls, by the
    consumption of a character, so that twice the length of the text is more
    fuel than a parse can use ([Json.loads_fuel] below). *)
Definition starts_with_bom (s : str) : bool :=
  match s with
  | c :: _ => c =? 0xFEFF
  | [] => false
  end.

Definition loads (s : str) : result value :=
  if starts_with_bom s then Error (JSONDecodeError UnexpectedBOM)
  else
    '(v, rest) <- scan_once (S (2 * List.length s)) (skip_ws s) ;;
    match skip_ws rest with
    | [] => Ok v
    | _ :: _ => Error (JSONDecodeError ExtraData)
    end.

End WithFloats.

End Json.

(** ** The records of [asciicast.py] *)

(** The loop that both [__new__] methods run over [_fields]:
    [type(self.__getattribute__(attr)) not in cls.types[attr]] raises. *)
Module Validation.
Section WithFloats.
Context {FM : FloatModel}.

Fixpoint types_get (types : list (str * list pytype)) (attr : str)
  : result (list pytype) :=
  match types with
  | [] => Error KeyError
  | (a, ts) :: types' => if str_eqb attr a then Ok ts else types_get types' attr
  end.

Fixpoint check (types : list (str * list pytype))
    (getattribute : str -> result value) (fields : list str) : result unit :=
  match fields with
  | [] => Ok tt
  | attr :: fields' =>
    v <- getattribute attr ;;
    let type_attr := type_of v in
    allowed <- types_get types attr ;;
    if negb (type_in type_attr allowed)
    then Error (TypeError (InvalidAttrType attr type_attr))
    else check types getattribute fields'
  end.

End WithFloats.
End Validation.

Module AsciiCastTheme.
Section WithFloats.
Context {FM : FloatModel}.

Definition _fields : list str := [lit "fg"; lit "bg"; lit "palette"].

(** [self._asdict()] *)
Definition _asdict (fg bg palette : value) : dict :=
  [(lit "fg", fg); (lit "bg", bg); (lit "palette", palette)].

(** [AsciiCastTheme] called with [**kwargs]: every field must be given by
    name and no other name may be given. *)
Definition new_kwargs (kwargs : dict) : result value :=
  match dict_get kwargs (lit "fg"), dict_get kwargs (lit "bg"),
        dict_get kwargs (lit "palette") with
  | Some fg, Some bg, Some palette =>
    if (List.length kwargs =? 3)%nat then Ok (VTheme fg bg palette)
    else Error (TypeError BadArguments)
  | _, _, _ => Error (TypeError BadArguments)
  end.

(** [AsciiCastTheme] called with [**v], for an arbitrary object [v] *)
Definition new_unpack (v : value) : result value :=
  match v with
  | VDict d => new_kwargs d
  | _ => Error (TypeError NotAMapping)
  end.

End WithFloats.
End AsciiCastTheme.

Module AsciiCastHeader.
Section WithFloats.
Context {FM : FloatModel}.

Record t : Type := mk {
  version : value;
  width : value;
  height : value;
  theme : value
}.

Definition _fields : list str :=
  [lit "version"; lit "width"; lit "height"; lit "theme"].

Definition types : list (str * list pytype) :=
  [(lit "version", [TInt]);
   (lit "width", [TInt]);
   (lit "height", [TInt]);
   (lit "theme", [NoneType; TAsciiCastTheme])].

Definition getattribute (self : t) (attr : str) : result value :=
  if str_eqb attr (lit "version") then Ok (version self)
  else if str_eqb attr (lit "width") then Ok (width self)
  else if str_eqb attr (lit "height") then Ok (height self)
  else if str_eqb attr (lit "theme") then Ok (theme self)
  else Error AttributeError.

(** [__new__] *)
Definition new (version width height theme : value) : result t :=
  let self := mk version width height theme in
  _ <- Validation.check types (getattribute self) _fields ;;
  if ne_int version 2 then Error (ValueError OnlyV2Supported)
  else Ok self.

(** [self._asdict()] *)
Definition _asdict (self : t) : dict :=
  [(lit "version", version self); (lit "width", width self);
   (lit "height", height self); (lit "theme", theme self)].

Definition to_json_line (self : t) : result str :=
  let attributes := _asdict self in
  attributes <-
    match theme self with
    | VNone => Ok (dict_del attributes (lit "theme"))
    | VTheme fg bg palette =>
      Ok (dict_set attributes (lit "theme")
            (VDict (AsciiCastTheme._asdict fg bg palette)))
    | _ => Error AttributeError
    end ;;
  Json.dumps (VDict attributes).

(** [p in s] for two strings *)
Fixpoint is_infix (p s : str) : bool :=
  match Json.strip_prefix p s with
  | Some _ => true
  | None => match s with [] => false | _ :: s' => is_infix p s' end
  end.

(** [attributes[attr] if attr in attributes else None] *)
Definition get_or_None (attributes : value) (attr : str) : result value :=
  match attributes with
  | VDict d =>
    match dict_get d attr with Some v => Ok v | None => Ok VNone end
  | VList l | VTuple l =>
    if existsb (fun v => match v with VStr s => str_eqb attr s | _ => false end) l
    then Error (TypeError BadIndex) else Ok VNone
  | VStr s =>
    if is_infix attr s then Error (TypeError BadIndex) else Ok VNone
  | _ => Error (TypeError NotIterable)
  end.

Definition from_json_line (line : str) : result t :=
  attributes <- Json.loads line ;;
  version <- get_or_None attributes (lit "version") ;;
  width <- get_or_None attributes (lit "width") ;;
  height <- get_or_None attributes (lit "height") ;;
  theme <- get_or_None attributes (lit "theme") ;;
  theme <-
    match theme with
    | VNone => Ok VNone
    | _ => AsciiCastTheme.new_unpack theme
    end ;;
  new version width height theme.

End WithFloats.
End AsciiCastHeader.

Module AsciiCastEvent.
Section WithFloats.
Context {FM : FloatModel}.

Record t : Type := mk {
  time : value;
  event_type : value;
  event_data : value;
  duration : value
}.

Definition _fields : list str :=
  [lit "time"; lit "event_type"; lit "event_data"; lit "duration"].

Definition types : list (str * list pytype) :=
  [(lit "time", [TInt; TFloat]);
   (lit "event_type", [TStr]);
   (lit "event_data", [TBytes]);
   (lit "duration", [NoneType; TInt; TFloat])].

Definition getattribute (self : t) (attr : str) : result value :=
  if str_eqb attr (lit "time") then Ok (time self)
  else if str_eqb attr (lit "event_type") then Ok (event_type self)
  else if str_eqb attr (lit "event_data") then Ok (event_data self)
  else if str_eqb attr (lit "duration") then Ok (duration self)
  else Error AttributeError.

(** [__new__], called with four arguments *)
Definition new (time event_type event_data duration : value) : result t :=
  let self := mk time event_type event_data duration in
  _ <- Validation.check types (getattribute self) _fields ;;
  Ok self.

(** [to_json_line] reads and updates the module's [utf8_decoder]. *)
Definition to_json_line (decoder : Utf8.IncrementalDecoder) (self : t)
  : result str * Utf8.IncrementalDecoder :=
  match event_data self with
  | VBytes data =>
    match Utf8.IncrementalDecoder_decode decoder data with
    | (Ok event_data, decoder') =>
      let attributes := [time self; event_type self; VStr event_data] in
      (Json.dumps (VList attributes), decoder')
    | (Error e, decoder') => (Error e, decoder')
    end
  | _ => (Error (TypeError BadArguments), decoder)
  end.

(** [time, event_type, event_data = attributes] *)
Definition unpack3 (attributes : value) : result (value * value * value) :=
  match attributes with
  | VList [a; b; c] | VTuple [a; b; c] | VTheme a b c => Ok (a, b, c)
  | VList _ | VTuple _ => Error (ValueError UnpackCount)
  | VDict [(a, _); (b, _); (c, _)] => Ok (VStr a, VStr b, VStr c)
  | VDict _ => Error (ValueError UnpackCount)
  | VStr [a; b; c] => Ok (VStr [a], VStr [b], VStr [c])
  | VStr _ => Error (ValueError UnpackCount)
  | VBytes [a; b; c] =>
    Ok (VInt (Z.of_N (Byte.to_N a)), VInt (Z.of_N (Byte.to_N b)),
        VInt (Z.of_N (Byte.to_N c)))
  | VBytes _ => Error (ValueError UnpackCount)
  | VNone | VBool _ | VInt _ | VFloat _ => Error (TypeError NotIterable)
  end.

(** [event_data.encode('utf-8')] *)
Definition encode_utf8 (v : value) : result bytes :=
  match v with
  | VStr s => Utf8.encode s
  | _ => Error AttributeError
  end.

Definition from_json_line (line : str) : result t :=
  attributes <- Json.loads line ;;
  '(time, event_type, event_data) <- unpack3 attributes ;;
  event_data <- encode_utf8 event_data ;;
  new time event_type (VBytes event_data) VNone.

End WithFloats.
End AsciiCastEvent.

Module AsciiCastRecord.
Section WithFloats.
Context {FM : FloatModel}.

(** What the dispatcher returns: an [AsciiCastHeader] or an
    [AsciiCastEvent]. *)
Inductive t : Type :=
| Header (h : AsciiCastHeader.t)
| Event (e : AsciiCastEvent.t).

Definition from_json_line (line : str) : result t :=
  v <- Json.loads line ;;
  if pytype_eqb (type_of v) TDict then
    h <- AsciiCastHeader.from_json_line line ;; Ok (Header h)
  else
    v' <- Json.loads line ;;
    if pytype_eqb (type_of v') TList then
      e <- AsciiCastEvent.from_json_line line ;; Ok (Event e)
    else Error NotImplementedError.

End WithFloats.
End AsciiCastRecord.

(** ** A model of the float interface

    The floats that are integers, printed as Python prints them below 1e16
    (the digits, a point and a zero).  A token of any other form is outside
    this model and is read as NaN.  The model shows that the assumptions made
    on floats below can be met; the theorems hold for every model. *)

(** What is assumed of [float.__repr__] and [float]: the repr of a finite
    float is a JSON number token with a fraction or an exponent, and
    reading it gives the float back. *)
Class FloatLaws (FM : FloatModel) : Prop := {
  float_repr_token :
    forall x, Json.number_token (float_repr x) = Some (float_repr x, true, []);
  float_of_repr :
    forall x, float_of_str (float_repr x) = Ffinite x
}.

Module IntegralFloats.

Definition repr (z : Z) : str := Json.int_repr z ++ lit ".0".

Definition of_str (tok : str) : pyfloat Z :=
  match List.rev tok with
  | c0 :: p :: r =>
    if (c0 =? 48) && (p =? 46) then Ffinite (Json.int_of_str (List.rev r)) else Fnan
  | _ => Fnan
  end.

Definition model : FloatModel :=
  {| finite := Z; float_repr := repr; float_of_str := of_str;
     float_eq_int := Z.eqb |}.

End IntegralFloats.

(** ** Notions used by the statements *)

Section Notions.
Context {FM : FloatModel}.

(** The fields of a Theme are strings (the data model of the format). *)
Definition theme_of_strings (theme : value) : bool :=
  match theme with
  | VNone => true
  | VTheme (VStr _) (VStr _) (VStr _) => true
  | _ => false
  end.

(** A valid Header: one that [__new__] accepts, carrying no theme or a theme
    of three strings. *)
Definition valid_header (h : AsciiCastHeader.t) : bool :=
  match AsciiCastHeader.new (AsciiCastHeader.version h) (AsciiCastHeader.width h)
          (AsciiCastHeader.height h) (AsciiCastHeader.theme h) with
  | Ok _ => theme_of_strings (AsciiCastHeader.theme h)
  | Error _ => false
  end.

(** A valid Event: one that [__new__] accepts. *)
Definition valid_event (e : AsciiCastEvent.t) : bool :=
  match AsciiCastEvent.new (AsciiCastEvent.time e) (AsciiCastEvent.event_type e)
          (AsciiCastEvent.event_data e) (AsciiCastEvent.duration e) with
  | Ok _ => true
  | Error _ => false
  end.

(** The bytes of an event's [event_data] are valid UTF-8. *)
Definition valid_utf8_data (e : AsciiCastEvent.t) : bool :=
  match AsciiCastEvent.event_data e with
  | VBytes data => Utf8.valid data
  | _ => false
  end.

(** Encoding [e] with [pending] bytes in the decoder and decoding the line
    gives back the time, the type and the data of [e], with no duration. *)
Definition event_round_trip (pending : bytes) (e : AsciiCastEvent.t) : Prop :=
  exists line decoder',
    AsciiCastEvent.to_json_line (utf8_decoder_at pending) e = (Ok line, decoder')
    /\ AsciiCastEvent.from_json_line line
       = Ok (AsciiCastEvent.mk (AsciiCastEvent.time e)
               (AsciiCastEvent.event_type e) (AsciiCastEvent.event_data e) VNone).

(** The decoder as one call of [to_json_line] leaves it. *)
Definition decoder_after (pending : bytes) (e : AsciiCastEvent.t) : bytes :=
  Utf8.buffer (snd (AsciiCastEvent.to_json_line (utf8_decoder_at pending) e)).

(** Two calls in a row on [e1] then [e2], starting with [pending] bytes in
    the decoder, produce the same line. *)
Definition same_line_twice (pending : bytes) (e1 e2 : AsciiCastEvent.t) : Prop :=
  fst (AsciiCastEvent.to_json_line (utf8_decoder_at pending) e1)
  = fst (AsciiCastEvent.to_json_line
           (utf8_decoder_at (decoder_after pending e1)) e2).

(** The unpacking of a theme object as the specification words it: the
    values of the first, second and third key become [fg], [bg] and
    [palette]. *)
Definition theme_positional (d : dict) : result value :=
  match d with
  | [(_, v1); (_, v2); (_, v3)] => Ok (VTheme v1 v2 v3)
  | _ => Error (TypeError BadArguments)
  end.

(** The theme object of a header line *)
Definition theme_object (line : str) : option dict :=
  match Json.loads line with
  | Ok (VDict d) =>
    match dict_get d (lit "theme") with
    | Some (VDict td) => Some td
    | _ => None
    end
  | _ => None
  end.

(** [attributes[attr] if attr in attributes else None] on a dict *)
Definition field_or_None (d : dict) (attr : str) : value :=
  match dict_get d attr with
  | Some v => v
  | None => VNone
  end.

(** The theme that [AsciiCastHeader.from_json_line] builds from the parsed
    object [d], or the exception of the Theme constructor *)
Definition decoded_theme (d : dict) : result value :=
  match field_or_None d (lit "theme") with
  | VNone => Ok VNone
  | theme => AsciiCastTheme.new_unpack theme
  end.

(** An event whose data stops in the middle of a three-byte character *)
Definition truncated_event : AsciiCastEvent.t :=
  AsciiCastEvent.mk (VInt 0) (VStr (lit "o")) (VBytes [xe2; x82]) VNone.

(** An event whose data is the ASCII text [hi] *)
Definition hi_event : AsciiCastEvent.t :=
  AsciiCastEvent.mk (VInt 1) (VStr (lit "o")) (VBytes [x68; x69]) VNone.

(** An event whose data starts with a byte that no UTF-8 text contains *)
Definition garbled_event : AsciiCastEvent.t :=
  AsciiCastEvent.mk (VInt 0) (VStr (lit "o")) (VBytes [xff; xe2; x82]) VNone.

(** A header with a theme *)
Definition themed_header : AsciiCastHeader.t :=
  AsciiCastHeader.mk (VInt 2) (VInt 80) (VInt 24)
    (VTheme (VStr (lit "#ffffff")) (VStr (lit "#000000"))
       (VStr (lit "#111111:#222222"))).

(** A header line whose theme object lists [bg] before [fg] *)
Definition swapped_theme_line : str :=
  jlit "{'version': 2, 'width': 80, 'height': 24, 'theme': {'bg': '#000000', 'fg': '#ffffff', 'palette': '#111111:#222222'}}".

End Notions.

(** ** Notions used by the further properties *)

(** A Unicode scalar value: a code point that is no surrogate. *)
Definition scalar_value (c : N) : bool :=
  (c <? 0x110000) && negb (Utf8.is_surrogate c).

(** The code points of a Python [str] are below 0x110000. *)
Definition code_points (s : str) : bool := forallb (fun c => c <? 0x110000) s.

(** A text without a control character: no line feed, no carriage return,
    nothing below the space. *)
Definition no_control (line : str) : bool := forallb (fun c => 0x20 <=? c) line.

Definition has_surrogate (s : str) : bool := existsb Utf8.is_surrogate s.

(** The strings at the top of a value hold code points. *)
Definition top_string_ok {FM : FloatModel} (v : value) : bool :=
  match v with
  | VStr s => code_points s
  | _ => true
  end.

(** An event of the integral float model: a float time, a duration, and
    data with characters of one, two, three and four bytes *)
Definition accented_event : AsciiCastEvent.t (FM := IntegralFloats.model) :=
  AsciiCastEvent.mk (FM := IntegralFloats.model)
    (VFloat (FM := IntegralFloats.model) (Ffinite 5%Z)) (VStr (lit "o"))
    (VBytes [x68; xc3; xa9; xe2; x82; xac; xf0; x9f; x98; x80]) (VInt 3).

(** The bytes that an Event holds *)
Definition event_bytes {FM : FloatModel} (e : AsciiCastEvent.t) : bytes :=
  match AsciiCastEvent.event_data e with
  | VBytes data => data
  | _ => []
  end.

(** [to_json_line] called on the Events [es] one after the other: the
    results, and the decoder as the last call leaves it. *)
Fixpoint to_json_lines {FM : FloatModel} (decoder : Utf8.IncrementalDecoder)
    (es : list AsciiCastEvent.t)
  : list (result str) * Utf8.IncrementalDecoder :=
  match es with
  | [] => ([], decoder)
  | e :: es' =>
    let (line, decoder') := AsciiCastEvent.to_json_line decoder e in
    let (lines, decoder'') := to_json_lines decoder' es' in
    (line :: lines, decoder'')
  end.

(** An Event whose data starts with the last byte of a character *)
Definition completing_event {FM : FloatModel} : AsciiCastEvent.t :=
  AsciiCastEvent.mk (VInt 1) (VStr (lit "o")) (VBytes [xac; x68; x69]) VNone.

(** ** Notions used by the proofs *)

Module JsonText.

(** A decimal numeral without a leading zero *)
Definition nonzero_head (d : Decimal.uint) : Prop :=
  match d with Nil | D0 _ => False | _ => True end.

(** The shape of [int_repr z]: an optional sign, then one zero or a
    non-zero digit followed by digits. *)
Inductive int_text : str -> Prop :=
| int_text_zero : int_text [48]
| int_text_pos c ds :
    49 <= c <= 57 -> Forall (fun c => Json.is_digit c = true) ds ->
    int_text (c :: ds)
| int_text_neg c ds :
    49 <= c <= 57 -> Forall (fun c => Json.is_digit c = true) ds ->
    int_text (45 :: c :: ds).

(** What may follow a number token without extending it *)
Definition ends_number (rest : str) : bool :=
  match rest with
  | [] => true
  | c :: _ => negb (Json.is_digit c || (c =? 46) || (c =? 101) || (c =? 69)
                    || (c =? 43) || (c =? 45))
  end.

(** What follows a value inside an array or an object, or at the end *)
Definition delimiter (rest : str) : bool :=
  match rest with
  | [] => true
  | c :: _ => (c =? 44) || (c =? 93) || (c =? 125)
  end.

(** The first character of a value: no whitespace, and not the bracket that
    closes an empty array. *)
Definition starts_value (txt : str) : Prop :=
  exists c t, txt = c :: t /\ Json.is_ws c = false /\ (c =? 93) = false.

(** [txt] is read as [v] by every scanner with at least [n] units of fuel,
    whatever delimiter follows. *)
Definition parses {FM : FloatModel} (n : nat) (txt : str) (v : value) : Prop :=
  starts_value txt /\
  forall f rest, (n <= f)%nat -> delimiter rest = true ->
    Json.scan_once f (txt ++ rest) = Ok (v, rest).

Fixpoint join_items (ts : list str) : str :=
  match ts with
  | [] => []
  | [t] => t
  | t :: ts' => t ++ Json.item_separator ++ join_items ts'
  end.

Fixpoint join_members (ms : list (str * str)) : str :=
  match ms with
  | [] => []
  | [(k, t)] => Json.encode_basestring k ++ Json.key_separator ++ t
  | (k, t) :: ms' =>
    Json.encode_basestring k ++ Json.key_separator ++ t
    ++ Json.item_separator ++ join_members ms'
  end.

(** A result that is no exhaustion of the fuel and that, when it is a
    success, leaves fewer than [L] characters. *)
Definition good {A} (L : nat) (X : result (A * str)) : Prop :=
  X <> Error RecursionError /\
  forall v r, X = Ok (v, r) -> (List.length r < L)%nat.

(** A result that, when it is a success, satisfies [P] and leaves code
    points. *)
Definition scanned {A} (P : A -> Prop) (X : result (A * str)) : Prop :=
  forall v r, X = Ok (v, r) -> P v /\ code_points r = true.

End JsonText.

(** * Facts about the runtime model *)

(** ** Equality of strings *)

Lemma str_eqb_eq a b : str_eqb a b = true <-> a = b.
Proof.
  revert b. induction a as [|x a IH]; intros [|y b]; simpl;
    try (split; congruence).
  rewrite andb_true_iff, N.eqb_eq, IH. split.
  - intros [-> ->]. reflexivity.
  - intros [= -> ->]. auto.
Qed.

Lemma str_eqb_refl a : str_eqb a a = true.
Proof. now apply str_eqb_eq. Qed.

Lemma str_eqb_neq a b : a <> b -> str_eqb a b = false.
Proof.
  intros H. destruct (str_eqb a b) eqn:E; [|reflexivity].
  apply str_eqb_eq in E. contradiction.
Qed.

(** ** UTF-8 *)

Module Utf8Facts.
Import Utf8.

Lemma byte_of_to_N b : byte_of_N (Byte.to_N b) = b.
Proof. unfold byte_of_N. now rewrite Byte.of_to_N. Qed.

Lemma lor_low a y k : a mod 2 ^ k = 0 -> y < 2 ^ k -> N.lor a y = a + y.
Proof.
  intros Ha Hy.
  assert (L : N.land a y = 0).
  { rewrite <- (N.mod_small y (2 ^ k)) by assumption.
    rewrite <- N.land_ones, (N.land_comm y), N.land_assoc, N.land_ones, Ha.
    apply N.land_0_l. }
  rewrite <- N.lxor_lor by assumption.
  symmetry. now apply N.add_nocarry_lxor.
Qed.

Lemma split_low q r k : r < 2 ^ k ->
  N.shiftr (q * 2 ^ k + r) k = q /\ N.land (q * 2 ^ k + r) (N.ones k) = r.
Proof.
  intros Hr. rewrite N.shiftr_div_pow2, N.land_ones.
  assert (2 ^ k <> 0) by (apply N.pow_nonzero; discriminate).
  split.
  - symmetry. apply (N.div_unique _ _ q r); [assumption | lia].
  - symmetry. apply (N.mod_unique _ _ q r); [assumption | lia].
Qed.

Lemma cont_bounds c : is_continuation c = true -> 0x80 <= c < 0xC0.
Proof. unfold is_continuation. rewrite andb_true_iff, N.leb_le, N.ltb_lt. tauto. Qed.

Lemma encode_char_1 b : Byte.to_N b < 0x80 -> encode_char (Byte.to_N b) = Ok [b].
Proof.
  intros H. unfold encode_char. apply N.ltb_lt in H. rewrite H.
  now rewrite byte_of_to_N.
Qed.

Lemma encode_char_2 b0 b1 :
  0xC2 <= Byte.to_N b0 < 0xE0 -> is_continuation (Byte.to_N b1) = true ->
  encode_char (N.shiftl (Byte.to_N b0) 6 + Byte.to_N b1 - (N.shiftl 0xC0 6 + 0x80))
  = Ok [b0; b1].
Proof.
  intros H0 H1%cont_bounds.
  set (ch := Byte.to_N b0) in *. set (ch2 := Byte.to_N b1) in *.
  rewrite !N.shiftl_mul_pow2.
  replace (ch * 2 ^ 6 + ch2 - (192 * 2 ^ 6 + 128))
    with ((ch - 0xC0) * 2 ^ 6 + (ch2 - 0x80)) by lia.
  set (c := (ch - 0xC0) * 2 ^ 6 + (ch2 - 0x80)).
  assert (Hr : ch2 - 0x80 < 2 ^ 6) by (change (2 ^ 6) with 64; lia).
  destruct (split_low (ch - 0xC0) (ch2 - 0x80) 6 Hr) as [Hq Hm]. fold c in Hq, Hm.
  unfold encode_char.
  assert (E1 : (c <? 0x80) = false) by (apply N.ltb_ge; unfold c; change (2 ^ 6) with 64; lia).
  assert (E2 : (c <? 0x800) = true) by (apply N.ltb_lt; unfold c; change (2 ^ 6) with 64; lia).
  rewrite E1, E2. change 0x3F with (N.ones 6). rewrite Hq, Hm.
  rewrite (lor_low 0xC0 _ 6), (lor_low 0x80 _ 6); try reflexivity; try assumption.
  - replace (0xC0 + (ch - 0xC0)) with ch by lia.
    replace (0x80 + (ch2 - 0x80)) with ch2 by lia.
    unfold ch, ch2. now rewrite !byte_of_to_N.
  - change (2 ^ 6) with 64; lia.
Qed.

(** Powers of two as numerals, for [lia] *)
Ltac pow2 := change (2 ^ 4) with 16 in *; change (2 ^ 5) with 32 in *;
  change (2 ^ 6) with 64 in *; change (2 ^ 12) with 4096 in *;
  change (2 ^ 18) with 262144 in *.

Lemma encode_char_3 b0 b1 b2 :
  0xE0 <= Byte.to_N b0 < 0xF0 ->
  is_continuation (Byte.to_N b1) = true ->
  (if Byte.to_N b1 <? 0xA0 then Byte.to_N b0 =? 0xE0 else Byte.to_N b0 =? 0xED) = false ->
  is_continuation (Byte.to_N b2) = true ->
  encode_char (N.shiftl (Byte.to_N b0) 12 + N.shiftl (Byte.to_N b1) 6 + Byte.to_N b2
               - (N.shiftl 0xE0 12 + N.shiftl 0x80 6 + 0x80))
  = Ok [b0; b1; b2].
Proof.
  intros H0 H1%cont_bounds Hs H2%cont_bounds.
  set (ch := Byte.to_N b0) in *. set (ch2 := Byte.to_N b1) in *.
  set (ch3 := Byte.to_N b2) in *.
  assert (Hs' : (ch = 0xE0 -> 0xA0 <= ch2) /\ (ch = 0xED -> ch2 < 0xA0)).
  { destruct (ch2 <? 0xA0) eqn:E; apply N.eqb_neq in Hs;
      [apply N.ltb_lt in E | apply N.ltb_ge in E]; lia. }
  clear Hs. destruct Hs' as [HE0 HED].
  rewrite !N.shiftl_mul_pow2.
  set (c := ch * 2 ^ 12 + ch2 * 2 ^ 6 + ch3 - (224 * 2 ^ 12 + 128 * 2 ^ 6 + 128)).
  assert (Hr3 : ch3 - 0x80 < 2 ^ 6) by (pow2; lia).
  assert (Hr2 : ch2 - 0x80 < 2 ^ 6) by (pow2; lia).
  assert (Hr23 : (ch2 - 0x80) * 2 ^ 6 + (ch3 - 0x80) < 2 ^ 12) by (pow2; lia).
  assert (A : N.shiftr c 12 = ch - 0xE0).
  { replace c with ((ch - 0xE0) * 2 ^ 12 + ((ch2 - 0x80) * 2 ^ 6 + (ch3 - 0x80)))
      by (unfold c; pow2; lia).
    apply split_low, Hr23. }
  assert (B : N.land (N.shiftr c 6) (N.ones 6) = ch2 - 0x80).
  { replace c with (((ch - 0xE0) * 2 ^ 6 + (ch2 - 0x80)) * 2 ^ 6 + (ch3 - 0x80))
      by (unfold c; pow2; lia).
    rewrite (proj1 (split_low _ _ 6 Hr3)). apply split_low, Hr2. }
  assert (C : N.land c (N.ones 6) = ch3 - 0x80).
  { replace c with (((ch - 0xE0) * 2 ^ 6 + (ch2 - 0x80)) * 2 ^ 6 + (ch3 - 0x80))
      by (unfold c; pow2; lia).
    apply split_low, Hr3. }
  unfold encode_char, is_surrogate.
  assert (E1 : (c <? 0x80) = false) by (apply N.ltb_ge; unfold c; pow2; lia).
  assert (E2 : (c <? 0x800) = false) by (apply N.ltb_ge; unfold c; pow2; lia).
  assert (E3 : (c <? 0x10000) = true) by (apply N.ltb_lt; unfold c; pow2; lia).
  assert (E4 : (0xD800 <=? c) && (c <=? 0xDFFF) = false).
  { apply andb_false_iff. rewrite N.leb_gt, N.leb_gt. unfold c; pow2; lia. }
  rewrite E1, E2, E3, E4. change 0x3F with (N.ones 6). rewrite A, B, C.
  rewrite (lor_low 0xE0 _ 4), !(lor_low 0x80 _ 6);
    try reflexivity; try assumption; [|pow2; lia].
  replace (0xE0 + (ch - 0xE0)) with ch by lia.
  replace (0x80 + (ch2 - 0x80)) with ch2 by lia.
  replace (0x80 + (ch3 - 0x80)) with ch3 by lia.
  unfold ch, ch2, ch3. now rewrite !byte_of_to_N.
Qed.

Lemma encode_char_4 b0 b1 b2 b3 :
  0xF0 <= Byte.to_N b0 < 0xF5 ->
  is_continuation (Byte.to_N b1) = true ->
  (if Byte.to_N b1 <? 0x90 then Byte.to_N b0 =? 0xF0 else Byte.to_N b0 =? 0xF4) = false ->
  is_continuation (Byte.to_N b2) = true ->
  is_continuation (Byte.to_N b3) = true ->
  encode_char (N.shiftl (Byte.to_N b0) 18 + N.shiftl (Byte.to_N b1) 12
               + N.shiftl (Byte.to_N b2) 6 + Byte.to_N b3
               - (N.shiftl 0xF0 18 + N.shiftl 0x80 12 + N.shiftl 0x80 6 + 0x80))
  = Ok [b0; b1; b2; b3].
Proof.
  intros H0 H1%cont_bounds Hs H2%cont_bounds H3%cont_bounds.
  set (ch := Byte.to_N b0) in *. set (ch2 := Byte.to_N b1) in *.
  set (ch3 := Byte.to_N b2) in *. set (ch4 := Byte.to_N b3) in *.
  assert (HF0 : ch = 0xF0 -> 0x90 <= ch2).
  { destruct (ch2 <? 0x90) eqn:E; apply N.eqb_neq in Hs;
      [apply N.ltb_lt in E | apply N.ltb_ge in E]; lia. }
  clear Hs.
  rewrite !N.shiftl_mul_pow2.
  set (c := ch * 2 ^ 18 + ch2 * 2 ^ 12 + ch3 * 2 ^ 6 + ch4
            - (240 * 2 ^ 18 + 128 * 2 ^ 12 + 128 * 2 ^ 6 + 128)).
  assert (Hr4 : ch4 - 0x80 < 2 ^ 6) by (pow2; lia).
  assert (Hr3 : ch3 - 0x80 < 2 ^ 6) by (pow2; lia).
  assert (Hr2 : ch2 - 0x80 < 2 ^ 6) by (pow2; lia).
  assert (Hr34 : (ch3 - 0x80) * 2 ^ 6 + (ch4 - 0x80) < 2 ^ 12) by (pow2; lia).
  assert (Hr234 : (ch2 - 0x80) * 2 ^ 12 + (ch3 - 0x80) * 2 ^ 6 + (ch4 - 0x80) < 2 ^ 18)
    by (pow2; lia).
  assert (A : N.shiftr c 18 = ch - 0xF0).
  { replace c with ((ch - 0xF0) * 2 ^ 18
                    + ((ch2 - 0x80) * 2 ^ 12 + (ch3 - 0x80) * 2 ^ 6 + (ch4 - 0x80)))
      by (unfold c; pow2; lia).
    apply split_low, Hr234. }
  assert (B : N.land (N.shiftr c 12) (N.ones 6) = ch2 - 0x80).
  { replace c with (((ch - 0xF0) * 2 ^ 6 + (ch2 - 0x80)) * 2 ^ 12
                    + ((ch3 - 0x80) * 2 ^ 6 + (ch4 - 0x80)))
      by (unfold c; pow2; lia).
    rewrite (proj1 (split_low _ _ 12 Hr34)). apply split_low, Hr2. }
  assert (C : N.land (N.shiftr c 6) (N.ones 6) = ch3 - 0x80).
  { replace c with ((((ch - 0xF0) * 2 ^ 6 + (ch2 - 0x80)) * 2 ^ 6 + (ch3 - 0x80)) * 2 ^ 6
                    + (ch4 - 0x80))
      by (unfold c; pow2; lia).
    rewrite (proj1 (split_low _ _ 6 Hr4)). apply split_low, Hr3. }
  assert (D : N.land c (N.ones 6) = ch4 - 0x80).
  { replace c with ((((ch - 0xF0) * 2 ^ 6 + (ch2 - 0x80)) * 2 ^ 6 + (ch3 - 0x80)) * 2 ^ 6
                    + (ch4 - 0x80))
      by (unfold c; pow2; lia).
    apply split_low, Hr4. }
  unfold encode_char.
  assert (E1 : (c <? 0x80) = false) by (apply N.ltb_ge; unfold c; pow2; lia).
  assert (E2 : (c <? 0x800) = false) by (apply N.ltb_ge; unfold c; pow2; lia).
  assert (E3 : (c <? 0x10000) = false) by (apply N.ltb_ge; unfold c; pow2; lia).
  rewrite E1, E2, E3. change 0x3F with (N.ones 6). rewrite A, B, C, D.
  rewrite (lor_low 0xF0 _ 4), !(lor_low 0x80 _ 6);
    try reflexivity; try assumption; [|pow2; lia].
  replace (0xF0 + (ch - 0xF0)) with ch by lia.
  replace (0x80 + (ch2 - 0x80)) with ch2 by lia.
  replace (0x80 + (ch3 - 0x80)) with ch3 by lia.
  replace (0x80 + (ch4 - 0x80)) with ch4 by lia.
  unfold ch, ch2, ch3, ch4. now rewrite !byte_of_to_N.
Qed.

Lemma emit_inv c r s rest :
  emit c r = Ok (s, rest) -> exists s', s = c :: s' /\ r = Ok (s', rest).
Proof.
  unfold emit. destruct r as [[s' rest']|e]; simpl; [|discriminate].
  intros [= <- <-]. now exists s'.
Qed.

#[local] Arguments Byte.to_N : simpl never.
#[local] Arguments N.shiftl : simpl never.
#[local] Arguments N.ltb : simpl never.
#[local] Arguments N.leb : simpl never.
#[local] Arguments N.eqb : simpl never.
#[local] Arguments N.add : simpl never.
#[local] Arguments N.sub : simpl never.
#[local] Arguments encode_char : simpl never.

Lemma strict_decode_sound n :
  forall data s rest, (List.length data <= n)%nat ->
    utf_8_decode strict true data = Ok (s, rest) ->
    rest = [] /\ utf_8_decode replace false data = Ok (s, []) /\ encode s = Ok data.
Proof.
  induction n as [|n IH]; intros data s rest Hlen.
  { destruct data; [|simpl in Hlen; lia]. simpl. intros [= <- <-]. auto. }
  destruct data as [|b0 r0]; [simpl; intros [= <- <-]; auto|].
  assert (step : forall c r bs,
    r0 = bs ++ r -> encode_char c = Ok (b0 :: bs) ->
    emit c (utf_8_decode strict true r) = Ok (s, rest) ->
    rest = [] /\ emit c (utf_8_decode replace false r) = Ok (s, [])
    /\ encode s = Ok (b0 :: r0)).
  { intros c r bs -> Hc (s' & -> & H)%emit_inv.
    apply IH in H as (-> & Hr & He).
    - split; [reflexivity|]. rewrite Hr. split; [reflexivity|].
      simpl. rewrite Hc, He. reflexivity.
    - simpl in Hlen. rewrite length_app in Hlen. lia. }
  simpl. set (ch := Byte.to_N b0).
  destruct (ch <? 0x80) eqn:E1.
  { apply N.ltb_lt in E1. apply (step ch r0 []); [reflexivity|].
    now apply encode_char_1. }
  apply N.ltb_ge in E1.
  destruct (ch <? 0xC2) eqn:E2; [discriminate|]. apply N.ltb_ge in E2.
  destruct (ch <? 0xE0) eqn:E3.
  { apply N.ltb_lt in E3. destruct r0 as [|b1 r1]; [discriminate|].
    destruct (is_continuation (Byte.to_N b1)) eqn:C1; [|discriminate].
    apply (step _ r1 [b1]); [reflexivity|]. apply encode_char_2; [lia|assumption]. }
  apply N.ltb_ge in E3.
  destruct (ch <? 0xF0) eqn:E4.
  { apply N.ltb_lt in E4. destruct r0 as [|b1 r1]; [discriminate|].
    destruct (is_continuation (Byte.to_N b1)) eqn:C1; [|discriminate].
    simpl negb. rewrite orb_false_l.
    destruct (if Byte.to_N b1 <? 160 then ch =? 224 else ch =? 237) eqn:S1;
      [discriminate|].
    destruct r1 as [|b2 r2]; [discriminate|].
    destruct (is_continuation (Byte.to_N b2)) eqn:C2; [|discriminate].
    apply (step _ r2 [b1; b2]); [reflexivity|].
    apply encode_char_3; [lia|assumption..]. }
  apply N.ltb_ge in E4.
  destruct (ch <? 0xF5) eqn:E5; [|discriminate].
  apply N.ltb_lt in E5. destruct r0 as [|b1 r1]; [discriminate|].
  destruct (is_continuation (Byte.to_N b1)) eqn:C1; [|discriminate].
  simpl negb. rewrite orb_false_l.
  destruct (if Byte.to_N b1 <? 144 then ch =? 240 else ch =? 244) eqn:S1;
    [discriminate|].
  destruct r1 as [|b2 r2]; [discriminate|].
  destruct (is_continuation (Byte.to_N b2)) eqn:C2; [|discriminate].
  simpl negb. cbv iota.
  destruct r2 as [|b3 r3]; [discriminate|].
  destruct (is_continuation (Byte.to_N b3)) eqn:C3; [|discriminate].
  apply (step _ r3 [b1; b2; b3]); [reflexivity|].
  apply encode_char_4; [lia|assumption..].
Qed.
(** The [replace] handler never raises. *)
Lemma replace_total_upto n final :
  forall data, (List.length data <= n)%nat ->
    exists s rest, utf_8_decode replace final data = Ok (s, rest).
Proof.
  induction n as [|n IH]; intros data Hlen.
  { destruct data; [|simpl in Hlen; lia]. simpl. eauto. }
  destruct data as [|b0 r0]; [simpl; eauto|].
  assert (step : forall c r, (List.length r <= n)%nat ->
    exists s rest, emit c (utf_8_decode replace final r) = Ok (s, rest)).
  { intros c r Hr. destruct (IH r Hr) as (s & rest & ->). simpl. eauto. }
  assert (trunc : forall d, exists s rest, truncated replace final d = Ok (s, rest)).
  { intros d. unfold truncated. destruct final; eauto. }
  simpl in Hlen. simpl. unfold invalid.
  repeat match goal with
    | |- context [match ?l with [] => _ | _ :: _ => _ end] =>
      is_var l; destruct l; simpl in Hlen
    | |- context [if ?b then _ else _] => destruct b
    | |- exists s rest, Ok _ = Ok (s, rest) => eauto
    | |- exists s rest, truncated _ _ _ = Ok (s, rest) => apply trunc
    | |- exists s rest, emit _ _ = Ok (s, rest) => apply step; simpl; lia
    end.
Qed.

Lemma replace_total final data :
  exists s rest, utf_8_decode replace final data = Ok (s, rest).
Proof. exact (replace_total_upto _ final data (le_n _)). Qed.

(** Where the strict decoder would raise, the [replace] handler leaves a
    mark: if the whole input was consumed and the text holds no U+FFFD, the
    input was well formed. *)
Lemma replace_clean_upto n :
  forall data s, (List.length data <= n)%nat ->
    utf_8_decode replace false data = Ok (s, []) -> ~ In REPLACEMENT s ->
    utf_8_decode strict true data = Ok (s, []).
Proof.
  induction n as [|n IH]; intros data s Hlen.
  { destruct data; [|simpl in Hlen; lia]. simpl. now intros [= <-]. }
  destruct data as [|b0 r0]; [simpl; now intros [= <-]|].
  assert (step : forall c r, (List.length r <= n)%nat ->
    emit c (utf_8_decode replace false r) = Ok (s, []) -> ~ In REPLACEMENT s ->
    emit c (utf_8_decode strict true r) = Ok (s, [])).
  { intros c r Hr (s' & -> & H)%emit_inv Hn.
    rewrite (IH r s' Hr H); [reflexivity|]. intros Hin. apply Hn. now right. }
  assert (bad : forall r (P : Prop),
    emit REPLACEMENT (utf_8_decode replace false r) = Ok (s, []) ->
    ~ In REPLACEMENT s -> P).
  { intros r P (s' & -> & _)%emit_inv Hn. elim Hn. now left. }
  simpl in Hlen. simpl.
  repeat match goal with
    | |- context [match ?l with [] => _ | _ :: _ => _ end] =>
      is_var l; destruct l; simpl in Hlen
    | |- context [if ?b then _ else _] => destruct b; simpl negb; simpl andb
    | |- Ok _ = Ok _ -> _ => discriminate
    | |- truncated _ _ _ = Ok _ -> _ => discriminate
    | |- emit REPLACEMENT _ = _ -> _ -> Error _ = _ => apply bad
    | |- emit _ _ = _ -> _ => apply step; simpl; lia
    end.
Qed.

(** Ill-formed input is replaced, not passed through nor dropped. *)
Lemma replace_marks_invalid data s rest :
  valid data = false ->
  utf_8_decode replace false data = Ok (s, rest) ->
  In REPLACEMENT s \/ rest <> [].
Proof.
  intros Hv H. destruct rest as [|b rest]; [|right; discriminate]. left.
  destruct (in_dec N.eq_dec REPLACEMENT s) as [Hin|Hn]; [assumption|].
  pose proof (replace_clean_upto _ data s (le_n _) H Hn) as K.
  unfold valid, decode in Hv. rewrite K in Hv. discriminate.
Qed.
End Utf8Facts.

(** ** JSON *)

Module JsonFacts.
Import Json JsonText.

#[local] Arguments is_digit : simpl never.
#[local] Arguments N.sub : simpl never.
#[local] Arguments N.lor : simpl never.
#[local] Arguments N.shiftl : simpl never.
#[local] Arguments N.eqb !n !m : simpl nomatch.
#[local] Arguments N.leb !x !y : simpl nomatch.
#[local] Arguments N.ltb !x !y : simpl nomatch.

Lemma is_digit_spec c : is_digit c = true <-> 48 <= c <= 57.
Proof. unfold is_digit. rewrite andb_true_iff, !N.leb_le. tauto. Qed.

Lemma str_of_uint_digits d : Forall (fun c => is_digit c = true) (str_of_uint d).
Proof. induction d; simpl; constructor; auto. Qed.

Lemma uint_of_str_of_uint d : uint_of_str (str_of_uint d) = d.
Proof. induction d; simpl; rewrite ?IHd; reflexivity. Qed.

Lemma nzhead_head d : nzhead d = Nil \/ nonzero_head (nzhead d).
Proof. induction d; simpl; auto. Qed.

Lemma to_uint_head p : nonzero_head (Pos.to_uint p).
Proof.
  pose proof (DecimalPos.Unsigned.to_of (Pos.to_uint p)) as H.
  rewrite DecimalPos.Unsigned.of_to in H. simpl in H.
  pose proof (DecimalPos.Unsigned.to_uint_nonzero p) as Hz.
  rewrite H in *. unfold unorm in *.
  destruct (nzhead_head (Pos.to_uint p)) as [E|E].
  - rewrite E in Hz. now elim Hz.
  - destruct (nzhead (Pos.to_uint p)); simpl in *; auto.
Qed.

Lemma str_of_uint_head d : nonzero_head d ->
  exists c ds, str_of_uint d = c :: ds /\ 49 <= c <= 57
               /\ Forall (fun c => is_digit c = true) ds.
Proof.
  destruct d; simpl; try contradiction; intros _;
    eexists _, _; (split; [reflexivity|]); (split; [lia|]); apply str_of_uint_digits.
Qed.

Lemma int_repr_text z : int_text (int_repr z).
Proof.
  unfold int_repr. destruct z as [|p|p]; simpl.
  - constructor.
  - destruct (str_of_uint_head _ (to_uint_head p)) as (c & ds & -> & ? & ?).
    now constructor.
  - destruct (str_of_uint_head _ (to_uint_head p)) as (c & ds & -> & ? & ?).
    now constructor.
Qed.

Lemma int_of_str_repr z : int_of_str (int_repr z) = z.
Proof.
  rewrite <- (DecimalZ.of_to z) at 2.
  unfold int_repr, int_of_str.
  destruct (Z.to_int z) as [d|d] eqn:E.
  - destruct (str_of_uint d) as [|c s] eqn:Es.
    + destruct d; try discriminate. 
      destruct z as [|p|p]; simpl in E; try discriminate.
      injection E as E. now destruct (DecimalPos.Unsigned.to_uint_nonnil p).
    + destruct (c =? 45) eqn:Ec.
      * apply N.eqb_eq in Ec. subst c.
        pose proof (str_of_uint_digits d) as F. rewrite Es in F.
        inversion F as [|? ? Hd _]. discriminate Hd.
      * rewrite <- Es, uint_of_str_of_uint. reflexivity.
  - simpl. rewrite uint_of_str_of_uint. reflexivity.
Qed.

Lemma ends_number_cons c r : ends_number (c :: r) = true ->
  is_digit c = false /\ (c =? 46) = false /\ (c =? 101) = false
  /\ (c =? 69) = false /\ (c =? 43) = false /\ (c =? 45) = false.
Proof.
  simpl. rewrite negb_true_iff, !orb_false_iff. tauto.
Qed.

Lemma span_digits_app s rest : ends_number rest = true ->
  span_digits (s ++ rest) = (fst (span_digits s), snd (span_digits s) ++ rest).
Proof.
  intros He. induction s as [|c s IH]; simpl.
  - destruct rest as [|c r]; [reflexivity|].
    apply ends_number_cons in He as (Hd & _). simpl. now rewrite Hd.
  - destruct (is_digit c); [|reflexivity].
    rewrite IH. destruct (span_digits s). reflexivity.
Qed.

Lemma span_digits_all ds : Forall (fun c => is_digit c = true) ds ->
  span_digits ds = (ds, []).
Proof.
  induction 1 as [|c ds Hc _ IH]; simpl; [reflexivity|]. now rewrite Hc, IH.
Qed.

Lemma match_integer_app s i r rest : ends_number rest = true ->
  match_integer s = Some (i, r) -> match_integer (s ++ rest) = Some (i, r ++ rest).
Proof.
  intros He. unfold match_integer.
  assert (body : forall sign s1,
    match s1 with
    | c :: r0 =>
      if (49 <=? c) && (c <=? 57)
      then let (ds, rest0) := span_digits r0 in Some (sign ++ c :: ds, rest0)
      else if c =? 48 then Some (sign ++ [c], r0) else None
    | [] => None
    end = Some (i, r) ->
    match s1 ++ rest with
    | c :: r0 =>
      if (49 <=? c) && (c <=? 57)
      then let (ds, rest0) := span_digits r0 in Some (sign ++ c :: ds, rest0)
      else if c =? 48 then Some (sign ++ [c], r0) else None
    | [] => None
    end = Some (i, r ++ rest)).
  { intros sign [|c s1]; [discriminate|]. simpl.
    destruct ((49 <=? c) && (c <=? 57)).
    - rewrite (span_digits_app _ _ He). destruct (span_digits s1).
      simpl. now intros [= <- <-].
    - destruct (c =? 48); [|discriminate]. now intros [= <- <-]. }
  destruct s as [|c s]; [discriminate|]. simpl.
  destruct (c =? 45); [apply (body [c] s) | apply (body [] (c :: s))].
Qed.

Lemma match_frac_app s rest : ends_number rest = true ->
  match_frac (s ++ rest) = (fst (match_frac s), snd (match_frac s) ++ rest).
Proof.
  intros He. unfold match_frac.
  destruct s as [|p [|d s]]; simpl.
  - destruct rest as [|p [|d r]]; try reflexivity.
    apply ends_number_cons in He as (_ & -> & _). reflexivity.
  - destruct rest as [|d r]; [reflexivity|].
    apply ends_number_cons in He as (-> & _). now rewrite andb_false_r.
  - destruct (p =? 46); simpl; [|reflexivity].
    destruct (is_digit d); simpl; [|reflexivity].
    rewrite (span_digits_app _ _ He). destruct (span_digits s). reflexivity.
Qed.

Lemma match_exp_app s rest : ends_number rest = true ->
  match_exp (s ++ rest) = (fst (match_exp s), snd (match_exp s) ++ rest).
Proof.
  intros He. unfold match_exp.
  destruct s as [|e s]; simpl.
  - destruct rest as [|e r]; [reflexivity|].
    apply ends_number_cons in He as (_ & _ & -> & -> & _). reflexivity.
  - destruct ((e =? 101) || (e =? 69)); [|reflexivity].
    assert (tail : forall sign r1,
      match span_digits (r1 ++ rest) with
      | ([], _) => ([], e :: s ++ rest)
      | (ds, rest0) => (e :: sign ++ ds, rest0)
      end
      = (fst match span_digits r1 with
             | ([], _) => ([], e :: s)
             | (ds, rest0) => (e :: sign ++ ds, rest0)
             end,
         snd match span_digits r1 with
             | ([], _) => ([], e :: s)
             | (ds, rest0) => (e :: sign ++ ds, rest0)
             end ++ rest)).
    { intros sign r1. rewrite (span_digits_app _ _ He).
      destruct (span_digits r1) as [[|c ds] r0]; reflexivity. }
    destruct s as [|c s]; simpl.
    + destruct rest as [|c r]; [reflexivity|].
      apply ends_number_cons in He as (Hd & _ & _ & _ & -> & ->). simpl.
      rewrite Hd. reflexivity.
    + destruct ((c =? 45) || (c =? 43)).
      * exact (tail [c] s).
      * exact (tail [] (c :: s)).
Qed.

Lemma number_token_app s tok fl r rest : ends_number rest = true ->
  number_token s = Some (tok, fl, r) ->
  number_token (s ++ rest) = Some (tok, fl, r ++ rest).
Proof.
  intros He. unfold number_token.
  destruct (match_integer s) as [[i s2]|] eqn:Ei; [|discriminate].
  rewrite (match_integer_app _ _ _ _ He Ei).
  rewrite (match_frac_app _ _ He). destruct (match_frac s2) as [frac s3]. simpl.
  rewrite (match_exp_app _ _ He). destruct (match_exp s3) as [exp s4]. simpl.
  now intros [= <- <- <-].
Qed.

Lemma number_token_int t : int_text t -> number_token t = Some (t, false, []).
Proof.
  unfold number_token, match_integer.
  destruct 1 as [|c ds Hc Hds|c ds Hc Hds]; simpl.
  - reflexivity.
  - assert (E : (c =? 45) = false) by (apply N.eqb_neq; lia). rewrite E.
    assert (E' : (49 <=? c) && (c <=? 57) = true)
      by (apply andb_true_iff; rewrite !N.leb_le; lia).
    rewrite E', (span_digits_all _ Hds). simpl. now rewrite List.app_nil_r.
  - assert (E' : (49 <=? c) && (c <=? 57) = true)
      by (apply andb_true_iff; rewrite !N.leb_le; lia).
    rewrite E', (span_digits_all _ Hds). simpl. now rewrite List.app_nil_r.
Qed.

(** *** Strings *)

#[local] Arguments hex4 : simpl never.

Lemma hex4_control c : c < 0x20 ->
  hex4 48 48 (hex_char (c / 16)) (hex_char (c mod 16)) = Some c.
Proof.
  intros H. destruct c as [|p]; [reflexivity|].
  repeat (destruct p as [p|p|]; try (exfalso; lia); try reflexivity).
Qed.

Section Escape.
#[local] Arguments N.add : simpl never.

Lemma scanstring_escape s rest :
  scanstring (escape s ++ 34 :: rest) = Ok (s, rest).
Proof.
  induction s as [|c s IH]; [reflexivity|].
  simpl escape. unfold escape_char.
  destruct (c =? 92) eqn:E92.
  { apply N.eqb_eq in E92. subst c. simpl. now rewrite IH. }
  destruct (c =? 34) eqn:E34.
  { apply N.eqb_eq in E34. subst c. simpl. now rewrite IH. }
  destruct (c =? 8) eqn:E8.
  { apply N.eqb_eq in E8. subst c. simpl. now rewrite IH. }
  destruct (c =? 12) eqn:E12.
  { apply N.eqb_eq in E12. subst c. simpl. now rewrite IH. }
  destruct (c =? 10) eqn:E10.
  { apply N.eqb_eq in E10. subst c. simpl. now rewrite IH. }
  destruct (c =? 13) eqn:E13.
  { apply N.eqb_eq in E13. subst c. simpl. now rewrite IH. }
  destruct (c =? 9) eqn:E9.
  { apply N.eqb_eq in E9. subst c. simpl. now rewrite IH. }
  destruct (c <? 0x20) eqn:Ec.
  - apply N.ltb_lt in Ec. simpl. rewrite (hex4_control c Ec).
    assert (Hs : (0xD800 <=? c) && (c <=? 0xDBFF) = false).
    { apply andb_false_iff. left. apply N.leb_gt. lia. }
    rewrite Hs, IH. reflexivity.
  - simpl. rewrite E34, E92, Ec, IH. reflexivity.
Qed.

End Escape.

Lemma scanstring_escape_app s rest :
  scanstring (escape s ++ [34] ++ rest) = Ok (s, rest).
Proof. apply scanstring_escape. Qed.

Section WithFloats.
Context {FM : FloatModel}.

(** *** Values followed by a delimiter *)

Lemma delimiter_ends_number rest : delimiter rest = true -> ends_number rest = true.
Proof.
  destruct rest as [|c r]; [reflexivity|]. simpl.
  rewrite !orb_true_iff, !N.eqb_eq. intros [[->| ->]| ->]; reflexivity.
Qed.

Lemma skip_ws_starts txt rest : starts_value txt ->
  skip_ws (txt ++ rest) = txt ++ rest.
Proof. intros (c & t & -> & Hc & _). simpl. now rewrite Hc. Qed.

Lemma parses_str s : parses 1 (encode_basestring s) (VStr s).
Proof.
  split; [now exists 34, (escape s ++ [34])|].
  intros [|f] rest Hf _; [lia|].
  unfold encode_basestring. simpl. rewrite <- app_assoc. simpl.
  now rewrite scanstring_escape.
Qed.

(** A text on which the number scanner succeeds starts with a digit, or
    with a minus sign and a digit. *)
Lemma number_token_starts s r :
  number_token s = Some r ->
  exists c t, s = c :: t /\
    (is_digit c = true \/ c = 45 /\ exists d t', t = d :: t' /\ is_digit d = true).
Proof.
  unfold number_token. destruct (match_integer s) as [[i s2]|] eqn:E; [|discriminate].
  intros _. unfold match_integer in E.
  assert (body : forall sign s1 (x : str * str),
    match s1 with
    | c :: r0 =>
      if (49 <=? c) && (c <=? 57)
      then let (ds, rest0) := span_digits r0 in Some (sign ++ c :: ds, rest0)
      else if c =? 48 then Some (sign ++ [c], r0) else None
    | [] => None
    end = Some x -> exists d t', s1 = d :: t' /\ is_digit d = true).
  { intros sign [|c s1] x; [discriminate|].
    destruct ((49 <=? c) && (c <=? 57)) eqn:E1.
    - intros _. exists c, s1. split; [reflexivity|].
      apply andb_true_iff in E1 as [H1 H2]. apply N.leb_le in H1, H2.
      apply is_digit_spec. lia.
    - destruct (c =? 48) eqn:E2; [|discriminate]. intros _.
      exists c, s1. split; [reflexivity|].
      apply N.eqb_eq in E2. subst. reflexivity. }
  destruct s as [|c s]; [discriminate|]. exists c, s. split; [reflexivity|].
  destruct (c =? 45) eqn:E45.
  - right. apply N.eqb_eq in E45. split; [assumption|]. exact (body [c] s _ E).
  - left. destruct (body [] (c :: s) _ E) as (d & t' & [= <- <-] & Hd). exact Hd.
Qed.

Lemma digit_bounds c : is_digit c = true -> 48 <= c <= 57.
Proof. apply is_digit_spec. Qed.

Lemma scan_once_number f s r :
  number_token s = Some r -> scan_once (S f) s = match_number s.
Proof.
  intros H. destruct (number_token_starts _ _ H) as (c & t & -> & Hc).
  assert (Hr : 48 <= c <= 57 \/ c = 45 /\ exists d t', t = d :: t' /\ 48 <= d <= 57).
  { destruct Hc as [Hc|(-> & d & t' & -> & Hd)].
    - left. now apply digit_bounds.
    - right. split; [reflexivity|]. exists d, t'. split; [reflexivity|].
      now apply digit_bounds. }
  clear Hc H.
  assert (K : constant (c :: t) = None).
  { unfold constant. simpl.
    destruct Hr as [Hc|(-> & d & t' & -> & Hd)].
    - repeat match goal with
        | |- context [?a =? c] =>
          replace (a =? c) with false by (symmetry; apply N.eqb_neq; lia)
        end. reflexivity.
    - simpl.
      replace (73 =? d) with false by (symmetry; apply N.eqb_neq; lia).
      reflexivity. }
  simpl scan_once.
  replace (c =? 34) with false by (symmetry; apply N.eqb_neq; lia).
  replace (c =? 123) with false by (symmetry; apply N.eqb_neq; lia).
  replace (c =? 91) with false by (symmetry; apply N.eqb_neq; lia).
  now rewrite K.
Qed.

Lemma number_token_starts_value s r :
  number_token s = Some r -> starts_value s.
Proof.
  intros H. destruct (number_token_starts _ _ H) as (c & t & -> & Hc).
  exists c, t. split; [reflexivity|].
  assert (48 <= c <= 57 \/ c = 45) as Hr.
  { destruct Hc as [Hc|[-> _]]; [left; now apply digit_bounds | now right]. }
  unfold is_ws.
  split; [rewrite !orb_false_iff; repeat split|]; apply N.eqb_neq; lia.
Qed.

Lemma parses_int z : parses 1 (int_repr z) (VInt z).
Proof.
  pose proof (number_token_int _ (int_repr_text z)) as T.
  split; [exact (number_token_starts_value _ _ T)|].
  intros [|f] rest Hf Hd; [lia|].
  apply delimiter_ends_number in Hd.
  pose proof (number_token_app _ _ _ _ _ Hd T) as T'.
  rewrite (scan_once_number _ _ _ T'). unfold match_number. rewrite T'.
  now rewrite int_of_str_repr.
Qed.

Lemma parses_float `{!FloatLaws FM} f : parses 1 (floatstr f) (VFloat f).
Proof.
  destruct f as [|[|]|x].
  - split; [now exists 78, (lit "aN")|]. now intros [|f] rest Hf Hd; [lia|].
  - split; [now exists 45, (lit "Infinity")|]. now intros [|f] rest Hf Hd; [lia|].
  - split; [now exists 73, (lit "nfinity")|]. now intros [|f] rest Hf Hd; [lia|].
  - pose proof (float_repr_token x) as T. simpl floatstr.
    split; [exact (number_token_starts_value _ _ T)|].
    intros [|f] rest Hf Hd; [lia|].
    apply delimiter_ends_number in Hd.
    pose proof (number_token_app _ _ _ _ _ Hd T) as T'.
    rewrite (scan_once_number _ _ _ T'). unfold match_number. rewrite T'.
    now rewrite float_of_repr.
Qed.

(** *** Arrays and objects *)

Lemma JSONArray_items n (items : list (str * value)) :
  items <> [] -> Forall (fun tv => parses n (fst tv) (snd tv)) items ->
  forall f rest, (n + List.length items <= f)%nat ->
    JSONArray f (join_items (map fst items) ++ 93 :: rest)
    = Ok (map snd items, rest).
Proof.
  induction items as [|[t v] items IH]; [congruence|]. intros _ HF.
  inversion HF as [|? ? [Ht Hp] HF']; subst. simpl in Ht, Hp.
  intros [|f] rest Hf; [simpl in Hf; lia|].
  destruct items as [|[t' v'] items'].
  - simpl. rewrite Hp by (simpl in *; lia || reflexivity). reflexivity.
  - change (join_items (map fst ((t, v) :: (t', v') :: items')))
      with (t ++ [44; 32] ++ join_items (map fst ((t', v') :: items'))).
    rewrite <- !app_assoc. simpl JSONArray.
    rewrite Hp by (simpl in *; lia || reflexivity). simpl.
    assert (St : starts_value (join_items (map fst ((t', v') :: items')))).
    { inversion HF' as [|? ? [(c & u & E & Hc) _] _]; subst. simpl in E. subst t'.
      destruct items'; simpl; eexists _, _; eauto. }
    rewrite (skip_ws_starts _ _ St).
    rewrite IH; [reflexivity|discriminate|assumption|simpl in *; lia].
Qed.

Lemma JSONObject_members n (ms : list (str * str * value)) :
  ms <> [] -> Forall (fun m => parses n (snd (fst m)) (snd m)) ms ->
  forall f rest, (n + List.length ms <= f)%nat ->
    JSONObject f (join_members (map fst ms) ++ 125 :: rest)
    = Ok (map (fun m => (fst (fst m), snd m)) ms, rest).
Proof.
  induction ms as [|[[k t] v] ms IH]; [congruence|]. intros _ HF.
  inversion HF as [|? ? [Ht Hp] HF']; subst. simpl in Ht, Hp.
  intros [|f] rest Hf; [simpl in Hf; lia|].
  destruct ms as [|[[k' t'] v'] ms'].
  - change (join_members (map fst [(k, t, v)]))
      with ((34 :: escape k ++ [34]) ++ [58; 32] ++ t).
    rewrite <- ?app_assoc. simpl JSONObject. rewrite <- ?app_assoc.
    rewrite scanstring_escape_app. simpl.
    rewrite (skip_ws_starts _ _ Ht).
    rewrite Hp by (simpl in *; lia || reflexivity). reflexivity.
  - assert (E : exists u, join_members (map fst ((k', t', v') :: ms')) = 34 :: u).
    { destruct ms' as [|[[? ?] ?] ?]; simpl; eexists; reflexivity. }
    destruct E as [u E].
    change (join_members (map fst ((k, t, v) :: (k', t', v') :: ms')))
      with ((34 :: escape k ++ [34]) ++ [58; 32] ++ t ++ [44; 32]
            ++ join_members (map fst ((k', t', v') :: ms'))).
    remember (join_members (map fst ((k', t', v') :: ms'))) as J eqn:EJ.
    rewrite <- ?app_assoc. simpl JSONObject. rewrite <- ?app_assoc.
    rewrite scanstring_escape_app. simpl.
    rewrite (skip_ws_starts _ _ Ht).
    rewrite Hp by (simpl in *; lia || reflexivity). simpl.
    assert (St : starts_value J) by (rewrite E; now eexists _, _).
    rewrite (skip_ws_starts _ _ St). subst J.
    rewrite IH; [reflexivity|discriminate|assumption|simpl in *; lia].
Qed.

Lemma parses_array n (items : list (str * value)) :
  items <> [] -> Forall (fun tv => parses n (fst tv) (snd tv)) items ->
  parses (S (n + List.length items))
         (91 :: join_items (map fst items) ++ [93]) (VList (map snd items)).
Proof.
  intros Hne HF. split; [now eexists _, _|].
  intros [|f] rest Hf _; [lia|].
  assert (St : starts_value (join_items (map fst items))).
  { destruct items as [|[t v] items]; [congruence|].
    inversion HF as [|? ? [(c & u & E & Hc) _] _]; subst. simpl in E. subst t.
    destruct items; simpl; eexists _, _; eauto. }
  simpl. rewrite <- app_assoc. rewrite (skip_ws_starts _ _ St).
  pose proof (JSONArray_items n items Hne HF f rest ltac:(lia)) as J.
  destruct St as (c & u & E & _ & Hc). rewrite E in *. simpl in *.
  rewrite Hc, J. reflexivity.
Qed.

Lemma parses_object n (ms : list (str * str * value)) :
  ms <> [] -> Forall (fun m => parses n (snd (fst m)) (snd m)) ms ->
  parses (S (n + List.length ms))
         (123 :: join_members (map fst ms) ++ [125])
         (VDict (dict_of_pairs (map (fun m => (fst (fst m), snd m)) ms))).
Proof.
  intros Hne HF. split; [now eexists _, _|].
  intros [|f] rest Hf _; [lia|].
  pose proof (JSONObject_members n ms Hne HF f rest ltac:(lia)) as J.
  assert (E : exists u, join_members (map fst ms) = 34 :: u).
  { destruct ms as [|[[? ?] ?] [|[[? ?] ?] ?]]; [congruence|..]; simpl;
      eexists; reflexivity. }
  destruct E as [u E]. rewrite E in *.
  simpl. rewrite <- app_assoc. simpl in J |- *. rewrite J. reflexivity.
Qed.

Lemma loads_parses n txt v :
  parses n txt v -> (n <= S (2 * List.length txt))%nat ->
  starts_with_bom txt = false -> loads txt = Ok v.
Proof.
  intros [St Hp] Hn Hb. unfold loads. rewrite Hb.
  rewrite <- (List.app_nil_r txt) at 2.
  rewrite (skip_ws_starts _ _ St), Hp by (assumption || reflexivity).
  reflexivity.
Qed.
End WithFloats.
End JsonFacts.

(** ** The float model, and the fuel of the scanner *)

Module JsonFuel.
Import Json JsonText JsonFacts.
#[local] Arguments is_digit : simpl never.
#[local] Arguments N.eqb !n !m : simpl nomatch.
#[local] Arguments N.leb !x !y : simpl nomatch.
#[local] Arguments N.ltb !x !y : simpl nomatch.
#[local] Arguments hex4 : simpl never.
#[local] Arguments N.sub : simpl never.
#[local] Arguments N.add : simpl never.
#[local] Arguments N.lor : simpl never.
#[local] Arguments N.shiftl : simpl never.

(** *** The integral floats satisfy the assumptions *)

Lemma span_digits_stop ds c r :
  Forall (fun c => is_digit c = true) ds -> is_digit c = false ->
  span_digits (ds ++ c :: r) = (ds, c :: r).
Proof.
  intros H Hc. induction H as [|d ds Hd _ IH]; simpl.
  - now rewrite Hc.
  - now rewrite Hd, IH.
Qed.

Lemma number_token_point_zero t : int_text t ->
  number_token (t ++ [46; 48]) = Some (t ++ [46; 48], true, []).
Proof.
  unfold number_token, match_integer.
  destruct 1 as [|c ds Hc Hds|c ds Hc Hds]; simpl.
  - reflexivity.
  - assert (E : (c =? 45) = false) by (apply N.eqb_neq; lia). rewrite E.
    assert (E' : (49 <=? c) && (c <=? 57) = true)
      by (apply andb_true_iff; rewrite !N.leb_le; lia).
    rewrite E', (span_digits_stop _ _ _ Hds) by reflexivity. reflexivity.
  - assert (E' : (49 <=? c) && (c <=? 57) = true)
      by (apply andb_true_iff; rewrite !N.leb_le; lia).
    rewrite E', (span_digits_stop _ _ _ Hds) by reflexivity. reflexivity.
Qed.

#[export] Instance integral_floats_laws : FloatLaws IntegralFloats.model.
Proof.
  split; intros z; simpl; unfold IntegralFloats.repr, IntegralFloats.of_str.
  - apply number_token_point_zero, int_repr_text.
  - change (lit ".0") with [46; 48].
    rewrite rev_app_distr. simpl. now rewrite rev_involutive, int_of_str_repr.
Qed.

(** *** The scanner never runs out of fuel *)

Lemma skip_ws_length s : (List.length (skip_ws s) <= List.length s)%nat.
Proof. induction s as [|c s IH]; simpl; [lia|]. destruct (is_ws c); simpl; lia. Qed.

Lemma push_inv c r x rest :
  push c r = Ok (x, rest) -> exists x', x = c :: x' /\ r = Ok (x', rest).
Proof.
  unfold push. destruct r as [[x' rest']|e]; simpl; [|discriminate].
  intros [= <- <-]. now exists x'.
Qed.

Lemma push_error c r e : push c r = Error e -> r = Error e.
Proof. unfold push. destruct r as [[x' rest']|e']; simpl; congruence. Qed.

Lemma scanstring_upto n :
  forall s, (List.length s <= n)%nat ->
    scanstring s <> Error RecursionError /\
    forall x rest, scanstring s = Ok (x, rest) ->
      (List.length rest < List.length s)%nat.
Proof.
  induction n as [|n IH]; intros s Hlen.
  { destruct s; [|simpl in Hlen; lia]. simpl. split; [discriminate|discriminate]. }
  destruct s as [|c r]; [simpl; split; discriminate|].
  assert (step : forall ch r', (List.length r' <= n)%nat ->
    (List.length r' < List.length (c :: r))%nat ->
    push ch (scanstring r') <> Error RecursionError /\
    forall x rest, push ch (scanstring r') = Ok (x, rest) ->
      (List.length rest < List.length (c :: r))%nat).
  { intros ch r' Hr Hlt. destruct (IH r' Hr) as [A B]. split.
    - intros E%push_error. contradiction.
    - intros x rest (x' & -> & E)%push_inv. specialize (B _ _ E). lia. }
  assert (err : forall (e : json_error),
    @Error (str * str) (JSONDecodeError e) <> Error RecursionError /\
    forall x rest, @Error (str * str) (JSONDecodeError e) = Ok (x, rest) ->
      (List.length rest < List.length (c :: r))%nat).
  { intros e. split; discriminate. }
  simpl in Hlen. simpl scanstring.
  destruct (c =? 34).
  { split; [discriminate|]. intros ? ? [= <- <-]. simpl. lia. }
  destruct (c =? 92);
    [|destruct (c <? 32); [apply err | apply step; simpl; lia]].
  destruct r as [|e r1]; [apply err|]. simpl in Hlen.
  destruct (e =? 117);
    [|destruct (backslash e); [apply step; simpl; lia | apply err]].
  destruct r1 as [|h1 [|h2 [|h3 [|h4 r2]]]]; try apply err. simpl in Hlen.
  destruct (hex4 h1 h2 h3 h4) as [uni|]; [|apply err].
  destruct ((0xD800 <=? uni) && (uni <=? 0xDBFF)); [|apply step; simpl; lia].
  destruct r2 as [|b [|u [|k1 [|k2 [|k3 [|k4 r3]]]]]];
    try (apply step; simpl in *; lia).
  destruct ((b =? 92) && (u =? 117)); [|apply step; simpl in *; lia].
  destruct (hex4 k1 k2 k3 k4) as [uni2|]; [|apply err].
  destruct ((0xDC00 <=? uni2) && (uni2 <=? 0xDFFF)); apply step; simpl in *; lia.
Qed.

Section WithFloats.
Context {FM : FloatModel}.

Lemma good_error {A} L (e : json_error) : @good A L (Error (JSONDecodeError e)).
Proof. split; discriminate. Qed.

Lemma good_ok {A} L (v : A) r : (List.length r < L)%nat -> good L (Ok (v, r)).
Proof. intros H. split; [discriminate|]. now intros ? ? [= <- <-]. Qed.

Lemma good_bind {A B} L L' (X : result (A * str)) (k : A * str -> result (B * str)) :
  good L' X ->
  (forall v r, (List.length r < L')%nat -> good L (k (v, r))) ->
  good L (bind X k).
Proof.
  intros [H1 H2] Hk. destruct X as [[v r]|e]; simpl.
  - apply Hk. exact (H2 v r eq_refl).
  - split; [|discriminate]. intros [= ->]. now apply H1.
Qed.

Lemma good_scanstring s : good (List.length s) (scanstring s).
Proof. exact (scanstring_upto _ s (le_n _)). Qed.

Lemma span_digits_length s :
  (List.length (snd (span_digits s)) <= List.length s)%nat.
Proof.
  induction s as [|c s IH]; simpl; [lia|].
  destruct (is_digit c); [|simpl; lia].
  destruct (span_digits s). simpl in *. lia.
Qed.

Lemma match_integer_length s i r :
  match_integer s = Some (i, r) -> (List.length r < List.length s)%nat.
Proof.
  unfold match_integer.
  assert (body : forall sign s1,
    match s1 with
    | c :: r0 =>
      if (49 <=? c) && (c <=? 57)
      then let (ds, rest0) := span_digits r0 in Some (sign ++ c :: ds, rest0)
      else if c =? 48 then Some (sign ++ [c], r0) else None
    | [] => None
    end = Some (i, r) -> (List.length r < List.length s1)%nat).
  { intros sign [|c s1]; [discriminate|].
    destruct ((49 <=? c) && (c <=? 57)).
    - pose proof (span_digits_length s1) as H. destruct (span_digits s1).
      intros [= <- <-]. simpl in *. lia.
    - destruct (c =? 48); [|discriminate]. intros [= <- <-]. simpl. lia. }
  destruct s as [|c s]; [discriminate|].
  destruct (c =? 45).
  - intros H. apply (body [c] s) in H. simpl. lia.
  - apply (body [] (c :: s)).
Qed.

Lemma match_frac_length s :
  (List.length (snd (match_frac s)) <= List.length s)%nat.
Proof.
  unfold match_frac. destruct s as [|p [|d s]]; [simpl; lia..|].
  destruct ((p =? 46) && is_digit d); [|simpl; lia].
  pose proof (span_digits_length (d :: s)) as H.
  destruct (span_digits (d :: s)). simpl List.length in *. simpl snd in *. lia.
Qed.

Lemma match_exp_length s :
  (List.length (snd (match_exp s)) <= List.length s)%nat.
Proof.
  unfold match_exp. destruct s as [|e s]; simpl; [lia|].
  destruct ((e =? 101) || (e =? 69)); [|simpl; lia].
  assert (tail : forall sign r1, (List.length r1 <= List.length s)%nat ->
    (List.length (snd match span_digits r1 with
                      | ([], _) => ([], e :: s)
                      | (ds, rest0) => (e :: sign ++ ds, rest0)
                      end) <= S (List.length s))%nat).
  { intros sign r1 Hr. pose proof (span_digits_length r1) as H.
    destruct (span_digits r1) as [[|c ds] r0]; simpl in *; lia. }
  destruct s as [|c s]; [simpl; lia|].
  destruct ((c =? 45) || (c =? 43)).
  - apply (tail [c] s). simpl. lia.
  - apply (tail [] (c :: s)). lia.
Qed.

Lemma good_match_number s : good (List.length s) (match_number s).
Proof.
  unfold match_number, number_token.
  destruct (match_integer s) as [[i s2]|] eqn:E; [|apply good_error].
  apply match_integer_length in E.
  pose proof (match_frac_length s2). destruct (match_frac s2) as [frac s3].
  pose proof (match_exp_length s3). destruct (match_exp s3) as [exp s4].
  simpl in *.
  destruct (negb _); apply good_ok; lia.
Qed.

Lemma strip_prefix_length p s r :
  strip_prefix p s = Some r -> List.length s = (List.length p + List.length r)%nat.
Proof.
  revert s. induction p as [|a p IH]; intros s; simpl.
  - now intros [= ->].
  - destruct s as [|b s]; [discriminate|]. destruct (a =? b); [|discriminate].
    intros H%IH. simpl. lia.
Qed.

Lemma constant_length s v r :
  constant s = Some (v, r) -> (List.length r < List.length s)%nat.
Proof.
  unfold constant.
  repeat match goal with
    | |- context [strip_prefix ?p s] =>
      let E := fresh "E" in
      destruct (strip_prefix p s) eqn:E;
        [apply strip_prefix_length in E; intros [= <- <-];
         cbn in E; lia|]
    end.
  discriminate.
Qed.

Lemma scan_fuel f :
  (forall s, (2 * List.length s + 1 <= f)%nat ->
     good (List.length s) (scan_once f s)) /\
  (forall s, (2 * List.length s + 2 <= f)%nat ->
     good (List.length s) (JSONObject f s)) /\
  (forall s, (2 * List.length s + 2 <= f)%nat ->
     good (S (List.length s)) (JSONArray f s)).
Proof.
  induction f as [|f (IHs & IHo & IHa)].
  { repeat split; intros; lia. }
  split; [|split]; intros s Hf.
  - (* scan_once *)
    simpl scan_once. destruct s as [|c r]; [apply good_error|].
    simpl in Hf.
    destruct (c =? 34).
    { apply (good_bind _ _ _ _ (good_scanstring r)).
      intros v r' Hr. apply good_ok. simpl. lia. }
    destruct (c =? 123).
    { pose proof (skip_ws_length r) as Hw.
      destruct (skip_ws r) as [|c' r']; [apply good_error|].
      destruct (c' =? 125); [apply good_ok; simpl in *; lia|].
      apply (good_bind _ (List.length (c' :: r'))).
      - apply IHo. simpl in *. lia.
      - intros v r0 Hr. apply good_ok. simpl in *. lia. }
    destruct (c =? 91).
    { pose proof (skip_ws_length r) as Hw.
      destruct (skip_ws r) as [|c' r']; [apply good_error|].
      destruct (c' =? 93); [apply good_ok; simpl in *; lia|].
      apply (good_bind _ (S (List.length (c' :: r')))).
      - apply IHa. simpl in *. lia.
      - intros v r0 Hr. apply good_ok. simpl in *. lia. }
    destruct (constant (c :: r)) as [[v r']|] eqn:E.
    + apply constant_length in E. now apply good_ok.
    + apply good_match_number.
  - (* JSONObject *)
    simpl JSONObject. destruct s as [|c r]; [apply good_error|].
    simpl in Hf.
    destruct (c =? 34); [|apply good_error].
    apply (good_bind _ _ _ _ (good_scanstring r)).
    intros key r1 Hr1.
    pose proof (skip_ws_length r1) as Hw1.
    destruct (skip_ws r1) as [|c2 r2]; [apply good_error|].
    destruct (c2 =? 58); [|apply good_error].
    pose proof (skip_ws_length r2) as Hw2.
    apply (good_bind _ (List.length (skip_ws r2))).
    { apply IHs. simpl in *. lia. }
    intros v r3 Hr3.
    pose proof (skip_ws_length r3) as Hw3.
    destruct (skip_ws r3) as [|c4 r4]; [apply good_error|].
    destruct (c4 =? 125); [apply good_ok; simpl in *; lia|].
    destruct (c4 =? 44); [|apply good_error].
    pose proof (skip_ws_length r4) as Hw4.
    apply (good_bind _ (List.length (skip_ws r4))).
    { apply IHo. simpl in *. lia. }
    intros pairs rest Hrest. apply good_ok. simpl in *. lia.
  - (* JSONArray *)
    simpl JSONArray.
    apply (good_bind _ (List.length s)).
    { apply IHs. lia. }
    intros v r1 Hr1.
    pose proof (skip_ws_length r1) as Hw1.
    destruct (skip_ws r1) as [|c2 r2]; [apply good_error|].
    destruct (c2 =? 93); [apply good_ok; simpl in *; lia|].
    destruct (c2 =? 44); [|apply good_error].
    pose proof (skip_ws_length r2) as Hw2.
    apply (good_bind _ (S (List.length (skip_ws r2)))).
    { apply IHa. simpl in *. lia. }
    intros vs rest Hrest. apply good_ok. simpl in *. lia.
Qed.

(** [json.loads] never stops for lack of fuel. *)
Lemma loads_fuel line : loads line <> Error RecursionError.
Proof.
  unfold loads. destruct (starts_with_bom line); [discriminate|].
  pose proof (skip_ws_length line) as Hw.
  destruct (proj1 (scan_fuel (S (2 * List.length line))) (skip_ws line)) as [H _];
    [lia|].
  destruct (scan_once _ _) as [[v rest]|e]; simpl.
  - destruct (skip_ws rest); discriminate.
  - intros [= ->]. now apply H.
Qed.
End WithFloats.
End JsonFuel.

(** * The constructors *)

Section Constructors.
Context {FM : FloatModel}.

(** The loop of [AsciiCastHeader.__new__] and the test that follows it,
    field by field. *)
Lemma header_new_unfold v w h t :
  AsciiCastHeader.new v w h t =
  if negb (type_in (type_of v) [TInt])
  then Error (TypeError (InvalidAttrType (lit "version") (type_of v)))
  else if negb (type_in (type_of w) [TInt])
  then Error (TypeError (InvalidAttrType (lit "width") (type_of w)))
  else if negb (type_in (type_of h) [TInt])
  then Error (TypeError (InvalidAttrType (lit "height") (type_of h)))
  else if negb (type_in (type_of t) [NoneType; TAsciiCastTheme])
  then Error (TypeError (InvalidAttrType (lit "theme") (type_of t)))
  else if ne_int v 2 then Error (ValueError OnlyV2Supported)
  else Ok (AsciiCastHeader.mk v w h t).
Proof.
  unfold AsciiCastHeader.new.
  change (Validation.check AsciiCastHeader.types
            (AsciiCastHeader.getattribute (AsciiCastHeader.mk v w h t))
            AsciiCastHeader._fields)
    with (if negb (type_in (type_of v) [TInt])
          then Error (TypeError (InvalidAttrType (lit "version") (type_of v)))
          else if negb (type_in (type_of w) [TInt])
          then Error (TypeError (InvalidAttrType (lit "width") (type_of w)))
          else if negb (type_in (type_of h) [TInt])
          then Error (TypeError (InvalidAttrType (lit "height") (type_of h)))
          else if negb (type_in (type_of t) [NoneType; TAsciiCastTheme])
          then Error (TypeError (InvalidAttrType (lit "theme") (type_of t)))
          else Ok tt).
  repeat match goal with
    | |- context [if ?b then _ else _] => destruct b; try reflexivity
    end.
Qed.

Lemma event_new_unfold t ty d du :
  AsciiCastEvent.new t ty d du =
  if negb (type_in (type_of t) [TInt; TFloat])
  then Error (TypeError (InvalidAttrType (lit "time") (type_of t)))
  else if negb (type_in (type_of ty) [TStr])
  then Error (TypeError (InvalidAttrType (lit "event_type") (type_of ty)))
  else if negb (type_in (type_of d) [TBytes])
  then Error (TypeError (InvalidAttrType (lit "event_data") (type_of d)))
  else if negb (type_in (type_of du) [NoneType; TInt; TFloat])
  then Error (TypeError (InvalidAttrType (lit "duration") (type_of du)))
  else Ok (AsciiCastEvent.mk t ty d du).
Proof.
  unfold AsciiCastEvent.new.
  change (Validation.check AsciiCastEvent.types
            (AsciiCastEvent.getattribute (AsciiCastEvent.mk t ty d du))
            AsciiCastEvent._fields)
    with (if negb (type_in (type_of t) [TInt; TFloat])
          then Error (TypeError (InvalidAttrType (lit "time") (type_of t)))
          else if negb (type_in (type_of ty) [TStr])
          then Error (TypeError (InvalidAttrType (lit "event_type") (type_of ty)))
          else if negb (type_in (type_of d) [TBytes])
          then Error (TypeError (InvalidAttrType (lit "event_data") (type_of d)))
          else if negb (type_in (type_of du) [NoneType; TInt; TFloat])
          then Error (TypeError (InvalidAttrType (lit "duration") (type_of du)))
          else Ok tt).
  repeat match goal with
    | |- context [if ?b then _ else _] => destruct b; try reflexivity
    end.
Qed.

Lemma type_in_int v : type_in (type_of v) [TInt] = true <-> type_of v = TInt.
Proof. destruct v; simpl; split; congruence. Qed.

Lemma type_in_theme v :
  type_in (type_of v) [NoneType; TAsciiCastTheme] = true
  <-> type_of v = NoneType \/ type_of v = TAsciiCastTheme.
Proof.
  destruct v; simpl; split; auto; try discriminate; intros [H|H]; discriminate.
Qed.

(** What [__new__] accepts has the declared types and version 2. *)
Lemma header_new_ok v w h t x :
  AsciiCastHeader.new v w h t = Ok x ->
  x = AsciiCastHeader.mk v w h t /\ v = VInt 2
  /\ (exists wz, w = VInt wz) /\ (exists hz, h = VInt hz)
  /\ (t = VNone \/ exists fg bg palette, t = VTheme fg bg palette).
Proof.
  rewrite header_new_unfold.
  destruct v; simpl; try discriminate.
  destruct w; simpl; try discriminate.
  destruct h; simpl; try discriminate.
  destruct (z =? 2)%Z eqn:E;
    [apply Z.eqb_eq in E; subst|destruct t; simpl; discriminate].
  destruct t; simpl; try discriminate; intros [= <-]; repeat split; eauto 6.
Qed.

(** C4. A Header is accepted with version 2 only: with the other fields of
    the declared types, an int version other than 2 raises the ValueError and
    version 2 is accepted; the test on the value comes after the loop over
    the types, so that a version of another type raises the TypeError of the
    attribute [version], and so does any field of a wrong type whatever the
    version is. *)
Theorem header_version_check (version width height theme : value) :
  (forall z, version = VInt z ->
     type_of width = TInt -> type_of height = TInt ->
     type_of theme = NoneType \/ type_of theme = TAsciiCastTheme ->
     AsciiCastHeader.new version width height theme
     = if (z =? 2)%Z then Ok (AsciiCastHeader.mk version width height theme)
       else Error (ValueError OnlyV2Supported))
  /\ (type_of version <> TInt ->
      AsciiCastHeader.new version width height theme
      = Error (TypeError (InvalidAttrType (lit "version") (type_of version))))
  /\ (~ (type_of width = TInt /\ type_of height = TInt
         /\ (type_of theme = NoneType \/ type_of theme = TAsciiCastTheme)) ->
      exists attr ty,
        AsciiCastHeader.new version width height theme
        = Error (TypeError (InvalidAttrType attr ty))).
Proof.
  rewrite header_new_unfold. split; [|split].
  - intros z -> Hw Hh Ht.
    apply type_in_int in Hw, Hh. apply type_in_theme in Ht.
    rewrite Hw, Hh, Ht. simpl. now destruct (z =? 2)%Z.
  - intros Hv. destruct (type_in (type_of version) [TInt]) eqn:E; [|reflexivity].
    apply type_in_int in E. contradiction.
  - intros Hn.
    destruct (type_in (type_of version) [TInt]); [|simpl; eauto].
    destruct (type_in (type_of width) [TInt]) eqn:Ew; [|simpl; eauto].
    destruct (type_in (type_of height) [TInt]) eqn:Eh; [|simpl; eauto].
    destruct (type_in (type_of theme) [NoneType; TAsciiCastTheme]) eqn:Et;
      [|simpl; eauto].
    elim Hn. apply type_in_int in Ew, Eh. apply type_in_theme in Et. tauto.
Qed.

(** C6. A float given for [width] raises a TypeError, whatever its value:
    the error names [width] when the version is an int, and [__new__]
    accepts nothing but ints for the three integer fields. *)
Theorem header_width_float_rejected :
  forall (version height theme : value) (f : pyfloat finite),
    (exists info,
       AsciiCastHeader.new version (VFloat f) height theme
       = Error (TypeError info))
    /\ (forall z, version = VInt z ->
        AsciiCastHeader.new version (VFloat f) height theme
        = Error (TypeError (InvalidAttrType (lit "width") TFloat)))
    /\ (forall width x,
        AsciiCastHeader.new version width height theme = Ok x ->
        type_of version = TInt /\ type_of width = TInt /\ type_of height = TInt).
Proof.
  intros version height theme f. split; [|split].
  - rewrite header_new_unfold.
    destruct (type_in (type_of version) [TInt]); simpl; eauto.
  - intros z ->. rewrite header_new_unfold. reflexivity.
  - intros width x H.
    apply header_new_ok in H as (_ & -> & [wz ->] & [hz ->] & _). auto.
Qed.

(** C10. A bool is no int and no float for the validators: given for
    [version], [width] or [height] of a Header, or for [time] or [duration]
    of an Event, it raises a TypeError, which names the field when the fields
    before it have the declared types. *)
Theorem bool_rejected_for_numbers (b : bool) :
  (forall w h t,
     AsciiCastHeader.new (VBool b) w h t
     = Error (TypeError (InvalidAttrType (lit "version") TBool)))
  /\ (forall v h t,
      AsciiCastHeader.new v (VBool b) h t
      = Error (TypeError
                 (if type_in (type_of v) [TInt]
                  then InvalidAttrType (lit "width") TBool
                  else InvalidAttrType (lit "version") (type_of v))))
  /\ (forall v w t, exists attr ty,
      AsciiCastHeader.new v w (VBool b) t
      = Error (TypeError (InvalidAttrType attr ty))
      /\ (type_in (type_of v) [TInt] = true ->
          type_in (type_of w) [TInt] = true ->
          attr = lit "height" /\ ty = TBool))
  /\ (forall ty d du,
      AsciiCastEvent.new (VBool b) ty d du
      = Error (TypeError (InvalidAttrType (lit "time") TBool)))
  /\ (forall t ty d, exists attr aty,
      AsciiCastEvent.new t ty d (VBool b)
      = Error (TypeError (InvalidAttrType attr aty))
      /\ (type_in (type_of t) [TInt; TFloat] = true ->
          type_in (type_of ty) [TStr] = true ->
          type_in (type_of d) [TBytes] = true ->
          attr = lit "duration" /\ aty = TBool)).
Proof.
  split; [|split; [|split; [|split]]].
  - intros. now rewrite header_new_unfold.
  - intros. rewrite header_new_unfold.
    now destruct (type_in (type_of v) [TInt]).
  - intros. rewrite header_new_unfold.
    destruct (type_in (type_of v) [TInt]);
      [|eexists _, _; split; [reflexivity|discriminate]].
    destruct (type_in (type_of w) [TInt]);
      [|eexists _, _; split; [reflexivity|discriminate]].
    eexists _, _; split; [reflexivity|auto].
  - intros. now rewrite event_new_unfold.
  - intros. rewrite event_new_unfold.
    destruct (type_in (type_of t) [TInt; TFloat]);
      [|eexists _, _; split; [reflexivity|discriminate]].
    destruct (type_in (type_of ty) [TStr]);
      [|eexists _, _; split; [reflexivity|discriminate]].
    destruct (type_in (type_of d) [TBytes]);
      [|eexists _, _; split; [reflexivity|discriminate]].
    eexists _, _; split; [reflexivity|auto].
Qed.

End Constructors.

(** * Header lines *)

Section HeaderLines.
Context {FM : FloatModel}.

(** C7. The line of [Header(2, 80, 24, None)] is the literal of the
    specification; a line is one JSON object, closed by its brace with no
    newline after it; without a theme the object has the three keys
    [version], [width], [height] and no [theme] key, and with a theme the
    last key is [theme], holding the object of [fg], [bg] and [palette]. *)
Theorem header_line_shape :
  AsciiCastHeader.to_json_line
    (AsciiCastHeader.mk (VInt 2) (VInt 80) (VInt 24) VNone)
  = Ok (jlit "{'version': 2, 'width': 80, 'height': 24}")
  /\ (forall h line, AsciiCastHeader.to_json_line h = Ok line ->
      exists body, line = 123 :: body ++ [125])
  /\ (forall v w h,
      AsciiCastHeader.to_json_line (AsciiCastHeader.mk v w h VNone)
      = Json.dumps (VDict [(lit "version", v); (lit "width", w);
                           (lit "height", h)]))
  /\ (forall v w h fg bg palette,
      AsciiCastHeader.to_json_line
        (AsciiCastHeader.mk v w h (VTheme fg bg palette))
      = Json.dumps (VDict [(lit "version", v); (lit "width", w);
                           (lit "height", h);
                           (lit "theme",
                            VDict [(lit "fg", fg); (lit "bg", bg);
                                   (lit "palette", palette)])]))
  /\ (forall v w h : Z,
      AsciiCastHeader.to_json_line
        (AsciiCastHeader.mk (VInt v) (VInt w) (VInt h) VNone)
      = Ok (jlit "{'version': " ++ Json.int_repr v
            ++ jlit ", 'width': " ++ Json.int_repr w
            ++ jlit ", 'height': " ++ Json.int_repr h ++ jlit "}"))
  /\ (forall (v w h : Z) (fg bg palette : str),
      AsciiCastHeader.to_json_line
        (AsciiCastHeader.mk (VInt v) (VInt w) (VInt h)
           (VTheme (VStr fg) (VStr bg) (VStr palette)))
      = Ok (jlit "{'version': " ++ Json.int_repr v
            ++ jlit ", 'width': " ++ Json.int_repr w
            ++ jlit ", 'height': " ++ Json.int_repr h
            ++ jlit ", 'theme': {'fg': " ++ Json.encode_basestring fg
            ++ jlit ", 'bg': " ++ Json.encode_basestring bg
            ++ jlit ", 'palette': " ++ Json.encode_basestring palette
            ++ jlit "}}")).
Proof.
  split; [reflexivity|]. split; [|split; [|split; [|split]]].
  - intros h line. unfold AsciiCastHeader.to_json_line.
    destruct (AsciiCastHeader.theme h); simpl bind at 1; try discriminate;
      cbn [Json.dumps];
      match goal with
      | |- bind ?X _ = _ -> _ => destruct X as [b|e]; simpl; [|discriminate]
      end; intros [= <-]; now exists b.
  - reflexivity.
  - reflexivity.
  - intros v w h. cbn. unfold Json.encode_basestring. cbn.
    repeat (rewrite <- ?app_assoc; cbn). reflexivity.
  - intros v w h fg bg palette. cbn. unfold Json.encode_basestring. cbn.
    repeat (rewrite <- ?app_assoc; cbn). reflexivity.
Qed.

End HeaderLines.

Section HeaderDecoding.
Context {FM : FloatModel}.

(** [AsciiCastHeader.from_json_line] on a line that holds an object *)
Lemma header_from_json_line_dict line d :
  Json.loads line = Ok (VDict d) ->
  AsciiCastHeader.from_json_line line
  = (theme <- decoded_theme d ;;
     AsciiCastHeader.new (field_or_None d (lit "version"))
       (field_or_None d (lit "width")) (field_or_None d (lit "height")) theme).
Proof.
  intros H. unfold AsciiCastHeader.from_json_line. rewrite H.
  unfold decoded_theme, field_or_None. simpl.
  destruct (dict_get d (lit "version")), (dict_get d (lit "width")),
    (dict_get d (lit "height")), (dict_get d (lit "theme")); simpl.
  all: try reflexivity.
  all: match goal with
       | |- context [match ?v with VNone => _ | _ => _ end] =>
         destruct v; reflexivity
       end.
Qed.

Lemma decoded_theme_error d e :
  decoded_theme d = Error e ->
  e = TypeError BadArguments \/ e = TypeError NotAMapping.
Proof.
  unfold decoded_theme, AsciiCastTheme.new_unpack, AsciiCastTheme.new_kwargs.
  destruct (field_or_None d (lit "theme")) as [| | | | | | | |td|];
    try (intros [= <-]; auto; fail).
  destruct (dict_get td (lit "fg")), (dict_get td (lit "bg")),
    (dict_get td (lit "palette")); try (intros [= <-]; auto; fail).
  destruct (_ =? _)%nat; intros [= <-]; auto.
Qed.

(** C5. The dispatcher parses the line (a parse that always ends) and
    looks at the type of the value: a dict goes to the Header decoder, a list
    to the Event decoder, anything else raises NotImplementedError, and the
    error of a line that is no JSON is the parser's.  The four lines of the
    specification are routed as it says. *)
Theorem dispatcher_routes_by_shape :
  (forall line,
     Json.loads line <> Error RecursionError
     /\ AsciiCastRecord.from_json_line line
        = match Json.loads line with
          | Error e => Error e
          | Ok (VDict _) =>
            h <- AsciiCastHeader.from_json_line line ;;
            Ok (AsciiCastRecord.Header h)
          | Ok (VList _) =>
            e <- AsciiCastEvent.from_json_line line ;;
            Ok (AsciiCastRecord.Event e)
          | Ok _ => Error NotImplementedError
          end)
  /\ AsciiCastRecord.from_json_line (jlit "{'version':2,'width':80,'height':24}")
     = Ok (AsciiCastRecord.Header
             (AsciiCastHeader.mk (VInt 2) (VInt 80) (VInt 24) VNone))
  /\ AsciiCastRecord.from_json_line (jlit "[1.5,'o','hi']")
     = Ok (AsciiCastRecord.Event
             (AsciiCastEvent.mk (VFloat (float_of_str (lit "1.5")))
                (VStr (lit "o")) (VBytes [x68; x69]) VNone))
  /\ AsciiCastRecord.from_json_line (jlit "'oops'") = Error NotImplementedError
  /\ AsciiCastRecord.from_json_line (jlit "null") = Error NotImplementedError.
Proof.
  split; [|repeat split; vm_compute; reflexivity].
  intros line. split; [apply JsonFuel.loads_fuel|].
  unfold AsciiCastRecord.from_json_line.
  destruct (Json.loads line) as [v|e]; [|reflexivity].
  destruct v; reflexivity.
Qed.

(** C9. A header line whose object lacks [version], [width] or [height]
    raises a TypeError: the missing field is replaced by None, and when the
    theme of the line can be built the error is the one that [__new__]
    raises on its arguments, for the first field that has not the declared
    type. *)
Theorem missing_header_field_is_type_error (line : str) (d : dict) :
  Json.loads line = Ok (VDict d) ->
  dict_get d (lit "version") = None \/ dict_get d (lit "width") = None
    \/ dict_get d (lit "height") = None ->
  (exists info,
     AsciiCastHeader.from_json_line line = Error (TypeError info)
     /\ AsciiCastRecord.from_json_line line = Error (TypeError info))
  /\ (forall theme, decoded_theme d = Ok theme ->
      exists attr,
        In attr [lit "version"; lit "width"; lit "height"]
        /\ AsciiCastHeader.new (field_or_None d (lit "version"))
             (field_or_None d (lit "width")) (field_or_None d (lit "height"))
             theme
           = Error (TypeError (InvalidAttrType attr
                                 (type_of (field_or_None d attr))))
        /\ AsciiCastHeader.from_json_line line
           = Error (TypeError (InvalidAttrType attr
                                 (type_of (field_or_None d attr))))).
Proof.
  intros Hl Hmiss.
  assert (Hnew : forall theme, exists attr,
    In attr [lit "version"; lit "width"; lit "height"]
    /\ AsciiCastHeader.new (field_or_None d (lit "version"))
         (field_or_None d (lit "width")) (field_or_None d (lit "height")) theme
       = Error (TypeError (InvalidAttrType attr (type_of (field_or_None d attr))))).
  { intros theme. rewrite header_new_unfold.
    destruct (type_in (type_of (field_or_None d (lit "version"))) [TInt]) eqn:Ev;
      [|exists (lit "version"); simpl; auto].
    destruct (type_in (type_of (field_or_None d (lit "width"))) [TInt]) eqn:Ew;
      [|exists (lit "width"); simpl; auto].
    destruct (type_in (type_of (field_or_None d (lit "height"))) [TInt]) eqn:Eh;
      [|exists (lit "height"); simpl; auto].
    exfalso. unfold field_or_None in Ev, Ew, Eh.
    destruct Hmiss as [H|[H|H]]; rewrite H in *; discriminate. }
  pose proof (header_from_json_line_dict line d Hl) as Hh.
  split.
  - assert (E : exists info, AsciiCastHeader.from_json_line line = Error (TypeError info)).
    { rewrite Hh. destruct (decoded_theme d) as [theme|e] eqn:Et; simpl.
      - destruct (Hnew theme) as (attr & _ & ->). eauto.
      - destruct (decoded_theme_error d e Et) as [-> | ->]; eauto. }
    destruct E as [info E]. exists info. split; [assumption|].
    unfold AsciiCastRecord.from_json_line. rewrite Hl. simpl. now rewrite E.
  - intros theme Ht. destruct (Hnew theme) as (attr & Hin & Hn).
    exists attr. split; [assumption|]. split; [assumption|].
    rewrite Hh, Ht. simpl. assumption.
Qed.

(** C8, as amended.  The values of the theme object are given to the Theme
    by the names of their keys, in whatever order the keys come: the Theme is
    built when the object has the keys [fg], [bg] and [palette] and no
    other, and it is attached to the Header that is then constructed. *)
Theorem theme_unpacked_by_name (line : str) (d td : dict) :
  Json.loads line = Ok (VDict d) ->
  dict_get d (lit "theme") = Some (VDict td) ->
  AsciiCastHeader.from_json_line line
  = (theme <- AsciiCastTheme.new_kwargs td ;;
     AsciiCastHeader.new (field_or_None d (lit "version"))
       (field_or_None d (lit "width")) (field_or_None d (lit "height")) theme)
  /\ (forall fg bg palette,
      AsciiCastTheme.new_kwargs td = Ok (VTheme fg bg palette)
      <-> dict_get td (lit "fg") = Some fg /\ dict_get td (lit "bg") = Some bg
          /\ dict_get td (lit "palette") = Some palette
          /\ List.length td = 3%nat)
  /\ (forall e, AsciiCastTheme.new_kwargs td = Error e -> e = TypeError BadArguments).
Proof.
  intros Hl Ht. split; [|split].
  - rewrite (header_from_json_line_dict line d Hl).
    unfold decoded_theme, field_or_None at 1. rewrite Ht. reflexivity.
  - intros fg bg palette. unfold AsciiCastTheme.new_kwargs.
    destruct (dict_get td (lit "fg")) as [a|], (dict_get td (lit "bg")) as [b|],
      (dict_get td (lit "palette")) as [c|];
      try (split; [discriminate|intros (? & ? & ? & ?); discriminate]).
    destruct (List.length td =? 3)%nat eqn:E.
    + apply Nat.eqb_eq in E. split.
      * intros [= -> -> ->]. auto.
      * intros ([= ->] & [= ->] & [= ->] & _). reflexivity.
    + apply Nat.eqb_neq in E. split; [discriminate|].
      intros (_ & _ & _ & H). contradiction.
  - intros e. unfold AsciiCastTheme.new_kwargs.
    destruct (dict_get td (lit "fg")), (dict_get td (lit "bg")),
      (dict_get td (lit "palette")); try (now intros [= <-]).
    destruct (_ =? _)%nat; [discriminate|now intros [= <-]].
Qed.

End HeaderDecoding.

(** C8, as stated, fails on [swapped_theme_line]: the first key of its theme
    object is [bg], and the value of that key does not become [fg]. *)
Lemma theme_positional_counterexample :
  theme_object (FM := IntegralFloats.model) swapped_theme_line
  = Some [(lit "bg", VStr (lit "#000000")); (lit "fg", VStr (lit "#ffffff"));
          (lit "palette", VStr (lit "#111111:#222222"))]
  /\ AsciiCastHeader.from_json_line (FM := IntegralFloats.model)
       swapped_theme_line
     = Ok (AsciiCastHeader.mk (VInt 2) (VInt 80) (VInt 24)
             (VTheme (VStr (lit "#ffffff")) (VStr (lit "#000000"))
                (VStr (lit "#111111:#222222"))))
  /\ ~ (forall td h,
         theme_object (FM := IntegralFloats.model) swapped_theme_line = Some td ->
         AsciiCastHeader.from_json_line swapped_theme_line = Ok h ->
         theme_positional td = Ok (AsciiCastHeader.theme h)).
Proof.
  assert (E1 : theme_object (FM := IntegralFloats.model) swapped_theme_line
    = Some [(lit "bg", VStr (lit "#000000")); (lit "fg", VStr (lit "#ffffff"));
            (lit "palette", VStr (lit "#111111:#222222"))])
    by (vm_compute; reflexivity).
  assert (E2 : AsciiCastHeader.from_json_line (FM := IntegralFloats.model)
                 swapped_theme_line
    = Ok (AsciiCastHeader.mk (VInt 2) (VInt 80) (VInt 24)
            (VTheme (VStr (lit "#ffffff")) (VStr (lit "#000000"))
               (VStr (lit "#111111:#222222")))))
    by (vm_compute; reflexivity).
  split; [exact E1|]. split; [exact E2|].
  intros H. specialize (H _ _ E1 E2).
  apply (f_equal (fun r => match r with
                           | Ok (VTheme (VStr (_ :: c :: _)) _ _) => c
                           | _ => 0
                           end)) in H.
  vm_compute in H. discriminate H.
Qed.

(** * Round trips *)

Section RoundTrips.
Context {FM : FloatModel}.
Import JsonText JsonFacts.

Lemma parses_mono n m txt v : parses n txt v -> (n <= m)%nat -> parses m txt v.
Proof.
  intros [St Hp] Hnm. split; [assumption|].
  intros f rest Hf Hd. apply Hp; [lia|assumption].
Qed.

(** C1. The line of a valid Header decodes to the same Header, through
    the Header decoder and through the dispatcher; a Header without a theme
    comes back with [theme = None]. *)
Theorem header_round_trip (h : AsciiCastHeader.t) :
  valid_header h = true ->
  exists line,
    AsciiCastHeader.to_json_line h = Ok line
    /\ AsciiCastHeader.from_json_line line = Ok h
    /\ AsciiCastRecord.from_json_line line = Ok (AsciiCastRecord.Header h).
Proof.
  unfold valid_header. destruct h as [v w hh t]. simpl.
  destruct (AsciiCastHeader.new v w hh t) as [x|] eqn:E; [|discriminate].
  apply header_new_ok in E as (_ & -> & [wz ->] & [hz ->] & _).
  intros Ht.
  assert (route : forall line d,
    Json.loads line = Ok (VDict d) ->
    AsciiCastHeader.from_json_line line
    = Ok (AsciiCastHeader.mk (VInt 2) (VInt wz) (VInt hz) t) ->
    AsciiCastHeader.from_json_line line
    = Ok (AsciiCastHeader.mk (VInt 2) (VInt wz) (VInt hz) t)
    /\ AsciiCastRecord.from_json_line line
       = Ok (AsciiCastRecord.Header
               (AsciiCastHeader.mk (VInt 2) (VInt wz) (VInt hz) t))).
  { intros line d Hl Hh. split; [assumption|].
    unfold AsciiCastRecord.from_json_line. rewrite Hl. simpl. now rewrite Hh. }
  destruct t as [| | | | | | | | |fg bg palette]; try discriminate.
  - (* no theme *)
    pose (ms := [(lit "version", Json.int_repr 2, VInt 2);
                 (lit "width", Json.int_repr wz, VInt wz);
                 (lit "height", Json.int_repr hz, VInt hz)]).
    assert (P : parses 5 (123 :: join_members (map fst ms) ++ [125])
                  (VDict [(lit "version", VInt 2); (lit "width", VInt wz);
                          (lit "height", VInt hz)])).
    { apply (parses_object 1 ms); [discriminate|].
      repeat (apply Forall_cons || apply Forall_nil); apply parses_int. }
    exists (123 :: join_members (map fst ms) ++ [125]).
    split; [reflexivity|].
    assert (L : Json.loads (123 :: join_members (map fst ms) ++ [125])
                = Ok (VDict [(lit "version", VInt 2); (lit "width", VInt wz);
                             (lit "height", VInt hz)])).
    { apply (loads_parses 5); [exact P| |reflexivity].
      simpl. rewrite !length_app. simpl. lia. }
    apply (route _ _ L).
    rewrite (header_from_json_line_dict _ _ L). reflexivity.
  - (* a theme of three strings *)
    destruct fg as [| | | |fg| | | | |]; try discriminate.
    destruct bg as [| | | |bg| | | | |]; try discriminate.
    destruct palette as [| | | |palette| | | | |]; try discriminate.
    pose (ts := [(lit "fg", Json.encode_basestring fg, VStr fg);
                 (lit "bg", Json.encode_basestring bg, VStr bg);
                 (lit "palette", Json.encode_basestring palette, VStr palette)]).
    pose (td := [(lit "fg", VStr fg); (lit "bg", VStr bg);
                 (lit "palette", VStr palette)]).
    assert (PT : parses 5 (123 :: join_members (map fst ts) ++ [125]) (VDict td)).
    { apply (parses_object 1 ts); [discriminate|].
      repeat (apply Forall_cons || apply Forall_nil); apply parses_str. }
    pose (ms := [(lit "version", Json.int_repr 2, VInt 2);
                 (lit "width", Json.int_repr wz, VInt wz);
                 (lit "height", Json.int_repr hz, VInt hz);
                 (lit "theme", 123 :: join_members (map fst ts) ++ [125],
                  VDict td)]).
    assert (P : parses 10 (123 :: join_members (map fst ms) ++ [125])
                  (VDict [(lit "version", VInt 2); (lit "width", VInt wz);
                          (lit "height", VInt hz); (lit "theme", VDict td)])).
    { apply (parses_object 5 ms); [discriminate|].
      repeat (apply Forall_cons || apply Forall_nil);
        try (apply (parses_mono 1); [apply parses_int|lia]).
      exact PT. }
    exists (123 :: join_members (map fst ms) ++ [125]).
    split; [reflexivity|].
    assert (L : Json.loads (123 :: join_members (map fst ms) ++ [125])
                = Ok (VDict [(lit "version", VInt 2); (lit "width", VInt wz);
                             (lit "height", VInt hz); (lit "theme", VDict td)])).
    { apply (loads_parses 10); [exact P| |reflexivity].
      simpl. rewrite !length_app. simpl. lia. }
    apply (route _ _ L).
    rewrite (header_from_json_line_dict _ _ L). reflexivity.
Qed.


(** The hypothesis on the theme cannot be dropped: [__new__] looks at the
    type of the theme, not at its fields, and a tuple in a field comes back
    from JSON as a list. *)
Lemma header_round_trip_needs_string_theme :
  let h := AsciiCastHeader.mk (VInt 2) (VInt 80) (VInt 24)
             (VTheme (VTuple [VInt 1]) (VStr (lit "b")) (VStr (lit "p"))) in
  AsciiCastHeader.new (AsciiCastHeader.version h) (AsciiCastHeader.width h)
    (AsciiCastHeader.height h) (AsciiCastHeader.theme h) = Ok h
  /\ valid_header h = false
  /\ exists line,
       AsciiCastHeader.to_json_line h = Ok line
       /\ AsciiCastHeader.from_json_line line
          = Ok (AsciiCastHeader.mk (VInt 2) (VInt 80) (VInt 24)
                  (VTheme (VList [VInt 1]) (VStr (lit "b")) (VStr (lit "p")))).
Proof.
  intros h. split; [reflexivity|]. split; [reflexivity|].
  eexists. split; [reflexivity|]. vm_compute. reflexivity.
Qed.

(** What [__new__] accepts as an Event *)
Lemma event_new_ok t ty d du x :
  AsciiCastEvent.new t ty d du = Ok x ->
  x = AsciiCastEvent.mk t ty d du
  /\ ((exists z, t = VInt z) \/ (exists f, t = VFloat f))
  /\ (exists s, ty = VStr s) /\ (exists data, d = VBytes data).
Proof.
  rewrite event_new_unfold.
  destruct t; simpl; try discriminate;
    (destruct ty; simpl; try discriminate);
    (destruct d; simpl; try discriminate);
    (destruct du; simpl; try discriminate);
    intros [= <-]; repeat split; eauto.
Qed.

(** The line of a time, a type and a text, and its parse *)
Lemma event_line_parses `{!FloatLaws FM} (t : value) (ty text : str) :
  (exists z, t = VInt z) \/ (exists f, t = VFloat f) ->
  exists line,
    Json.dumps (VList [t; VStr ty; VStr text]) = Ok line
    /\ Json.loads line = Ok (VList [t; VStr ty; VStr text]).
Proof.
  intros Ht.
  assert (Hp : exists T, Json.dumps t = Ok T /\ parses 1 T t).
  { destruct Ht as [[z ->]|[f ->]]; eexists; (split; [reflexivity|]);
      [apply parses_int | apply parses_float]. }
  destruct Hp as (T & HT & PT).
  pose (items := [(T, t); (Json.encode_basestring ty, VStr ty);
                  (Json.encode_basestring text, VStr text)]).
  exists (91 :: join_items (map fst items) ++ [93]). split.
  - cbn [Json.dumps Json.dumps_items]. rewrite HT. reflexivity.
  - apply (loads_parses 5); [| |reflexivity].
    + apply (parses_array 1 items); [discriminate|].
      repeat (apply Forall_cons || apply Forall_nil);
        [exact PT | apply parses_str | apply parses_str].
    + simpl. rewrite !length_app. simpl. lia.
Qed.

(** C2, as amended.  When no bytes are pending in the shared decoder, the
    line of a valid Event whose data is valid UTF-8 decodes to the time, the
    type and the data of the Event, with [duration = None] whatever the
    duration was, and the decoder is left with no pending bytes. *)
Theorem event_round_trip_no_pending `{!FloatLaws FM} (e : AsciiCastEvent.t) :
  valid_event e = true -> valid_utf8_data e = true ->
  event_round_trip [] e /\ decoder_after [] e = [].
Proof.
  unfold valid_event, valid_utf8_data, event_round_trip, decoder_after.
  destruct e as [t ty d du]. simpl.
  destruct (AsciiCastEvent.new t ty d du) as [x|] eqn:E; [|discriminate].
  apply event_new_ok in E as (_ & Ht & [s ->] & [data ->]).
  intros _ Hv. unfold Utf8.valid, Utf8.decode in Hv.
  destruct (Utf8.utf_8_decode Utf8.strict true data) as [[text rest]|] eqn:D;
    [|discriminate].
  destruct (Utf8Facts.strict_decode_sound _ data text rest (le_n _) D)
    as (-> & R & B).
  destruct (event_line_parses t s text Ht) as (line & Hd & Hl).
  unfold AsciiCastEvent.to_json_line, Utf8.IncrementalDecoder_decode.
  cbn [AsciiCastEvent.event_data AsciiCastEvent.time AsciiCastEvent.event_type
       Utf8.buffer Utf8.errs utf8_decoder_at List.app snd].
  rewrite R, Hd. split; [|reflexivity].
  exists line. eexists. split; [reflexivity|].
  unfold AsciiCastEvent.from_json_line. rewrite Hl. simpl. rewrite B. simpl.
  rewrite event_new_unfold.
  destruct Ht as [[z ->]|[f ->]]; reflexivity.
Qed.

(** C3, as amended.  Encoding a valid Event never fails.  The text of the
    line is what the [replace] decoder makes of the pending bytes followed by
    the data: where these bytes are no valid UTF-8 the text holds U+FFFD or
    bytes are kept pending.  The line and the pending bytes left behind are
    determined by the pending bytes found and by the time, the type and the
    data of the Event; a second call gives the same line when the first one
    left the pending bytes as it found them. *)
Theorem event_encoding_replaces (pending : bytes) (e : AsciiCastEvent.t) :
  valid_event e = true ->
  exists line text pending' data,
    AsciiCastEvent.to_json_line (utf8_decoder_at pending) e
    = (Ok line, utf8_decoder_at pending')
    /\ AsciiCastEvent.event_data e = VBytes data
    /\ Utf8.utf_8_decode Utf8.replace false (pending ++ data)
       = Ok (text, pending')
    /\ Json.dumps (VList [AsciiCastEvent.time e; AsciiCastEvent.event_type e;
                          VStr text]) = Ok line
    /\ (Utf8.valid (pending ++ data) = false ->
        In Utf8.REPLACEMENT text \/ pending' <> [])
    /\ (forall e2,
        AsciiCastEvent.time e2 = AsciiCastEvent.time e ->
        AsciiCastEvent.event_type e2 = AsciiCastEvent.event_type e ->
        AsciiCastEvent.event_data e2 = AsciiCastEvent.event_data e ->
        AsciiCastEvent.to_json_line (utf8_decoder_at pending) e2
        = (Ok line, utf8_decoder_at pending'))
    /\ (pending' = pending -> same_line_twice pending e e).
Proof.
  unfold valid_event. destruct e as [t ty d du]. simpl.
  destruct (AsciiCastEvent.new t ty d du) as [x|] eqn:E; [|discriminate].
  apply event_new_ok in E as (_ & Ht & [s ->] & [data ->]). intros _.
  destruct (Utf8Facts.replace_total false (pending ++ data))
    as (text & pending' & R).
  assert (Hd : exists line, Json.dumps (VList [t; VStr s; VStr text]) = Ok line).
  { destruct Ht as [[z ->]|[f ->]]; eexists; reflexivity. }
  destruct Hd as [line Hd].
  assert (Hto : forall e2,
    AsciiCastEvent.time e2 = t -> AsciiCastEvent.event_type e2 = VStr s ->
    AsciiCastEvent.event_data e2 = VBytes data ->
    AsciiCastEvent.to_json_line (utf8_decoder_at pending) e2
    = (Ok line, utf8_decoder_at pending')).
  { intros e2 H1 H2 H3.
    unfold AsciiCastEvent.to_json_line, Utf8.IncrementalDecoder_decode.
    rewrite H1, H2, H3.
    cbn [Utf8.buffer Utf8.errs utf8_decoder_at].
    rewrite R, Hd. reflexivity. }
  exists line, text, pending', data.
  split; [now apply Hto|]. split; [reflexivity|]. split; [exact R|].
  split; [exact Hd|]. split; [|split].
  - intros Hv. exact (Utf8Facts.replace_marks_invalid _ _ _ Hv R).
  - exact Hto.
  - intros ->. unfold same_line_twice, decoder_after.
    rewrite (Hto (AsciiCastEvent.mk t (VStr s) (VBytes data) du)) by reflexivity.
    simpl. rewrite (Hto (AsciiCastEvent.mk t (VStr s) (VBytes data) du))
      by reflexivity.
    reflexivity.
Qed.

End RoundTrips.

(** C2, as stated, fails after [truncated_event] has been encoded: two
    bytes are pending, and the line of [hi_event], whose data is valid
    UTF-8, decodes to other data. *)
Lemma event_round_trip_counterexample :
  valid_event (FM := IntegralFloats.model) truncated_event = true
  /\ valid_event (FM := IntegralFloats.model) hi_event = true
  /\ valid_utf8_data (FM := IntegralFloats.model) hi_event = true
  /\ decoder_after (FM := IntegralFloats.model) [] truncated_event = [xe2; x82]
  /\ ~ event_round_trip (FM := IntegralFloats.model)
         (decoder_after (FM := IntegralFloats.model) [] truncated_event)
         hi_event.
Proof.
  repeat (split; [vm_compute; reflexivity|]).
  intros (line & decoder' & H1 & H2).
  vm_compute in H1. injection H1 as <- _.
  apply (f_equal (fun r => match r with
                           | Ok (AsciiCastEvent.mk _ _ (VBytes b) _) =>
                             List.length b
                           | _ => 0%nat
                           end)) in H2.
  vm_compute in H2. discriminate H2.
Qed.

(** C3, as stated, fails on [garbled_event]: encoded twice in a row, it
    gives two different lines. *)
Lemma event_encoding_counterexample :
  valid_event (FM := IntegralFloats.model) garbled_event = true
  /\ valid_utf8_data (FM := IntegralFloats.model) garbled_event = false
  /\ fst (AsciiCastEvent.to_json_line (FM := IntegralFloats.model)
            utf8_decoder garbled_event)
     = Ok (jlit "[0, 'o', '" ++ [0xFFFD] ++ jlit "']")
  /\ fst (AsciiCastEvent.to_json_line (FM := IntegralFloats.model)
            (utf8_decoder_at
               (decoder_after (FM := IntegralFloats.model) [] garbled_event))
            garbled_event)
     = Ok (jlit "[0, 'o', '" ++ [0xFFFD; 0xFFFD] ++ jlit "']")
  /\ ~ same_line_twice (FM := IntegralFloats.model) [] garbled_event
         garbled_event.
Proof.
  repeat (split; [vm_compute; reflexivity|]).
  unfold same_line_twice. intros H.
  apply (f_equal (fun r => match r with
                           | Ok l => List.length l
                           | Error _ => 0%nat
                           end)) in H.
  vm_compute in H. discriminate H.
Qed.

(** * Further facts about the UTF-8 codec *)

Module Utf8More.
Import Utf8 Utf8Facts.

#[local] Arguments Byte.to_N : simpl never.
#[local] Arguments N.shiftl : simpl never.
#[local] Arguments N.ltb : simpl never.
#[local] Arguments N.leb : simpl never.
#[local] Arguments N.eqb : simpl never.
#[local] Arguments N.add : simpl never.
#[local] Arguments N.sub : simpl never.
#[local] Arguments encode_char : simpl never.

Lemma scalar_value_spec c :
  scalar_value c = true <-> c < 0x110000 /\ ~ (0xD800 <= c <= 0xDFFF).
Proof.
  unfold scalar_value, is_surrogate.
  rewrite andb_true_iff, negb_true_iff, andb_false_iff, N.ltb_lt, !N.leb_gt.
  lia.
Qed.

(** The decoder only writes scalar values. *)
Lemma decode_scalar_upto n errs final :
  forall data t p, (List.length data <= n)%nat ->
    utf_8_decode errs final data = Ok (t, p) ->
    Forall (fun c => scalar_value c = true) t.
Proof.
  induction n as [|n IH]; intros data t p Hlen.
  { destruct data; [|simpl in Hlen; lia]. simpl. intros [= <- <-]. constructor. }
  destruct data as [|b0 r0]; [simpl; intros [= <- <-]; constructor|].
  assert (step : forall c r, (List.length r <= n)%nat ->
    scalar_value c = true ->
    emit c (utf_8_decode errs final r) = Ok (t, p) ->
    Forall (fun c => scalar_value c = true) t).
  { intros c r Hr Hc (t' & -> & H)%emit_inv. constructor; [exact Hc|].
    exact (IH r t' p Hr H). }
  assert (bad : forall r, (List.length r <= n)%nat ->
    invalid errs (utf_8_decode errs final r) = Ok (t, p) ->
    Forall (fun c => scalar_value c = true) t).
  { intros r Hr. unfold invalid. destruct errs; [discriminate|].
    now apply step. }
  assert (trunc : forall d, truncated errs final d = Ok (t, p) ->
    Forall (fun c => scalar_value c = true) t).
  { intros d. unfold truncated. destruct final, errs; try discriminate;
      intros [= <- <-]; repeat constructor. }
  simpl in Hlen. simpl. set (ch := Byte.to_N b0).
  destruct (ch <? 0x80) eqn:E1.
  { apply N.ltb_lt in E1. apply step; [lia|]. apply scalar_value_spec. lia. }
  apply N.ltb_ge in E1.
  destruct (ch <? 0xC2) eqn:E2; [apply bad; lia|]. apply N.ltb_ge in E2.
  destruct (ch <? 0xE0) eqn:E3.
  { apply N.ltb_lt in E3. destruct r0 as [|b1 r1]; [apply trunc|].
    simpl in Hlen.
    destruct (is_continuation (Byte.to_N b1)) eqn:C1; [|apply bad; simpl; lia].
    apply cont_bounds in C1. apply step; [lia|].
    apply scalar_value_spec. rewrite !N.shiftl_mul_pow2. pow2. lia. }
  apply N.ltb_ge in E3.
  destruct (ch <? 0xF0) eqn:E4.
  { apply N.ltb_lt in E4. destruct r0 as [|b1 r1]; [apply trunc|].
    simpl in Hlen.
    destruct (is_continuation (Byte.to_N b1)) eqn:C1; simpl negb;
      rewrite ?orb_false_l, ?orb_true_l.
    2:{ destruct (_ && _); [intros [= <- <-]; constructor|apply bad; simpl; lia]. }
    destruct (if Byte.to_N b1 <? 160 then ch =? 224 else ch =? 237) eqn:S1.
    { destruct (_ && _); [intros [= <- <-]; constructor|apply bad; simpl; lia]. }
    destruct r1 as [|b2 r2]; [apply trunc|]. simpl in Hlen.
    destruct (is_continuation (Byte.to_N b2)) eqn:C2; [|apply bad; simpl; lia].
    apply cont_bounds in C1, C2. apply step; [lia|].
    assert (Hs : (ch = 0xE0 -> 0xA0 <= Byte.to_N b1)
                 /\ (ch = 0xED -> Byte.to_N b1 < 0xA0)).
    { destruct (Byte.to_N b1 <? 160) eqn:E; apply N.eqb_neq in S1;
        [apply N.ltb_lt in E | apply N.ltb_ge in E]; lia. }
    apply scalar_value_spec. rewrite !N.shiftl_mul_pow2. pow2. lia. }
  apply N.ltb_ge in E4.
  destruct (ch <? 0xF5) eqn:E5; [|apply bad; lia].
  apply N.ltb_lt in E5. destruct r0 as [|b1 r1]; [apply trunc|]. simpl in Hlen.
  destruct (is_continuation (Byte.to_N b1)) eqn:C1; simpl negb;
    rewrite ?orb_false_l, ?orb_true_l; [|apply bad; simpl; lia].
  destruct (if Byte.to_N b1 <? 144 then ch =? 240 else ch =? 244) eqn:S1;
    [apply bad; simpl; lia|].
  destruct r1 as [|b2 r2]; [apply trunc|]. simpl in Hlen.
  destruct (is_continuation (Byte.to_N b2)) eqn:C2; simpl negb; cbv iota;
    [|apply bad; simpl; lia].
  destruct r2 as [|b3 r3]; [apply trunc|]. simpl in Hlen.
  destruct (is_continuation (Byte.to_N b3)) eqn:C3; [|apply bad; simpl; lia].
  apply cont_bounds in C1, C2, C3. apply step; [lia|].
  assert (Hs : (ch = 0xF0 -> 0x90 <= Byte.to_N b1)
               /\ (ch = 0xF4 -> Byte.to_N b1 < 0x90)).
  { destruct (Byte.to_N b1 <? 144) eqn:E; apply N.eqb_neq in S1;
      [apply N.ltb_lt in E | apply N.ltb_ge in E]; lia. }
  apply scalar_value_spec. rewrite !N.shiftl_mul_pow2.
  change (2 ^ 18) with 262144. pow2. lia.
Qed.

Lemma decode_scalar errs final data t p :
  utf_8_decode errs final data = Ok (t, p) ->
  Forall (fun c => scalar_value c = true) t.
Proof. exact (decode_scalar_upto _ errs final data t p (le_n _)). Qed.

(** [str.encode] only refuses surrogates. *)
Lemma encode_char_error c e :
  encode_char c = Error e -> e = UnicodeEncodeError /\ is_surrogate c = true.
Proof.
  unfold encode_char.
  destruct (c <? 0x80); [discriminate|]. destruct (c <? 0x800); [discriminate|].
  destruct (c <? 0x10000); [|discriminate].
  destruct (is_surrogate c); [|discriminate]. now intros [= <-].
Qed.

Lemma encode_char_surrogate c :
  is_surrogate c = true -> encode_char c = Error UnicodeEncodeError.
Proof.
  intros H. unfold encode_char. rewrite H.
  unfold is_surrogate in H. apply andb_true_iff in H as [H1 H2].
  apply N.leb_le in H1, H2.
  replace (c <? 0x80) with false by (symmetry; apply N.ltb_ge; lia).
  replace (c <? 0x800) with false by (symmetry; apply N.ltb_ge; lia).
  replace (c <? 0x10000) with true by (symmetry; apply N.ltb_lt; lia).
  reflexivity.
Qed.

Lemma encode_result s :
  if has_surrogate s then encode s = Error UnicodeEncodeError
  else exists data, encode s = Ok data.
Proof.
  unfold has_surrogate. induction s as [|c s IH]; simpl; [eauto|].
  destruct (is_surrogate c) eqn:Ec; simpl.
  - now rewrite (encode_char_surrogate c Ec).
  - destruct (encode_char c) as [b|e] eqn:E.
    + simpl. destruct (existsb is_surrogate s).
      * now rewrite IH.
      * destruct IH as [data ->]. simpl. eauto.
    + apply encode_char_error in E as [_ E]. congruence.
Qed.


(** *** Encoding, then decoding *)

Lemma to_N_byte_of_N n : n < 256 -> Byte.to_N (byte_of_N n) = n.
Proof.
  intros H. unfold byte_of_N. destruct (Byte.of_N n) as [b|] eqn:E.
  - now apply Byte.to_of_N.
  - apply Byte.of_N_None_iff in E. lia.
Qed.

Lemma shiftr_6 x : N.shiftr x 6 = x / 64.
Proof. now rewrite N.shiftr_div_pow2. Qed.

Lemma shiftr_12 x : N.shiftr x 12 = x / 64 / 64.
Proof.
  rewrite N.shiftr_div_pow2, N.Div0.div_div. reflexivity.
Qed.

Lemma shiftr_18 x : N.shiftr x 18 = x / 64 / 64 / 64.
Proof.
  rewrite N.shiftr_div_pow2, !N.Div0.div_div. reflexivity.
Qed.

Lemma land_63 x : N.land x 0x3F = x mod 64.
Proof. change 0x3F with (N.ones 6). now rewrite N.land_ones. Qed.

Lemma div_mod_64 x : x = 64 * (x / 64) + x mod 64 /\ x mod 64 < 64.
Proof.
  split; [apply N.div_mod; discriminate | apply N.mod_lt; discriminate].
Qed.

(** Decide the tests of the decoder from the bounds at hand. *)
Ltac decide_tests :=
  repeat match goal with
    | |- context [?a <? ?b] =>
      first [ replace (a <? b) with true by (symmetry; apply N.ltb_lt; lia)
            | replace (a <? b) with false by (symmetry; apply N.ltb_ge; lia) ]
    | |- context [?a <=? ?b] =>
      first [ replace (a <=? b) with true by (symmetry; apply N.leb_le; lia)
            | replace (a <=? b) with false by (symmetry; apply N.leb_gt; lia) ]
    | |- context [?a =? ?b] =>
      first [ replace (a =? b) with true by (symmetry; apply N.eqb_eq; lia)
            | replace (a =? b) with false by (symmetry; apply N.eqb_neq; lia) ]
    end.

Lemma decode_encode_char c errs final rest :
  scalar_value c = true ->
  exists bs, encode_char c = Ok bs
    /\ utf_8_decode errs final (bs ++ rest) = emit c (utf_8_decode errs final rest).
Proof.
  intros [Hc Hs]%scalar_value_spec. unfold encode_char, is_surrogate.
  destruct (div_mod_64 c) as [E1 R1]. set (q1 := c / 64) in *. set (r1 := c mod 64) in *.
  destruct (div_mod_64 q1) as [E2 R2]. set (q2 := q1 / 64) in *. set (r2 := q1 mod 64) in *.
  destruct (div_mod_64 q2) as [E3 R3]. set (q3 := q2 / 64) in *. set (r3 := q2 mod 64) in *.
  rewrite shiftr_6, shiftr_12, shiftr_18, !land_63.
  fold q1 r1. fold q2 r2. fold q3 r3.
  destruct (c <? 0x80) eqn:C1.
  { apply N.ltb_lt in C1. eexists. split; [reflexivity|].
    simpl. rewrite to_N_byte_of_N by lia. decide_tests. reflexivity. }
  apply N.ltb_ge in C1.
  destruct (c <? 0x800) eqn:C2.
  { apply N.ltb_lt in C2. eexists. split; [reflexivity|].
    rewrite (lor_low 0xC0 q1 6), (lor_low 0x80 r1 6)
      by (reflexivity || (pow2; lia)).
    simpl. rewrite !to_N_byte_of_N by lia.
    unfold is_continuation. decide_tests. simpl.
    f_equal. rewrite !N.shiftl_mul_pow2. pow2. lia. }
  apply N.ltb_ge in C2.
  destruct (c <? 0x10000) eqn:C3.
  { apply N.ltb_lt in C3.
    replace ((0xD800 <=? c) && (c <=? 0xDFFF)) with false
      by (symmetry; apply andb_false_iff; rewrite !N.leb_gt; lia).
    eexists. split; [reflexivity|].
    rewrite (lor_low 0xE0 q2 4), (lor_low 0x80 r2 6), (lor_low 0x80 r1 6)
      by (reflexivity || (pow2; lia)).
    simpl. rewrite !to_N_byte_of_N by lia.
    unfold is_continuation. decide_tests. simpl.
    destruct (r2 <? 32) eqn:M; [apply N.ltb_lt in M | apply N.ltb_ge in M].
    - replace (128 + r2 <? 160) with true by (symmetry; apply N.ltb_lt; lia).
      decide_tests. simpl. f_equal. rewrite !N.shiftl_mul_pow2. pow2. lia.
    - replace (128 + r2 <? 160) with false by (symmetry; apply N.ltb_ge; lia).
      decide_tests. simpl. f_equal. rewrite !N.shiftl_mul_pow2. pow2. lia. }
  apply N.ltb_ge in C3.
  eexists. split; [reflexivity|].
  rewrite (lor_low 0xF0 q3 4), (lor_low 0x80 r3 6), (lor_low 0x80 r2 6),
    (lor_low 0x80 r1 6) by (reflexivity || (pow2; lia)).
  simpl. rewrite !to_N_byte_of_N by lia.
  unfold is_continuation. decide_tests. simpl.
  destruct (r3 <? 16) eqn:M; [apply N.ltb_lt in M | apply N.ltb_ge in M].
  - replace (128 + r3 <? 144) with true by (symmetry; apply N.ltb_lt; lia).
    decide_tests. simpl. f_equal. rewrite !N.shiftl_mul_pow2.
    change (2 ^ 18) with 262144. pow2. lia.
  - replace (128 + r3 <? 144) with false by (symmetry; apply N.ltb_ge; lia).
    decide_tests. simpl. f_equal. rewrite !N.shiftl_mul_pow2.
    change (2 ^ 18) with 262144. pow2. lia.
Qed.

(** Encoding a text of scalar values and decoding it strictly gives the
    text back: what [str.encode] writes is valid UTF-8. *)
Lemma decode_encode s data errs final :
  Forall (fun c => scalar_value c = true) s -> encode s = Ok data ->
  utf_8_decode errs final data = Ok (s, []).
Proof.
  intros H. revert data. induction H as [|c s Hc _ IH]; intros data; simpl.
  - now intros [= <-].
  - destruct (decode_encode_char c errs final) with (rest := @nil byte)
      as (bs & Eb & _); [assumption|].
    rewrite Eb. simpl. destruct (encode s) as [bs'|] eqn:Es; [|discriminate].
    simpl. intros [= <-].
    destruct (decode_encode_char c errs final bs' Hc) as (bs2 & Eb2 & D).
    rewrite Eb in Eb2. injection Eb2 as <-. rewrite D, (IH bs' eq_refl).
    reflexivity.
Qed.


(** *** The incremental decoder *)

(** What a non-final call leaves undecoded is at most three bytes long. *)
Lemma pending_short_upto n errs :
  forall data t p, (List.length data <= n)%nat ->
    utf_8_decode errs false data = Ok (t, p) -> (List.length p <= 3)%nat.
Proof.
  induction n as [|n IH]; intros data t p Hlen.
  { destruct data; [|simpl in Hlen; lia]. simpl. intros [= <- <-]. simpl. lia. }
  destruct data as [|b0 r0]; [simpl; intros [= <- <-]; simpl; lia|].
  assert (step : forall c r, (List.length r <= n)%nat ->
    emit c (utf_8_decode errs false r) = Ok (t, p) -> (List.length p <= 3)%nat).
  { intros c r Hr (t' & -> & H)%emit_inv. exact (IH r t' p Hr H). }
  assert (bad : forall r, (List.length r <= n)%nat ->
    invalid errs (utf_8_decode errs false r) = Ok (t, p) ->
    (List.length p <= 3)%nat).
  { intros r Hr. unfold invalid. destruct errs; [discriminate|]. now apply step. }
  simpl in Hlen. simpl. unfold truncated.
  repeat match goal with
    | |- context [match ?l with [] => _ | _ :: _ => _ end] =>
      is_var l; destruct l; simpl in Hlen
    | |- context [if ?b then _ else _] => destruct b eqn:?
    | |- Ok _ = Ok _ -> _ =>
      intros [= <- <-]; simpl;
      first [ lia
            | exfalso;
              repeat match goal with
                | H : _ && _ = true |- _ => apply andb_true_iff in H as [? ?]
                end; discriminate ]
    | |- invalid _ _ = _ -> _ => apply bad; simpl; lia
    | |- emit _ _ = _ -> _ => apply step; simpl; lia
    end.
Qed.

Lemma pending_short errs data t p :
  utf_8_decode errs false data = Ok (t, p) -> (List.length p <= 3)%nat.
Proof. exact (pending_short_upto _ errs data t p (le_n _)). Qed.

(** One step of the decoder *)
Lemma utf_8_decode_cons errs final b0 r0 :
  utf_8_decode errs final (b0 :: r0)
  = ltac:(let body := eval cbn [utf_8_decode] in
            (utf_8_decode errs final (b0 :: r0)) in
          exact body).
Proof. reflexivity. Qed.

(** Unfold the decoder once in the goal and replay the tests already made. *)
Ltac unfold_goal G :=
  subst G; rewrite <- app_comm_cons, utf_8_decode_cons;
  cbn [List.app]; unfold invalid, truncated;
  repeat match goal with
    | E : ?c = true |- context [?c] => rewrite E
    | E : ?c = false |- context [?c] => rewrite E
    end; cbn [List.app negb andb orb].

Ltac by_step G step r :=
  let H := fresh "H" in
  intros H; unfold_goal G; apply (step _ r); [simpl; lia | exact H].

(** Decoding in two calls is decoding in one: the text of [x ++ y] is the
    text of [x] followed by the text of what [x] left pending and [y]. *)
Lemma decode_app_upto n :
  forall x y t p, (List.length x <= n)%nat ->
    utf_8_decode replace false x = Ok (t, p) ->
    utf_8_decode replace false (x ++ y)
    = ('(t', p') <- utf_8_decode replace false (p ++ y) ;; Ok (t ++ t', p')).
Proof.
  assert (stop : forall (d : bytes),
    utf_8_decode replace false d
    = ('(t', p') <- utf_8_decode replace false d ;; Ok ([] ++ t', p'))).
  { intros d. now destruct (utf_8_decode replace false d) as [[? ?]|]. }
  induction n as [|n IH]; intros x y t p Hlen.
  { destruct x; [|simpl in Hlen; lia]. simpl. intros [= <- <-]. apply stop. }
  destruct x as [|b0 r0]; [simpl; intros [= <- <-]; apply stop|].
  assert (step : forall c r, (List.length r <= n)%nat ->
    emit c (utf_8_decode replace false r) = Ok (t, p) ->
    emit c (utf_8_decode replace false (r ++ y))
    = ('(t', p') <- utf_8_decode replace false (p ++ y) ;; Ok (t ++ t', p'))).
  { intros c r Hr (t' & -> & H)%emit_inv. rewrite (IH r y t' p Hr H).
    now destruct (utf_8_decode replace false (p ++ y)) as [[? ?]|]. }
  simpl in Hlen.
  assert (halt : (t, p) = ([], b0 :: r0) ->
    utf_8_decode replace false ((b0 :: r0) ++ y)
    = ('(t', p') <- utf_8_decode replace false (p ++ y) ;; Ok (t ++ t', p'))).
  { intros [= -> ->]. apply stop. }
  remember (utf_8_decode replace false ((b0 :: r0) ++ y)) as G eqn:EG.
  simpl. unfold invalid, truncated.
  destruct (Byte.to_N b0 <? 0x80) eqn:E1; [by_step G step r0|].
  destruct (Byte.to_N b0 <? 0xC2) eqn:E2; [by_step G step r0|].
  destruct (Byte.to_N b0 <? 0xE0) eqn:E3.
  { destruct r0 as [|b1 r1]; [intros [= <- <-]; subst G; now apply halt|].
    simpl in Hlen.
    destruct (is_continuation (Byte.to_N b1)) eqn:C1;
      [by_step G step r1 | by_step G step (b1 :: r1)]. }
  destruct (Byte.to_N b0 <? 0xF0) eqn:E4.
  { destruct r0 as [|b1 r1]; [intros [= <- <-]; subst G; now apply halt|].
    simpl in Hlen.
    destruct (negb (is_continuation (Byte.to_N b1))
              || (if Byte.to_N b1 <? 160 then Byte.to_N b0 =? 224
                  else Byte.to_N b0 =? 237)) eqn:I1.
    - destruct (Byte.to_N b0 =? 237) eqn:K1; simpl;
        [|by_step G step (b1 :: r1)].
      destruct r1 as [|b2 r2]; simpl.
      + destruct ((160 <=? Byte.to_N b1) && (Byte.to_N b1 <=? 191)) eqn:K2.
        * intros [= <- <-]. subst G. now apply halt.
        * intros H. unfold_goal G.
          replace (is_nil y && (160 <=? Byte.to_N b1) && (Byte.to_N b1 <=? 191))
            with false
            by (rewrite <- andb_assoc, K2; now rewrite andb_false_r).
          refine (step REPLACEMENT [b1] _ H). simpl. lia.
      + simpl in Hlen. by_step G step (b1 :: b2 :: r2).
    - destruct r1 as [|b2 r2]; [intros [= <- <-]; subst G; now apply halt|].
      simpl in Hlen.
      destruct (is_continuation (Byte.to_N b2)) eqn:C2;
        [by_step G step r2 | by_step G step (b2 :: r2)]. }
  destruct (Byte.to_N b0 <? 0xF5) eqn:E5; [|by_step G step r0].
  destruct r0 as [|b1 r1]; [intros [= <- <-]; subst G; now apply halt|].
  simpl in Hlen.
  destruct (negb (is_continuation (Byte.to_N b1))
            || (if Byte.to_N b1 <? 144 then Byte.to_N b0 =? 240
                else Byte.to_N b0 =? 244)) eqn:I1;
    [by_step G step (b1 :: r1)|].
  destruct r1 as [|b2 r2]; [intros [= <- <-]; subst G; now apply halt|].
  simpl in Hlen.
  destruct (negb (is_continuation (Byte.to_N b2))) eqn:I2;
    [by_step G step (b2 :: r2)|].
  destruct r2 as [|b3 r3]; [intros [= <- <-]; subst G; now apply halt|].
  simpl in Hlen.
  destruct (is_continuation (Byte.to_N b3)) eqn:C3;
    [by_step G step r3 | by_step G step (b3 :: r3)].
Qed.

Lemma decode_app x y t p :
  utf_8_decode replace false x = Ok (t, p) ->
  utf_8_decode replace false (x ++ y)
  = ('(t', p') <- utf_8_decode replace false (p ++ y) ;; Ok (t ++ t', p')).
Proof. exact (decode_app_upto _ x y t p (le_n _)). Qed.

End Utf8More.

(** * Further facts about the JSON encoder *)

Module JsonMore.
Import Json JsonText JsonFacts.

#[local] Arguments is_digit : simpl never.
#[local] Arguments N.eqb !n !m : simpl nomatch.
#[local] Arguments N.leb !x !y : simpl nomatch.
#[local] Arguments N.ltb !x !y : simpl nomatch.

Lemma no_control_app a b :
  no_control (a ++ b) = no_control a && no_control b.
Proof. apply forallb_app. Qed.

Lemma no_control_digits ds :
  Forall (fun c => is_digit c = true) ds -> no_control ds = true.
Proof.
  induction 1 as [|c ds Hc _ IH]; [reflexivity|]. simpl. rewrite IH, andb_true_r.
  apply is_digit_spec in Hc. apply N.leb_le. lia.
Qed.

Lemma no_control_int z : no_control (int_repr z) = true.
Proof.
  destruct (int_repr_text z) as [|c ds Hc Hds|c ds Hc Hds]; simpl;
    rewrite ?(no_control_digits _ Hds), ?andb_true_r; try reflexivity;
    apply N.leb_le; lia.
Qed.

Lemma hex_char_printable n : n < 16 -> 0x20 <= hex_char n.
Proof. unfold hex_char. destruct (n <? 10); lia. Qed.

(** An escaped string holds no control character. *)
Lemma no_control_escape s : no_control (escape s) = true.
Proof.
  induction s as [|c s IH]; [reflexivity|]. simpl. unfold escape_char.
  repeat match goal with
    | |- context [if ?c =? ?k then _ else _] =>
      destruct (c =? k); [exact IH|]
    end.
  destruct (c <? 0x20) eqn:E.
  - apply N.ltb_lt in E. simpl. rewrite IH, andb_true_r.
    apply andb_true_iff. split; apply N.leb_le; apply hex_char_printable.
    + apply N.Div0.div_lt_upper_bound. lia.
    + apply N.mod_lt. discriminate.
  - apply N.ltb_ge in E. simpl. rewrite IH, andb_true_r. now apply N.leb_le.
Qed.

Lemma no_control_basestring s : no_control (encode_basestring s) = true.
Proof.
  unfold encode_basestring. simpl. now rewrite no_control_app, no_control_escape.
Qed.

Lemma span_digits_fst s : Forall (fun c => is_digit c = true) (fst (span_digits s)).
Proof.
  induction s as [|c s IH]; simpl; [constructor|].
  destruct (is_digit c) eqn:E; [|constructor].
  destruct (span_digits s). simpl in *. now constructor.
Qed.

(** A number token is made of digits, signs, a point and an exponent
    mark. *)
Lemma no_control_number s tok fl r :
  number_token s = Some (tok, fl, r) -> no_control tok = true.
Proof.
  unfold number_token.
  destruct (match_integer s) as [[i s2]|] eqn:Ei; [|discriminate].
  destruct (match_frac s2) as [frac s3] eqn:Ef.
  destruct (match_exp s3) as [exp s4] eqn:Ee.
  intros [= <- _ _]. rewrite !no_control_app.
  assert (Hi : no_control i = true).
  { unfold match_integer in Ei.
    assert (body : forall sign s1, no_control sign = true ->
      match s1 with
      | c :: r0 =>
        if (49 <=? c) && (c <=? 57)
        then let (ds, rest0) := span_digits r0 in Some (sign ++ c :: ds, rest0)
        else if c =? 48 then Some (sign ++ [c], r0) else None
      | [] => None
      end = Some (i, s2) -> no_control i = true).
    { intros sign [|c s1] Hsign; [discriminate|].
      destruct ((49 <=? c) && (c <=? 57)) eqn:E1.
      - pose proof (span_digits_fst s1) as Hd. destruct (span_digits s1).
        simpl in Hd. intros [= <- _]. rewrite no_control_app, Hsign. simpl.
        rewrite (no_control_digits _ Hd), andb_true_r.
        apply andb_true_iff in E1 as [E1 _]. apply N.leb_le in E1.
        apply N.leb_le. lia.
      - destruct (c =? 48) eqn:E2; [|discriminate]. intros [= <- _].
        rewrite no_control_app, Hsign. apply N.eqb_eq in E2. now subst. }
    destruct s as [|c s]; [discriminate|].
    destruct (c =? 45) eqn:E45.
    - apply N.eqb_eq in E45. subst c. now apply (body [45] s).
    - now apply (body [] (c :: s)). }
  assert (Hf : no_control frac = true).
  { unfold match_frac in Ef. destruct s2 as [|p [|d s2]]; try (now injection Ef as <- _).
    destruct ((p =? 46) && is_digit d) eqn:E; [|now injection Ef as <- _].
    pose proof (span_digits_fst (d :: s2)) as Hd. destruct (span_digits (d :: s2)).
    simpl fst in Hd. injection Ef as <- _. simpl. rewrite (no_control_digits _ Hd), andb_true_r.
    apply andb_true_iff in E as [E _]. apply N.eqb_eq in E. now subst. }
  assert (He : no_control exp = true).
  { unfold match_exp in Ee. destruct s3 as [|e s3]; [now injection Ee as <- _|].
    destruct ((e =? 101) || (e =? 69)) eqn:E; [|now injection Ee as <- _].
    assert (He : (0x20 <=? e) = true).
    { apply orb_true_iff in E as [E|E]; apply N.eqb_eq in E; now subst. }
    assert (tail : forall sign r1, no_control sign = true ->
      match span_digits r1 with
      | ([], _) => ([], e :: s3)
      | (ds, rest0) => (e :: sign ++ ds, rest0)
      end = (exp, s4) -> no_control exp = true).
    { intros sign r1 Hsign. pose proof (span_digits_fst r1) as Hd.
      destruct (span_digits r1) as [[|c ds] r0]; intros [= <- _]; [reflexivity|].
      simpl fst in Hd. simpl. rewrite He, no_control_app, Hsign.
      now rewrite (no_control_digits _ Hd). }
    destruct s3 as [|c s3]; [now apply (tail [] [])|].
    destruct ((c =? 45) || (c =? 43)) eqn:Ec.
    - apply (tail [c] s3); [|assumption]. simpl. rewrite andb_true_r.
      apply orb_true_iff in Ec as [Ec|Ec]; apply N.eqb_eq in Ec; now subst.
    - now apply (tail [] (c :: s3)). }
  now rewrite Hi, Hf, He.
Qed.

Section WithFloats.
Context {FM : FloatModel} {FL : FloatLaws FM}.

Lemma no_control_float f : no_control (floatstr f) = true.
Proof.
  destruct f as [|[|]|x]; try reflexivity.
  simpl. exact (no_control_number _ _ _ _ (float_repr_token x)).
Qed.

End WithFloats.
End JsonMore.

(** * Code points through the parser *)

Module JsonCodePoints.
Import Json JsonText JsonFacts JsonFuel.

#[local] Arguments is_digit : simpl never.
#[local] Arguments hex4 : simpl never.
#[local] Arguments N.sub : simpl never.
#[local] Arguments N.add : simpl never.
#[local] Arguments N.lor : simpl never.
#[local] Arguments N.shiftl : simpl never.
#[local] Arguments N.eqb !n !m : simpl nomatch.
#[local] Arguments N.leb !x !y : simpl nomatch.
#[local] Arguments N.ltb !x !y : simpl nomatch.

Lemma code_points_cons c s :
  code_points (c :: s) = true <-> c < 0x110000 /\ code_points s = true.
Proof. simpl. now rewrite andb_true_iff, N.ltb_lt. Qed.

Lemma code_points_skip_ws s : code_points s = true -> code_points (skip_ws s) = true.
Proof.
  induction s as [|c s IH]; [auto|]. intros H. simpl.
  destruct (is_ws c); [|exact H]. apply IH. now apply code_points_cons in H.
Qed.

Lemma hex_digit_bound c d : hex_digit c = Some d -> d < 16.
Proof.
  unfold hex_digit.
  destruct ((48 <=? c) && (c <=? 57)) eqn:E1.
  { apply andb_true_iff in E1 as [A B]. apply N.leb_le in A, B.
    intros [= <-]. lia. }
  destruct ((97 <=? c) && (c <=? 102)) eqn:E2.
  { apply andb_true_iff in E2 as [A B]. apply N.leb_le in A, B.
    intros [= <-]. lia. }
  destruct ((65 <=? c) && (c <=? 70)) eqn:E3; [|discriminate].
  apply andb_true_iff in E3 as [A B]. apply N.leb_le in A, B.
  intros [= <-]. lia.
Qed.

Lemma hex4_bound a b c d u : hex4 a b c d = Some u -> u < 0x10000.
Proof.
  unfold hex4.
  destruct (hex_digit a) as [x|] eqn:Ea; [|discriminate].
  destruct (hex_digit b) as [y|] eqn:Eb; [|discriminate].
  destruct (hex_digit c) as [z|] eqn:Ec; [|discriminate].
  destruct (hex_digit d) as [w|] eqn:Ed; [|discriminate].
  apply hex_digit_bound in Ea, Eb, Ec, Ed. intros [= <-]. lia.
Qed.

Lemma backslash_bound e ch : backslash e = Some ch -> ch < 0x110000.
Proof.
  unfold backslash.
  repeat match goal with
    | |- context [if ?c then _ else _] => destruct c; [intros [= <-]; lia|]
    end.
  discriminate.
Qed.

Lemma surrogate_pair_bound u u2 :
  u <= 0xDBFF -> 0xDC00 <= u2 <= 0xDFFF ->
  0x10000 + N.lor (N.shiftl (u - 0xD800) 10) (u2 - 0xDC00) < 0x110000.
Proof.
  intros Hu Hu2. rewrite N.shiftl_mul_pow2.
  rewrite (Utf8Facts.lor_low _ _ 10).
  - change (2 ^ 10) with 1024. lia.
  - apply N.Div0.mod_mul.
  - change (2 ^ 10) with 1024. lia.
Qed.

(** The text of a JSON string and what follows it hold code points when
    the input does. *)
Lemma scanstring_code_points_upto n :
  forall s x rest, (List.length s <= n)%nat -> code_points s = true ->
    scanstring s = Ok (x, rest) ->
    code_points x = true /\ code_points rest = true.
Proof.
  induction n as [|n IH]; intros s x rest Hlen Hs.
  { destruct s; [|simpl in Hlen; lia]. discriminate. }
  destruct s as [|c r]; [discriminate|].
  assert (step : forall ch r', (List.length r' <= n)%nat ->
    ch < 0x110000 -> code_points r' = true ->
    push ch (scanstring r') = Ok (x, rest) ->
    code_points x = true /\ code_points rest = true).
  { intros ch r' Hr Hch Hr' (x' & -> & E)%push_inv.
    destruct (IH r' x' rest Hr Hr' E) as [A B]. split; [|exact B].
    apply code_points_cons. auto. }
  simpl in Hlen. apply code_points_cons in Hs as [Hc Hr]. simpl scanstring.
  destruct (c =? 34); [intros [= <- <-]; auto|].
  destruct (c =? 92); [|destruct (c <? 32); [discriminate|apply step; auto; lia]].
  destruct r as [|e r1]; [discriminate|]. simpl in Hlen.
  apply code_points_cons in Hr as [He Hr1].
  destruct (e =? 117).
  2:{ destruct (backslash e) as [ch|] eqn:B; [|discriminate].
      apply step; [lia|exact (backslash_bound _ _ B)|exact Hr1]. }
  destruct r1 as [|h1 [|h2 [|h3 [|h4 r2]]]]; try discriminate. simpl in Hlen.
  assert (Hr2 : code_points r2 = true).
  { repeat (apply code_points_cons in Hr1 as [_ Hr1]). exact Hr1. }
  destruct (hex4 h1 h2 h3 h4) as [uni|] eqn:Hx; [|discriminate].
  pose proof (hex4_bound _ _ _ _ _ Hx) as Hu.
  destruct ((0xD800 <=? uni) && (uni <=? 0xDBFF)) eqn:Hi;
    [|apply step; auto; lia].
  apply andb_true_iff in Hi as [_ Hi]. apply N.leb_le in Hi.
  destruct r2 as [|b [|u [|k1 [|k2 [|k3 [|k4 r3]]]]]];
    try (apply step; auto; simpl in *; lia).
  destruct ((b =? 92) && (u =? 117)); [|apply step; auto; simpl in *; lia].
  destruct (hex4 k1 k2 k3 k4) as [uni2|]; [|discriminate].
  destruct ((0xDC00 <=? uni2) && (uni2 <=? 0xDFFF)) eqn:Lo;
    [|apply step; auto; simpl in *; lia].
  apply andb_true_iff in Lo as [L1 L2]. apply N.leb_le in L1, L2.
  apply step; [simpl in *; lia| |].
  - apply surrogate_pair_bound; lia.
  - repeat (apply code_points_cons in Hr2 as [_ Hr2]). exact Hr2.
Qed.

Lemma scanstring_code_points s x rest :
  code_points s = true -> scanstring s = Ok (x, rest) ->
  code_points x = true /\ code_points rest = true.
Proof. exact (scanstring_code_points_upto _ s x rest (le_n _)). Qed.

Lemma code_points_span_digits s :
  code_points s = true -> code_points (snd (span_digits s)) = true.
Proof.
  induction s as [|c s IH]; [auto|]. intros H. simpl.
  destruct (is_digit c); [|exact H].
  apply code_points_cons in H as [_ H]. specialize (IH H).
  now destruct (span_digits s).
Qed.

Lemma code_points_strip_prefix p s r :
  strip_prefix p s = Some r -> code_points s = true -> code_points r = true.
Proof.
  revert s. induction p as [|a p IH]; intros s; simpl.
  - now intros [= ->].
  - destruct s as [|b s]; [discriminate|]. destruct (a =? b); [|discriminate].
    intros H Hs. apply code_points_cons in Hs as [_ Hs]. eauto.
Qed.

Section WithFloats.
Context {FM : FloatModel}.

Lemma code_points_match_number s v r :
  code_points s = true -> match_number s = Ok (v, r) ->
  top_string_ok v = true /\ code_points r = true.
Proof.
  intros Hs. unfold match_number, number_token.
  destruct (match_integer s) as [[i s2]|] eqn:Ei; [|discriminate].
  assert (H2 : code_points s2 = true).
  { unfold match_integer in Ei.
    assert (body : forall sign s1, code_points s1 = true ->
      match s1 with
      | c :: r0 =>
        if (49 <=? c) && (c <=? 57)
        then let (ds, rest0) := span_digits r0 in Some (sign ++ c :: ds, rest0)
        else if c =? 48 then Some (sign ++ [c], r0) else None
      | [] => None
      end = Some (i, s2) -> code_points s2 = true).
    { intros sign [|c s1] H1; [discriminate|].
      apply code_points_cons in H1 as [_ H1].
      destruct ((49 <=? c) && (c <=? 57)).
      - pose proof (code_points_span_digits s1 H1) as Hd.
        destruct (span_digits s1). now intros [= _ <-].
      - destruct (c =? 48); [|discriminate]. now intros [= _ <-]. }
    destruct s as [|c s]; [discriminate|].
    destruct (c =? 45).
    - apply (body [c] s); [|exact Ei]. now apply code_points_cons in Hs.
    - now apply (body [] (c :: s)). }
  assert (H3 : code_points (snd (match_frac s2)) = true).
  { unfold match_frac. destruct s2 as [|p [|d s2]]; try exact H2.
    destruct ((p =? 46) && is_digit d); [|exact H2].
    apply code_points_cons in H2 as [_ H2].
    pose proof (code_points_span_digits (d :: s2) H2).
    now destruct (span_digits (d :: s2)). }
  destruct (match_frac s2) as [frac s3]. simpl in H3.
  assert (H4 : code_points (snd (match_exp s3)) = true).
  { unfold match_exp. destruct s3 as [|e s3]; [exact H3|].
    destruct ((e =? 101) || (e =? 69)); [|exact H3].
    assert (tail : forall sign r1, code_points r1 = true ->
      code_points (snd match span_digits r1 with
                       | ([], _) => ([], e :: s3)
                       | (ds, rest0) => (e :: sign ++ ds, rest0)
                       end) = true).
    { intros sign r1 Hr. pose proof (code_points_span_digits r1 Hr).
      destruct (span_digits r1) as [[|c ds] r0]; [exact H3|assumption]. }
    pose proof H3 as H3'. apply code_points_cons in H3' as [_ H3'].
    destruct s3 as [|c s3]; [now apply (tail [] [])|].
    destruct ((c =? 45) || (c =? 43)).
    - apply (tail [c] s3). now apply code_points_cons in H3'.
    - now apply (tail [] (c :: s3)). }
  destruct (match_exp s3) as [exp s4]. simpl in H4.
  destruct (negb _); intros [= <- <-]; auto.
Qed.

Lemma code_points_constant s v r :
  code_points s = true -> constant s = Some (v, r) ->
  top_string_ok v = true /\ code_points r = true.
Proof.
  intros Hs. unfold constant.
  repeat match goal with
    | |- context [strip_prefix ?p s] =>
      let E := fresh "E" in
      destruct (strip_prefix p s) eqn:E;
        [intros [= <- <-]; split; [reflexivity|];
         exact (code_points_strip_prefix _ _ _ E Hs)|]
    end.
  discriminate.
Qed.

Lemma scanned_error {A} (P : A -> Prop) e : scanned P (Error e).
Proof. intros v r. discriminate. Qed.

Lemma scanned_ok {A} (P : A -> Prop) v r :
  P v -> code_points r = true -> scanned P (Ok (v, r)).
Proof. intros Hv Hr v' r' [= <- <-]. auto. Qed.

Lemma scanned_bind {A B} (P : A -> Prop) (Q : B -> Prop)
    (X : result (A * str)) (k : A * str -> result (B * str)) :
  scanned P X ->
  (forall v r, P v -> code_points r = true -> scanned Q (k (v, r))) ->
  scanned Q (bind X k).
Proof.
  intros HX Hk. destruct X as [[v r]|e]; simpl; [|apply scanned_error].
  destruct (HX v r eq_refl). now apply Hk.
Qed.

Lemma scan_code_points f :
  (forall s, code_points s = true ->
     scanned (fun v => top_string_ok v = true) (scan_once f s)) /\
  (forall s, code_points s = true ->
     scanned (fun _ : list (str * value) => True) (JSONObject f s)) /\
  (forall s, code_points s = true ->
     scanned (Forall (fun v => top_string_ok v = true)) (JSONArray f s)).
Proof.
  induction f as [|f (IHs & IHo & IHa)].
  { split; [|split]; intros s Hs; apply scanned_error. }
  split; [|split]; intros s Hs.
  - simpl scan_once. destruct s as [|c r]; [apply scanned_error|].
    pose proof Hs as Hr. apply code_points_cons in Hr as [_ Hr].
    destruct (c =? 34).
    { apply (scanned_bind (fun x => code_points x = true)).
      - intros x rest E. exact (scanstring_code_points _ _ _ Hr E).
      - intros x rest Hx Hrest. now apply scanned_ok. }
    pose proof (code_points_skip_ws r Hr) as Hw.
    destruct (c =? 123).
    { destruct (skip_ws r) as [|c' r']; [apply scanned_error|].
      destruct (c' =? 125).
      - apply scanned_ok; [reflexivity|]. now apply code_points_cons in Hw.
      - apply (scanned_bind (fun _ => True)); [now apply IHo|].
        intros pairs rest _ Hrest. now apply scanned_ok. }
    destruct (c =? 91).
    { destruct (skip_ws r) as [|c' r']; [apply scanned_error|].
      destruct (c' =? 93).
      - apply scanned_ok; [reflexivity|]. now apply code_points_cons in Hw.
      - apply (scanned_bind (Forall (fun v => top_string_ok v = true)));
          [now apply IHa|].
        intros vs rest _ Hrest. now apply scanned_ok. }
    destruct (constant (c :: r)) as [[v r']|] eqn:E.
    + destruct (code_points_constant _ _ _ Hs E). now apply scanned_ok.
    + intros v r' E'. exact (code_points_match_number _ _ _ Hs E').
  - simpl JSONObject. destruct s as [|c r]; [apply scanned_error|].
    apply code_points_cons in Hs as [_ Hr].
    destruct (c =? 34); [|apply scanned_error].
    apply (scanned_bind (fun x => code_points x = true)).
    { intros x rest E. exact (scanstring_code_points _ _ _ Hr E). }
    intros key r1 _ Hr1. pose proof (code_points_skip_ws r1 Hr1) as Hw1.
    destruct (skip_ws r1) as [|c2 r2]; [apply scanned_error|].
    apply code_points_cons in Hw1 as [_ Hr2].
    destruct (c2 =? 58); [|apply scanned_error].
    apply (scanned_bind (fun v => top_string_ok v = true)).
    { apply IHs. now apply code_points_skip_ws. }
    intros v r3 _ Hr3. pose proof (code_points_skip_ws r3 Hr3) as Hw3.
    destruct (skip_ws r3) as [|c4 r4]; [apply scanned_error|].
    apply code_points_cons in Hw3 as [_ Hr4].
    destruct (c4 =? 125); [now apply scanned_ok|].
    destruct (c4 =? 44); [|apply scanned_error].
    apply (scanned_bind (fun _ => True)).
    { apply IHo. now apply code_points_skip_ws. }
    intros pairs rest _ Hrest. now apply scanned_ok.
  - simpl JSONArray.
    apply (scanned_bind (fun v => top_string_ok v = true)); [now apply IHs|].
    intros v r1 Hv Hr1. pose proof (code_points_skip_ws r1 Hr1) as Hw1.
    destruct (skip_ws r1) as [|c2 r2]; [apply scanned_error|].
    apply code_points_cons in Hw1 as [_ Hr2].
    destruct (c2 =? 93); [apply scanned_ok; auto|].
    destruct (c2 =? 44); [|apply scanned_error].
    apply (scanned_bind (Forall (fun v => top_string_ok v = true))).
    { apply IHa. now apply code_points_skip_ws. }
    intros vs rest Hvs Hrest. apply scanned_ok; auto.
Qed.

(** The strings of a parsed array hold code points when the line does. *)
Lemma loads_list_code_points line l :
  code_points line = true -> loads line = Ok (VList l) ->
  Forall (fun v => top_string_ok v = true) l.
Proof.
  intros Hl. unfold loads. destruct (starts_with_bom line); [discriminate|].
  set (f := S (2 * List.length line)).
  pose proof (code_points_skip_ws line Hl) as Hw.
  destruct (skip_ws line) as [|c r] eqn:Es; [discriminate|].
  pose proof Hw as Hr. apply code_points_cons in Hr as [_ Hr].
  unfold f. simpl scan_once. fold f.
  destruct (c =? 34).
  { destruct (scanstring r) as [[x rest]|]; simpl; [|discriminate].
    destruct (skip_ws rest); discriminate. }
  destruct (c =? 123).
  { destruct (skip_ws r) as [|c' r']; [discriminate|].
    destruct (c' =? 125); simpl.
    - destruct (skip_ws r'); discriminate.
    - destruct (JSONObject _ _) as [[pairs rest]|]; simpl; [|discriminate].
      destruct (skip_ws rest); discriminate. }
  destruct (c =? 91).
  { pose proof (code_points_skip_ws r Hr) as Hw'.
    destruct (skip_ws r) as [|c' r']; [discriminate|].
    destruct (c' =? 93); simpl.
    - destruct (skip_ws r'); [|discriminate]. intros [= <-]. constructor.
    - destruct (JSONArray _ (c' :: r')) as [[vs rest]|] eqn:E; simpl;
        [|discriminate].
      destruct (skip_ws rest); [|discriminate]. intros [= <-].
      exact (proj1 (proj2 (proj2 (scan_code_points _)) _ Hw' _ _ E)). }
  destruct (constant (c :: r)) as [[v r']|] eqn:E; simpl.
  - destruct (skip_ws r'); [|discriminate]. intros [= ->].
    unfold constant in E.
    repeat match type of E with
      | context [strip_prefix ?p ?s] => destruct (strip_prefix p s); [discriminate|]
      end.
    discriminate.
  - unfold match_number. destruct (number_token (c :: r)) as [[[tok [|]] rest]|];
      simpl; try discriminate; destruct (skip_ws rest); discriminate.
Qed.

End WithFloats.
End JsonCodePoints.

(** * What follows a value *)

Module JsonSuffix.
Import Json JsonText JsonFacts JsonFuel.

#[local] Arguments is_digit : simpl never.
#[local] Arguments hex4 : simpl never.
#[local] Arguments N.sub : simpl never.
#[local] Arguments N.add : simpl never.
#[local] Arguments N.lor : simpl never.
#[local] Arguments N.shiftl : simpl never.
#[local] Arguments N.eqb !n !m : simpl nomatch.
#[local] Arguments N.leb !x !y : simpl nomatch.
#[local] Arguments N.ltb !x !y : simpl nomatch.

Lemma skip_ws_app s w : skip_ws s <> [] -> skip_ws (s ++ w) = skip_ws s ++ w.
Proof.
  induction s as [|c s IH]; [now intros []|]. simpl.
  destruct (is_ws c); [exact IH|reflexivity].
Qed.

Lemma skip_ws_app_cons s w c r :
  skip_ws s = c :: r -> skip_ws (s ++ w) = c :: r ++ w.
Proof. intros H. rewrite skip_ws_app; now rewrite H. Qed.

Lemma skip_ws_all w : forallb is_ws w = true -> skip_ws w = [].
Proof.
  induction w as [|c w IH]; [reflexivity|]. simpl.
  intros [-> H]%andb_true_iff. auto.
Qed.

Lemma skip_ws_blank_app s w :
  skip_ws s = [] -> forallb is_ws w = true -> skip_ws (s ++ w) = [].
Proof.
  induction s as [|c s IH]; simpl; [intros _; apply skip_ws_all|].
  destruct (is_ws c); [exact IH|discriminate].
Qed.

Lemma skip_ws_blank_prefix w s : forallb is_ws w = true -> skip_ws (w ++ s) = skip_ws s.
Proof.
  induction w as [|c w IH]; [reflexivity|]. simpl.
  intros [-> H]%andb_true_iff. auto.
Qed.

Lemma strip_prefix_app p s r w :
  strip_prefix p s = Some r -> strip_prefix p (s ++ w) = Some (r ++ w).
Proof.
  revert s. induction p as [|a p IH]; intros s; simpl.
  - now intros [= <-].
  - destruct s as [|b s]; [discriminate|]. simpl.
    destruct (a =? b); [apply IH|discriminate].
Qed.

Lemma scanstring_nil : scanstring [] = Error (JSONDecodeError UnterminatedString).
Proof. reflexivity. Qed.

(** One step of [scanstring] *)
Lemma scanstring_cons c r :
  scanstring (c :: r) =
  ltac:(let t := eval cbv beta iota delta [scanstring] in (scanstring (c :: r)) in
        let t := eval cbv beta iota in t in
        exact t).
Proof. reflexivity. Qed.

Lemma scanstring_app_upto n (w : str) :
  forall s x r, (List.length s <= n)%nat ->
    scanstring s = Ok (x, r) -> scanstring (s ++ w) = Ok (x, r ++ w).
Proof.
  induction n as [|n IH]; intros s x r Hlen.
  { destruct s; [|simpl in Hlen; lia]. discriminate. }
  destruct s as [|c r0]; [discriminate|]. simpl in Hlen.
  assert (step : forall ch r', (List.length r' <= n)%nat ->
    push ch (scanstring r') = Ok (x, r) ->
    push ch (scanstring (r' ++ w)) = Ok (x, r ++ w)).
  { intros ch r' Hr (x' & -> & E)%push_inv.
    now rewrite (IH r' x' r Hr E). }
  cbn [List.app]. rewrite !scanstring_cons. fold scanstring.
  destruct (c =? 34); [now intros [= <- <-]|].
  destruct (c =? 92); [|destruct (c <? 32); [discriminate|apply step; lia]].
  destruct r0 as [|e r1]; [discriminate|]. simpl in Hlen. cbn [List.app].
  destruct (e =? 117).
  2:{ destruct (backslash e) as [ch|]; [|discriminate]. apply step; lia. }
  destruct r1 as [|h1 [|h2 [|h3 [|h4 r2]]]]; try discriminate.
  simpl in Hlen. cbn [List.app].
  destruct (hex4 h1 h2 h3 h4) as [uni|]; [|discriminate].
  destruct ((0xD800 <=? uni) && (uni <=? 0xDBFF)); [|apply step; lia].
  (* a high surrogate: the six characters that follow are looked at *)
  destruct r2 as [|b [|u [|k1 [|k2 [|k3 [|k4 r3]]]]]]; [discriminate| | | | | |].
  6:{ cbn [List.app].
      destruct ((b =? 92) && (u =? 117)); [|apply step; simpl in *; lia].
      destruct (hex4 k1 k2 k3 k4) as [uni2|]; [|discriminate].
      destruct ((0xDC00 <=? uni2) && (uni2 <=? 0xDFFF));
        apply step; simpl in *; lia. }
  all: intros H;
    match type of H with
    | push ?ch (scanstring ?r2) = _ =>
      pose proof (step ch r2 ltac:(simpl in *; lia) H) as S
    end;
    destruct w as [|w1 [|w2 [|w3 [|w4 [|w5 w6]]]]]; cbn [List.app] in S |- *;
    first
      [ exact S
      | match goal with
        | |- context [(?b =? 92) && (?u =? 117)] =>
          destruct (b =? 92) eqn:Eb;
            [apply N.eqb_eq in Eb; subst b|exact S];
          destruct (u =? 117) eqn:Eu;
            [apply N.eqb_eq in Eu; subst u|exact S];
          exfalso; clear -H; rewrite ?scanstring_cons in H; simpl in H;
          discriminate H
        end ].
Qed.

Lemma scanstring_app (w s x r : str) :
  scanstring s = Ok (x, r) -> scanstring (s ++ w) = Ok (x, r ++ w).
Proof. exact (scanstring_app_upto _ w s x r (le_n _)). Qed.

Section WithFloats.
Context {FM : FloatModel}.

Lemma strip_prefix_cons a p b s :
  strip_prefix (a :: p) (b :: s) = if a =? b then strip_prefix p s else None.
Proof. reflexivity. Qed.

Lemma constant_app s v r w :
  constant s = Some (v, r) -> constant (s ++ w) = Some (v, r ++ w).
Proof.
  destruct s as [|c t]; [discriminate|].
  unfold constant.
  repeat match goal with
  | |- context [lit ?x] =>
    let y := eval vm_compute in (lit x) in change (lit x) with y
  end.
  cbn [List.app]. rewrite !strip_prefix_cons.
  repeat match goal with
  | |- context [N.eqb ?a c] =>
    let E := fresh "E" in
    destruct (N.eqb a c) eqn:E;
    [ apply N.eqb_eq in E; subst c; cbn [N.eqb Pos.eqb];
      match goal with
      | |- context [strip_prefix ?p t] =>
        let E' := fresh "E" in
        destruct (strip_prefix p t) eqn:E';
        [ rewrite (strip_prefix_app _ _ _ w E'); now intros [= <- <-]
        | discriminate ]
      end
    | ]
  end.
  discriminate.
Qed.

Lemma match_number_app s v r w :
  ends_number w = true -> match_number s = Ok (v, r) ->
  match_number (s ++ w) = Ok (v, r ++ w).
Proof.
  intros Hw. unfold match_number.
  destruct (number_token s) as [[[tok fl] rest]|] eqn:E; [|discriminate].
  rewrite (number_token_app _ _ _ _ _ Hw E).
  destruct fl; now intros [= <- <-].
Qed.

Lemma scan_once_nil f : forall v r, scan_once f [] <> Ok (v, r).
Proof. destruct f; discriminate. Qed.

Lemma JSONObject_nil f : forall v r, JSONObject f [] <> Ok (v, r).
Proof. destruct f; discriminate. Qed.

Lemma JSONArray_nil f : forall v r, JSONArray f [] <> Ok (v, r).
Proof. destruct f as [|[|f]]; discriminate. Qed.

(** A number is none of the constants. *)
Lemma constant_number s x : number_token s = Some x -> constant s = None.
Proof.
  intros H. destruct (number_token_starts _ _ H) as (c & t & -> & Hc).
  assert (Hr : 48 <= c <= 57
               \/ c = 45 /\ exists d t', t = d :: t' /\ 48 <= d <= 57).
  { destruct Hc as [Hc|(-> & d & t' & -> & Hd)].
    - left. now apply digit_bounds.
    - right. split; [reflexivity|]. exists d, t'. split; [reflexivity|].
      now apply digit_bounds. }
  clear Hc H. unfold constant.
  repeat match goal with
  | |- context [lit ?x] =>
    let y := eval vm_compute in (lit x) in change (lit x) with y
  end.
  rewrite !strip_prefix_cons.
  destruct Hr as [Hc|(-> & d & t' & -> & Hd)].
  - repeat match goal with
      | |- context [?a =? c] =>
        replace (a =? c) with false by (symmetry; apply N.eqb_neq; lia)
      end. reflexivity.
  - cbn [N.eqb Pos.eqb]. rewrite !strip_prefix_cons.
    replace (73 =? d) with false by (symmetry; apply N.eqb_neq; lia).
    reflexivity.
Qed.

(** A value is scanned alike, with as much fuel or more, when [w] is put
    after the text. *)
Lemma scan_suffix (w : str) (Hw : ends_number w = true) f :
  (forall s v r f', scan_once f s = Ok (v, r) -> (f <= f')%nat ->
     scan_once f' (s ++ w) = Ok (v, r ++ w)) /\
  (forall s v r f', JSONObject f s = Ok (v, r) -> (f <= f')%nat ->
     JSONObject f' (s ++ w) = Ok (v, r ++ w)) /\
  (forall s v r f', JSONArray f s = Ok (v, r) -> (f <= f')%nat ->
     JSONArray f' (s ++ w) = Ok (v, r ++ w)).
Proof.
  induction f as [|f (IHs & IHo & IHa)].
  { split; [|split]; discriminate. }
  assert (IHs' : forall s v r f', scan_once f (skip_ws s) = Ok (v, r) ->
    (f <= f')%nat -> scan_once f' (skip_ws (s ++ w)) = Ok (v, r ++ w)).
  { intros s v r f' H Hf. rewrite skip_ws_app; [now apply IHs|].
    intros E. rewrite E in H. exact (scan_once_nil _ _ _ H). }
  assert (IHo' : forall s v r f', JSONObject f (skip_ws s) = Ok (v, r) ->
    (f <= f')%nat -> JSONObject f' (skip_ws (s ++ w)) = Ok (v, r ++ w)).
  { intros s v r f' H Hf. rewrite skip_ws_app; [now apply IHo|].
    intros E. rewrite E in H. exact (JSONObject_nil _ _ _ H). }
  assert (IHa' : forall s v r f', JSONArray f (skip_ws s) = Ok (v, r) ->
    (f <= f')%nat -> JSONArray f' (skip_ws (s ++ w)) = Ok (v, r ++ w)).
  { intros s v r f' H Hf. rewrite skip_ws_app; [now apply IHa|].
    intros E. rewrite E in H. exact (JSONArray_nil _ _ _ H). }
  split; [|split]; intros s v r [|f'] H Hf; try lia;
    apply le_S_n in Hf; revert H.
  - destruct s as [|c r0]; [discriminate|].
    cbn [List.app]. simpl scan_once.
    destruct (c =? 34).
    { destruct (scanstring r0) as [[x rest]|] eqn:E; [|discriminate].
      rewrite (scanstring_app w _ _ _ E). simpl. now intros [= <- <-]. }
    destruct (c =? 123).
    { destruct (skip_ws r0) as [|c' r'] eqn:E; [discriminate|].
      rewrite (skip_ws_app_cons _ w _ _ E).
      destruct (c' =? 125); [now intros [= <- <-]|].
      destruct (JSONObject f (c' :: r')) as [[pairs rest]|] eqn:EO;
        [|discriminate].
      change (c' :: r' ++ w) with ((c' :: r') ++ w).
      rewrite (IHo _ _ _ f' EO Hf). simpl. now intros [= <- <-]. }
    destruct (c =? 91).
    { destruct (skip_ws r0) as [|c' r'] eqn:E; [discriminate|].
      rewrite (skip_ws_app_cons _ w _ _ E).
      destruct (c' =? 93); [now intros [= <- <-]|].
      destruct (JSONArray f (c' :: r')) as [[vs rest]|] eqn:EA;
        [|discriminate].
      change (c' :: r' ++ w) with ((c' :: r') ++ w).
      rewrite (IHa _ _ _ f' EA Hf). simpl. now intros [= <- <-]. }
    change (c :: r0 ++ w) with ((c :: r0) ++ w).
    destruct (constant (c :: r0)) as [[v0 r1]|] eqn:K.
    + rewrite (constant_app _ _ _ w K). now intros [= <- <-].
    + intros H. pose proof H as H'. unfold match_number in H'.
      destruct (number_token (c :: r0)) as [[[tok fl] rest]|] eqn:E;
        [|discriminate].
      rewrite (constant_number _ _ (number_token_app _ _ _ _ _ Hw E)).
      now apply match_number_app.
  - destruct s as [|c r0]; [discriminate|].
    cbn [List.app]. simpl JSONObject.
    destruct (c =? 34); [|discriminate].
    destruct (scanstring r0) as [[key r1]|] eqn:E; [|discriminate].
    rewrite (scanstring_app w _ _ _ E). cbn [bind].
    destruct (skip_ws r1) as [|c2 r2] eqn:E1; [discriminate|].
    rewrite (skip_ws_app_cons _ w _ _ E1).
    destruct (c2 =? 58); [|discriminate].
    destruct (scan_once f (skip_ws r2)) as [[v1 r3]|] eqn:E2; [|discriminate].
    rewrite (IHs' _ _ _ f' E2 Hf). cbn [bind].
    destruct (skip_ws r3) as [|c4 r4] eqn:E3; [discriminate|].
    rewrite (skip_ws_app_cons _ w _ _ E3).
    destruct (c4 =? 125); [now intros [= <- <-]|].
    destruct (c4 =? 44); [|discriminate].
    destruct (JSONObject f (skip_ws r4)) as [[pairs rest]|] eqn:E4;
      [|discriminate].
    rewrite (IHo' _ _ _ f' E4 Hf). cbn [bind]. now intros [= <- <-].
  - simpl JSONArray.
    destruct (scan_once f s) as [[v1 r1]|] eqn:E; [|discriminate].
    rewrite (IHs _ _ _ f' E Hf). cbn [bind].
    destruct (skip_ws r1) as [|c2 r2] eqn:E1; [discriminate|].
    rewrite (skip_ws_app_cons _ w _ _ E1).
    destruct (c2 =? 93); [now intros [= <- <-]|].
    destruct (c2 =? 44); [|discriminate].
    destruct (JSONArray f (skip_ws r2)) as [[vs rest]|] eqn:E2; [|discriminate].
    rewrite (IHa' _ _ _ f' E2 Hf). cbn [bind]. now intros [= <- <-].
Qed.

Lemma ends_number_blank w : forallb is_ws w = true -> ends_number w = true.
Proof.
  destruct w as [|c w]; [reflexivity|]. simpl.
  intros [H _]%andb_true_iff. unfold is_ws in H.
  repeat (apply orb_true_iff in H as [H|H]); apply N.eqb_eq in H; subst c;
    reflexivity.
Qed.

Lemma starts_with_bom_blank w s :
  forallb is_ws w = true -> w <> [] -> starts_with_bom (w ++ s) = false.
Proof.
  destruct w as [|c w]; [now intros _ []|]. simpl.
  intros [H _]%andb_true_iff _. unfold is_ws in H.
  repeat (apply orb_true_iff in H as [H|H]); apply N.eqb_eq in H; subst c;
    reflexivity.
Qed.

(** [json.loads] reads a text that has whitespace before and after it as
    it reads the text. *)
Lemma loads_surrounded line v w1 w2 :
  forallb is_ws w1 = true -> forallb is_ws w2 = true ->
  loads line = Ok v -> loads (w1 ++ line ++ w2) = Ok v.
Proof.
  intros H1 H2. unfold loads.
  destruct (starts_with_bom line) eqn:B; [discriminate|].
  destruct (scan_once (S (2 * List.length line)) (skip_ws line))
    as [[v' rest]|] eqn:E; [|discriminate]. cbn [bind].
  destruct (skip_ws rest) eqn:R; [|discriminate]. intros [= ->].
  assert (Hl : skip_ws line <> []).
  { intros N. rewrite N in E. discriminate. }
  assert (B' : starts_with_bom (w1 ++ line ++ w2) = false).
  { destruct w1 as [|c w1]; [|now apply starts_with_bom_blank].
    destruct line as [|c line]; [now elim Hl|]. exact B. }
  rewrite B', (skip_ws_blank_prefix w1 _ H1), (skip_ws_app _ w2 Hl).
  rewrite (proj1 (scan_suffix w2 (ends_number_blank _ H2) _) _ _ _ _ E).
  - cbn [bind]. now rewrite (skip_ws_blank_app _ _ R H2).
  - rewrite !length_app. lia.
Qed.

End WithFloats.

End JsonSuffix.

(** * Whitespace around a line *)

Section Whitespace.
Context {FM : FloatModel}.

(** X15.  Spaces, tabs, line feeds and carriage returns before and after a
    line change nothing to what the three decoders make of it: a line can
    be given with the line feed that ended it in the file. *)
Theorem surrounding_whitespace_ignored (line w1 w2 : str) (v : value) :
  Json.loads line = Ok v ->
  forallb Json.is_ws w1 = true -> forallb Json.is_ws w2 = true ->
  AsciiCastRecord.from_json_line (w1 ++ line ++ w2)
  = AsciiCastRecord.from_json_line line
  /\ AsciiCastHeader.from_json_line (w1 ++ line ++ w2)
     = AsciiCastHeader.from_json_line line
  /\ AsciiCastEvent.from_json_line (w1 ++ line ++ w2)
     = AsciiCastEvent.from_json_line line.
Proof.
  intros L H1 H2.
  pose proof (JsonSuffix.loads_surrounded line v w1 w2 H1 H2 L) as L'.
  unfold AsciiCastRecord.from_json_line, AsciiCastHeader.from_json_line,
    AsciiCastEvent.from_json_line.
  rewrite L, L'. now repeat split.
Qed.

End Whitespace.

(** * Further properties of the records *)

Section EventDecoding.
Context {FM : FloatModel}.
Import Json JsonText JsonFacts JsonFuel.

(** What [json.loads] returns is of a JSON type: no bytes, no tuple, no
    Theme. *)
Lemma loads_json_type line v :
  loads line = Ok v ->
  type_in (type_of v) [NoneType; TBool; TInt; TFloat; TStr; TList; TDict] = true.
Proof.
  unfold loads. destruct (starts_with_bom line); [discriminate|].
  set (f := (2 * List.length line)%nat). clearbody f.
  destruct (skip_ws line) as [|c r]; [discriminate|].
  cbn [scan_once].
  destruct (c =? 34).
  { destruct (scanstring r) as [[x rest]|]; simpl; [|discriminate].
    destruct (skip_ws rest); [|discriminate]. now intros [= <-]. }
  destruct (c =? 123).
  { destruct (skip_ws r) as [|c' r']; [discriminate|].
    destruct (c' =? 125); simpl.
    - destruct (skip_ws r'); [|discriminate]. now intros [= <-].
    - destruct (JSONObject _ _) as [[pairs rest]|]; simpl; [|discriminate].
      destruct (skip_ws rest); [|discriminate]. now intros [= <-]. }
  destruct (c =? 91).
  { destruct (skip_ws r) as [|c' r']; [discriminate|].
    destruct (c' =? 93); simpl.
    - destruct (skip_ws r'); [|discriminate]. now intros [= <-].
    - destruct (JSONArray _ _) as [[vs rest]|]; simpl; [|discriminate].
      destruct (skip_ws rest); [|discriminate]. now intros [= <-]. }
  destruct (constant (c :: r)) as [[v' r']|] eqn:E; simpl.
  - destruct (skip_ws r'); [|discriminate]. intros [= ->].
    unfold constant in E.
    repeat match type of E with
      | context [strip_prefix ?p ?s] =>
        destruct (strip_prefix p s); [now injection E as <- _|]
      end.
    discriminate.
  - unfold match_number. destruct (number_token (c :: r)) as [[[tok [|]] rest]|];
      simpl; try discriminate; (destruct (skip_ws rest); [|discriminate]);
      now intros [= <-].
Qed.

(** What a successful [AsciiCastEvent.from_json_line] went through: an array
    of three items, the third a string that encodes. *)
Lemma event_from_json_line_ok line e :
  AsciiCastEvent.from_json_line line = Ok e ->
  exists a b s data,
    loads line = Ok (VList [a; b; VStr s])
    /\ Utf8.encode s = Ok data
    /\ AsciiCastEvent.new a b (VBytes data) VNone = Ok e.
Proof.
  unfold AsciiCastEvent.from_json_line.
  destruct (loads line) as [v|] eqn:L; [|discriminate]. simpl.
  pose proof (loads_json_type _ _ L) as T.
  destruct v as [| | | |s|bs|l|l|d|fg bg pa]; try discriminate.
  - (* a string of three characters: its time is a string *)
    destruct s as [|a [|b [|c [|]]]]; try discriminate.
    cbn [bind AsciiCastEvent.unpack3 AsciiCastEvent.encode_utf8].
    destruct (Utf8.encode [c]); cbn [bind]; [|discriminate].
    rewrite event_new_unfold. discriminate.
  - destruct l as [|a [|b [|c [|]]]]; try discriminate. simpl.
    destruct c; try discriminate. simpl.
    destruct (Utf8.encode s) as [data|] eqn:E; [|discriminate]. simpl.
    intros H. now exists a, b, s, data.
  - (* an object of three keys: its time is a key *)
    destruct d as [|[a ?] [|[b ?] [|[c ?] [|]]]]; try discriminate.
    cbn [bind AsciiCastEvent.unpack3 AsciiCastEvent.encode_utf8].
    destruct (Utf8.encode c); cbn [bind]; [|discriminate].
    rewrite event_new_unfold. discriminate.
Qed.

(** X1.  A line whose JSON array has not exactly three items is rejected
    by the Event decoder, and by the dispatcher, with the ValueError of the
    unpacking: no Event is built from it. *)
Theorem event_line_needs_three_items (line : str) (l : list value) :
  loads line = Ok (VList l) -> List.length l <> 3%nat ->
  AsciiCastEvent.from_json_line line = Error (ValueError UnpackCount)
  /\ AsciiCastRecord.from_json_line line = Error (ValueError UnpackCount).
Proof.
  intros L Hn.
  assert (H : AsciiCastEvent.from_json_line line = Error (ValueError UnpackCount)).
  { unfold AsciiCastEvent.from_json_line. rewrite L.
    destruct l as [|a [|b [|c [|d l]]]]; try reflexivity. now elim Hn. }
  split; [exact H|].
  unfold AsciiCastRecord.from_json_line. rewrite L. simpl. now rewrite H.
Qed.

(** X2.  The third item of an event line is encoded before any field is
    validated: when it is no string the decoder raises AttributeError, and
    when it is a string with a lone surrogate (written with a [\u] escape)
    it raises UnicodeEncodeError, whatever the first two items are. *)
Theorem event_data_item_encoded_first (line : str) (a b c : value) :
  loads line = Ok (VList [a; b; c]) ->
  match c with
  | VStr s =>
    has_surrogate s = true ->
    AsciiCastEvent.from_json_line line = Error UnicodeEncodeError
  | _ => AsciiCastEvent.from_json_line line = Error AttributeError
  end.
Proof.
  intros L. unfold AsciiCastEvent.from_json_line. rewrite L.
  destruct c; try reflexivity.
  intros Hs. simpl. pose proof (Utf8More.encode_result s) as E.
  rewrite Hs in E. now rewrite E.
Qed.

(** X3.  When the third item is a string without surrogates, the decoder
    returns an Event exactly when the first item is an int or a float (a
    boolean or null is not) and the second one a string, of any content; the
    Event has the three items, the string encoded, and no duration.
    Otherwise it raises the TypeError of the first of the two fields that
    is wrong. *)
Theorem event_items_validated (line : str) (a b : value) (s : str) :
  loads line = Ok (VList [a; b; VStr s]) -> has_surrogate s = false ->
  exists data, Utf8.encode s = Ok data /\
  ((type_of a = TInt \/ type_of a = TFloat) /\ type_of b = TStr
   /\ AsciiCastEvent.from_json_line line
      = Ok (AsciiCastEvent.mk a b (VBytes data) VNone)
   \/ type_of a <> TInt /\ type_of a <> TFloat
      /\ AsciiCastEvent.from_json_line line
         = Error (TypeError (InvalidAttrType (lit "time") (type_of a)))
   \/ (type_of a = TInt \/ type_of a = TFloat) /\ type_of b <> TStr
      /\ AsciiCastEvent.from_json_line line
         = Error (TypeError (InvalidAttrType (lit "event_type") (type_of b)))).
Proof.
  intros L Hs. pose proof (Utf8More.encode_result s) as E. rewrite Hs in E.
  destruct E as [data E]. exists data. split; [exact E|].
  unfold AsciiCastEvent.from_json_line. rewrite L. simpl. rewrite E. simpl.
  rewrite event_new_unfold.
  destruct a; simpl;
    try (right; left; repeat split; (discriminate || reflexivity));
    (destruct b; simpl;
     [..|left; repeat split; solve [reflexivity | now left | now right]|
      | | | | ];
     right; right; repeat split;
       solve [reflexivity | discriminate | now left | now right]).
Qed.

(** Code points without a surrogate are scalar values. *)
Lemma scalar_of_code_points s :
  code_points s = true -> has_surrogate s = false ->
  Forall (fun c => scalar_value c = true) s.
Proof.
  induction s as [|c s IH]; [constructor|].
  simpl. intros [Hc Hs]%andb_true_iff [Hn Hs']%orb_false_iff.
  constructor; [|now apply IH]. unfold scalar_value. now rewrite Hc, Hn.
Qed.

(** What is known of the string of a decoded Event *)
Lemma decoded_text_scalar line a b s data :
  code_points line = true -> loads line = Ok (VList [a; b; VStr s]) ->
  Utf8.encode s = Ok data ->
  Forall (fun c => scalar_value c = true) s.
Proof.
  intros Hl L E. apply scalar_of_code_points.
  - pose proof (JsonCodePoints.loads_list_code_points _ _ Hl L) as F.
    inversion F as [|? ? _ F1]; subst. inversion F1 as [|? ? _ F2]; subst.
    inversion F2 as [|? ? H _]; subst. exact H.
  - pose proof (Utf8More.encode_result s) as R.
    destruct (has_surrogate s); [|reflexivity]. rewrite E in R. discriminate.
Qed.

(** X4.  Every Event that the decoder returns is one that the constructor
    accepts, its data is valid UTF-8, its type is a string and it has no
    duration. *)
Theorem decoded_event_well_formed (line : str) (e : AsciiCastEvent.t) :
  code_points line = true ->
  AsciiCastEvent.from_json_line line = Ok e ->
  valid_event e = true /\ valid_utf8_data e = true
  /\ AsciiCastEvent.duration e = VNone
  /\ exists ty, AsciiCastEvent.event_type e = VStr ty.
Proof.
  intros Hl H.
  destruct (event_from_json_line_ok _ _ H) as (a & b & s & data & L & E & N).
  pose proof (decoded_text_scalar _ _ _ _ _ Hl L E) as Hs.
  destruct (event_new_ok _ _ _ _ _ N) as (-> & _ & [ty ->] & _).
  unfold valid_event, valid_utf8_data. simpl. rewrite N.
  split; [reflexivity|]. split; [|split; [reflexivity|now exists ty]].
  unfold Utf8.valid, Utf8.decode.
  now rewrite (Utf8More.decode_encode s data Utf8.strict true Hs E).
Qed.

(** X5.  An Event read from a line and written again, with no bytes pending
    in the decoder, gives a line that is read as the same Event; the decoder
    is left with no pending bytes. *)
Theorem event_decode_encode_decode `{!FloatLaws FM}
    (line : str) (e : AsciiCastEvent.t) :
  code_points line = true ->
  AsciiCastEvent.from_json_line line = Ok e ->
  exists line',
    AsciiCastEvent.to_json_line utf8_decoder e = (Ok line', utf8_decoder)
    /\ AsciiCastEvent.from_json_line line' = Ok e
    /\ AsciiCastRecord.from_json_line line' = Ok (AsciiCastRecord.Event e).
Proof.
  intros Hl H.
  destruct (event_from_json_line_ok _ _ H) as (a & b & s & data & L & E & N).
  pose proof (decoded_text_scalar _ _ _ _ _ Hl L E) as Hs.
  destruct (event_new_ok _ _ _ _ _ N) as (-> & Ha & [ty ->] & _).
  destruct (event_line_parses a ty s Ha) as (line' & Hd & Hp).
  assert (Hf : AsciiCastEvent.from_json_line line'
               = Ok (AsciiCastEvent.mk a (VStr ty) (VBytes data) VNone)).
  { unfold AsciiCastEvent.from_json_line. rewrite Hp.
    cbn [bind AsciiCastEvent.unpack3 AsciiCastEvent.encode_utf8].
    rewrite E. exact N. }
  exists line'. split; [|split; [exact Hf|]].
  - unfold AsciiCastEvent.to_json_line, Utf8.IncrementalDecoder_decode,
      utf8_decoder.
    cbn [AsciiCastEvent.event_data AsciiCastEvent.time AsciiCastEvent.event_type
         Utf8.buffer Utf8.errs utf8_decoder_at List.app].
    rewrite (Utf8More.decode_encode s data Utf8.replace false Hs E), Hd.
    reflexivity.
  - unfold AsciiCastRecord.from_json_line. rewrite Hp. simpl. now rewrite Hf.
Qed.

(** A line written and read: what the decoder makes of the pending bytes
    and the data, the line of that text, and the Event read from it. *)
Lemma event_written_and_read `{!FloatLaws FM}
    (pending : bytes) (e : AsciiCastEvent.t) :
  valid_event e = true ->
  exists line pending' text data,
    AsciiCastEvent.to_json_line (utf8_decoder_at pending) e
    = (Ok line, utf8_decoder_at pending')
    /\ Utf8.utf_8_decode Utf8.replace false (pending ++ event_bytes e)
       = Ok (text, pending')
    /\ Forall (fun c => scalar_value c = true) text
    /\ dumps (VList [AsciiCastEvent.time e; AsciiCastEvent.event_type e;
                     VStr text]) = Ok line
    /\ loads line = Ok (VList [AsciiCastEvent.time e;
                               AsciiCastEvent.event_type e; VStr text])
    /\ Utf8.encode text = Ok data
    /\ AsciiCastEvent.from_json_line line
       = Ok (AsciiCastEvent.mk (AsciiCastEvent.time e)
               (AsciiCastEvent.event_type e) (VBytes data) VNone).
Proof.
  unfold valid_event, event_bytes. destruct e as [t ty d du]. simpl.
  destruct (AsciiCastEvent.new t ty d du) as [x|] eqn:N; [|discriminate].
  apply event_new_ok in N as (_ & Ht & [s ->] & [bs ->]). intros _.
  destruct (Utf8Facts.replace_total false (pending ++ bs))
    as (text & pending' & R).
  pose proof (Utf8More.decode_scalar _ _ _ _ _ R) as Hs.
  assert (E : exists data, Utf8.encode text = Ok data).
  { pose proof (Utf8More.encode_result text) as X.
    destruct (has_surrogate text) eqn:S; [|exact X].
    exfalso. unfold has_surrogate in S. apply existsb_exists in S as (c & Hc & S).
    rewrite Forall_forall in Hs. specialize (Hs c Hc).
    unfold scalar_value in Hs. rewrite S in Hs.
    now rewrite andb_false_r in Hs. }
  destruct E as [data E].
  destruct (event_line_parses t s text Ht) as (line & Hd & Hp).
  exists line, pending', text, data.
  split; [|split; [exact R|split; [exact Hs|split; [exact Hd|
          split; [exact Hp|split; [exact E|]]]]]].
  - unfold AsciiCastEvent.to_json_line, Utf8.IncrementalDecoder_decode.
    cbn [AsciiCastEvent.event_data AsciiCastEvent.time AsciiCastEvent.event_type
         Utf8.buffer Utf8.errs utf8_decoder_at].
    rewrite R, Hd. reflexivity.
  - unfold AsciiCastEvent.from_json_line. rewrite Hp.
    cbn [bind AsciiCastEvent.unpack3 AsciiCastEvent.encode_utf8].
    rewrite E. cbn [bind]. rewrite event_new_unfold.
    destruct Ht as [[z ->]|[f ->]]; reflexivity.
Qed.

(** X6.  Every line that [to_json_line] writes for a valid Event, whatever
    bytes are pending in the decoder and whatever the data, is read back
    without an error, by the Event decoder and by the dispatcher: the Event
    read has the time and the type of the one written, no duration, and for
    data the UTF-8 encoding of the text of the line, which is valid UTF-8. *)
Theorem written_event_line_reads_back `{!FloatLaws FM}
    (pending : bytes) (e : AsciiCastEvent.t) :
  valid_event e = true ->
  exists line decoder' text data,
    AsciiCastEvent.to_json_line (utf8_decoder_at pending) e
    = (Ok line, decoder')
    /\ dumps (VList [AsciiCastEvent.time e; AsciiCastEvent.event_type e;
                     VStr text]) = Ok line
    /\ Utf8.encode text = Ok data
    /\ Utf8.decode data = Ok text
    /\ AsciiCastEvent.from_json_line line
       = Ok (AsciiCastEvent.mk (AsciiCastEvent.time e)
               (AsciiCastEvent.event_type e) (VBytes data) VNone)
    /\ AsciiCastRecord.from_json_line line
       = Ok (AsciiCastRecord.Event
               (AsciiCastEvent.mk (AsciiCastEvent.time e)
                  (AsciiCastEvent.event_type e) (VBytes data) VNone)).
Proof.
  intros He.
  destruct (event_written_and_read pending e He)
    as (line & pending' & text & data & Hw & _ & Hs & Hd & Hp & E & Hf).
  exists line, (utf8_decoder_at pending'), text, data.
  split; [exact Hw|]. split; [exact Hd|]. split; [exact E|].
  split; [|split; [exact Hf|]].
  - unfold Utf8.decode.
    now rewrite (Utf8More.decode_encode text data Utf8.strict true Hs E).
  - unfold AsciiCastRecord.from_json_line. rewrite Hp. simpl. now rewrite Hf.
Qed.

End EventDecoding.

(** * The shared decoder *)

Section SharedDecoder.
Context {FM : FloatModel}.

(** One call of [to_json_line], spelled out *)
Lemma event_to_json_line_bytes pending t ty data du text pending' :
  Utf8.utf_8_decode Utf8.replace false (pending ++ data) = Ok (text, pending') ->
  AsciiCastEvent.to_json_line (utf8_decoder_at pending)
    (AsciiCastEvent.mk t ty (VBytes data) du)
  = (Json.dumps (VList [t; ty; VStr text]), utf8_decoder_at pending').
Proof.
  intros R. unfold AsciiCastEvent.to_json_line, Utf8.IncrementalDecoder_decode.
  cbn [AsciiCastEvent.event_data AsciiCastEvent.time AsciiCastEvent.event_type
       Utf8.buffer Utf8.errs utf8_decoder_at].
  rewrite R. reflexivity.
Qed.

(** X7.  Data cut in two, anywhere, and written as two Events one after the
    other gives two texts whose concatenation is the text of the Event that
    holds the whole data, and leaves the decoder as that one Event does: a
    character cut by the boundary is completed by the second call. *)
Theorem split_data_is_reassembled
    (pending a b : bytes) (t ty du1 du2 du : value) :
  exists t1 p1 t2 p2,
    AsciiCastEvent.to_json_line (utf8_decoder_at pending)
      (AsciiCastEvent.mk t ty (VBytes a) du1)
    = (Json.dumps (VList [t; ty; VStr t1]), utf8_decoder_at p1)
    /\ AsciiCastEvent.to_json_line (utf8_decoder_at p1)
         (AsciiCastEvent.mk t ty (VBytes b) du2)
       = (Json.dumps (VList [t; ty; VStr t2]), utf8_decoder_at p2)
    /\ AsciiCastEvent.to_json_line (utf8_decoder_at pending)
         (AsciiCastEvent.mk t ty (VBytes (a ++ b)) du)
       = (Json.dumps (VList [t; ty; VStr (t1 ++ t2)]), utf8_decoder_at p2).
Proof.
  destruct (Utf8Facts.replace_total false (pending ++ a)) as (t1 & p1 & R1).
  destruct (Utf8Facts.replace_total false (p1 ++ b)) as (t2 & p2 & R2).
  exists t1, p1, t2, p2.
  split; [now apply event_to_json_line_bytes|].
  split; [now apply event_to_json_line_bytes|].
  apply event_to_json_line_bytes.
  rewrite List.app_assoc, (Utf8More.decode_app _ b _ _ R1), R2. reflexivity.
Qed.

(** One call leaves at most three bytes, or leaves the decoder alone. *)
Lemma to_json_line_buffer_short decoder e :
  (List.length (Utf8.buffer decoder) <= 3)%nat ->
  (List.length (Utf8.buffer (snd (AsciiCastEvent.to_json_line decoder e))) <= 3)%nat.
Proof.
  intros Hp. unfold AsciiCastEvent.to_json_line, Utf8.IncrementalDecoder_decode.
  destruct (AsciiCastEvent.event_data e); try exact Hp.
  destruct (Utf8.utf_8_decode (Utf8.errs decoder) false (Utf8.buffer decoder ++ b))
    as [[text rest]|] eqn:R; [|exact Hp].
  simpl. exact (Utf8More.pending_short _ _ _ _ R).
Qed.

(** X8.  However many Events are encoded after the module is loaded, and
    whatever they hold, the shared decoder never keeps more than three
    bytes, the most that a character started and not finished can take. *)
Theorem decoder_keeps_at_most_three_bytes (es : list AsciiCastEvent.t) :
  (List.length (Utf8.buffer (snd (to_json_lines utf8_decoder es))) <= 3)%nat.
Proof.
  assert (H : forall d, (List.length (Utf8.buffer d) <= 3)%nat ->
    (List.length (Utf8.buffer (snd (to_json_lines d es))) <= 3)%nat).
  { induction es as [|e es IH]; intros d Hd; [exact Hd|].
    cbn [to_json_lines].
    pose proof (to_json_line_buffer_short d e Hd) as H1.
    destruct (AsciiCastEvent.to_json_line d e) as [line d1].
    specialize (IH d1 H1). destruct (to_json_lines d1 es) as [lines d2].
    exact IH. }
  apply H. simpl. lia.
Qed.

End SharedDecoder.

Section EventStreams.
Context {FM : FloatModel} {FL : FloatLaws FM}.

Lemma encode_app a b :
  Utf8.encode (a ++ b)
  = (x <- Utf8.encode a ;; y <- Utf8.encode b ;; Ok (x ++ y)).
Proof.
  induction a as [|c a IH]; simpl.
  - now destruct (Utf8.encode b).
  - rewrite IH. destruct (Utf8.encode_char c) as [bc|]; [|reflexivity].
    destruct (Utf8.encode a) as [x|]; [|reflexivity].
    destruct (Utf8.encode b) as [y|]; [|reflexivity].
    simpl. now rewrite List.app_assoc.
Qed.

(** What the decoder keeps is kept again when nothing follows. *)
Lemma pending_idle data t p :
  Utf8.utf_8_decode Utf8.replace false data = Ok (t, p) ->
  Utf8.utf_8_decode Utf8.replace false p = Ok ([], p).
Proof.
  intros R. pose proof (Utf8More.decode_app data [] t p R) as A.
  rewrite !List.app_nil_r, R in A.
  destruct (Utf8.utf_8_decode Utf8.replace false p) as [[t' p']|];
    [|discriminate].
  simpl in A. injection A as Ht <-.
  assert (t' = []) as ->; [|reflexivity].
  apply (f_equal (@List.length N)) in Ht. rewrite length_app in Ht.
  destruct t'; [reflexivity|]. simpl in Ht. lia.
Qed.

(** The Events [es] written one after the other, and each line read *)
Lemma event_stream_written_and_read (es : list AsciiCastEvent.t) :
  Forall (fun e => valid_event e = true) es ->
  forall pending,
    Utf8.utf_8_decode Utf8.replace false pending = Ok ([], pending) ->
  exists lines es' text pending',
    to_json_lines (utf8_decoder_at pending) es
    = (map Ok lines, utf8_decoder_at pending')
    /\ map AsciiCastEvent.from_json_line lines = map Ok es'
    /\ map AsciiCastEvent.time es' = map AsciiCastEvent.time es
    /\ map AsciiCastEvent.event_type es' = map AsciiCastEvent.event_type es
    /\ Utf8.utf_8_decode Utf8.replace false
         (pending ++ List.concat (map event_bytes es)) = Ok (text, pending')
    /\ Utf8.encode text = Ok (List.concat (map event_bytes es')).
Proof.
  induction 1 as [|e es He _ IH]; intros pending Hp.
  { exists [], [], [], pending. simpl. rewrite List.app_nil_r. now repeat split. }
  destruct (event_written_and_read pending e He)
    as (line & p1 & t1 & data & Hw & R & _ & _ & _ & E & Hf).
  destruct (IH p1 (pending_idle _ _ _ R))
    as (lines & es' & text & p2 & Hws & Hfs & Ht & Hty & R2 & E2).
  exists (line :: lines),
    (AsciiCastEvent.mk (AsciiCastEvent.time e) (AsciiCastEvent.event_type e)
       (VBytes data) VNone :: es'), (t1 ++ text), p2.
  split; [|split; [|split; [|split; [|split]]]].
  - cbn [to_json_lines]. rewrite Hw, Hws. reflexivity.
  - cbn [map]. now rewrite Hf, Hfs.
  - cbn [map AsciiCastEvent.time]. now rewrite Ht.
  - cbn [map AsciiCastEvent.event_type]. now rewrite Hty.
  - cbn [map List.concat]. rewrite List.app_assoc.
    rewrite (Utf8More.decode_app _ _ _ _ R), R2. reflexivity.
  - rewrite encode_app, E, E2. reflexivity.
Qed.

(** X14.  Events whose data, put end to end, is valid UTF-8, written one
    after the other from the state in which the module is loaded, give
    lines that are all read back; the Events read have the times and the
    types of those written, and their data put end to end is the data
    written, although a character cut between two Events moves to the
    second one.  The decoder is left with no pending bytes. *)
Theorem event_stream_round_trip (es : list AsciiCastEvent.t) :
  Forall (fun e => valid_event e = true) es ->
  Utf8.valid (List.concat (map event_bytes es)) = true ->
  exists lines es',
    to_json_lines utf8_decoder es = (map Ok lines, utf8_decoder)
    /\ map AsciiCastEvent.from_json_line lines = map Ok es'
    /\ map AsciiCastEvent.time es' = map AsciiCastEvent.time es
    /\ map AsciiCastEvent.event_type es' = map AsciiCastEvent.event_type es
    /\ List.concat (map event_bytes es') = List.concat (map event_bytes es).
Proof.
  intros Hes Hv.
  destruct (event_stream_written_and_read es Hes [] eq_refl)
    as (lines & es' & text & p & Hw & Hf & Ht & Hty & R & E).
  unfold Utf8.valid, Utf8.decode in Hv.
  destruct (Utf8.utf_8_decode Utf8.strict true (List.concat (map event_bytes es)))
    as [[s rest]|] eqn:D; [|discriminate].
  destruct (Utf8Facts.strict_decode_sound _ _ _ _ (le_n _) D) as (_ & R' & E').
  simpl in R. rewrite R' in R. injection R as <- <-.
  rewrite E' in E. injection E as E.
  exists lines, es'. now repeat split.
Qed.

End EventStreams.

(** * Lines *)

Section Lines.
Context {FM : FloatModel} {FL : FloatLaws FM}.
Import Json.

(** Induction on values, through the lists and the dicts *)
Lemma value_nested_ind (P : value -> Prop) :
  P VNone -> (forall b, P (VBool b)) -> (forall z, P (VInt z)) ->
  (forall f, P (VFloat f)) -> (forall s, P (VStr s)) ->
  (forall b, P (VBytes b)) ->
  (forall l, Forall P l -> P (VList l)) ->
  (forall l, Forall P l -> P (VTuple l)) ->
  (forall d, Forall (fun kv => P (snd kv)) d -> P (VDict d)) ->
  (forall fg bg palette, P fg -> P bg -> P palette -> P (VTheme fg bg palette)) ->
  forall v, P v.
Proof.
  intros HN HB HI HF HS HY HL HT HD HH.
  fix IH 1. intros [ |b|z|f|s|b|l|l|d|fg bg pa].
  - exact HN.
  - apply HB.
  - apply HI.
  - apply HF.
  - apply HS.
  - apply HY.
  - apply HL.
    exact ((fix items (l : list value) : Forall P l :=
              match l with
              | [] => Forall_nil _
              | x :: l' => Forall_cons _ (IH x) (items l')
              end) l).
  - apply HT.
    exact ((fix items (l : list value) : Forall P l :=
              match l with
              | [] => Forall_nil _
              | x :: l' => Forall_cons _ (IH x) (items l')
              end) l).
  - apply HD.
    exact ((fix members (d : list (str * value))
              : Forall (fun kv => P (snd kv)) d :=
              match d with
              | [] => Forall_nil _
              | kv :: d' => Forall_cons _ (IH (snd kv)) (members d')
              end) d).
  - apply HH; apply IH.
Qed.

Lemma no_control_items (l : list value) b :
  Forall (fun v => forall line, dumps v = Ok line -> no_control line = true) l ->
  dumps_items dumps l = Ok b -> no_control b = true.
Proof.
  intros F. revert b. induction F as [|x l Hx F IH]; intros b.
  { now intros [= <-]. }
  cbn [dumps_items]. destruct l as [|y l'].
  { apply Hx. }
  fold (dumps_items dumps (y :: l')).
  destruct (dumps x) as [a|] eqn:Ex; [|discriminate]. cbn [bind].
  destruct (dumps_items dumps (y :: l')) as [c|] eqn:Ec; [|discriminate].
  cbn [bind]. intros [= <-].
  change (no_control (a ++ item_separator ++ c) = true).
  rewrite !JsonMore.no_control_app, (Hx _ eq_refl), (IH _ eq_refl). reflexivity.
Qed.

Lemma no_control_members (d : list (str * value)) b :
  Forall (fun kv => forall line, dumps (snd kv) = Ok line ->
                                 no_control line = true) d ->
  dumps_members dumps d = Ok b -> no_control b = true.
Proof.
  intros F. revert b. induction F as [|[k x] d Hx F IH]; intros b.
  { now intros [= <-]. }
  cbn [dumps_members]. simpl in Hx. destruct d as [|y d'].
  { destruct (dumps x) as [a|] eqn:Ex; [|discriminate]. cbn [bind].
    intros [= <-].
    change (no_control (encode_basestring k ++ key_separator ++ a) = true).
    rewrite !JsonMore.no_control_app, JsonMore.no_control_basestring,
      (Hx _ eq_refl). reflexivity. }
  fold (dumps_members dumps (y :: d')).
  destruct (dumps x) as [a|] eqn:Ex; [|discriminate]. cbn [bind].
  destruct (dumps_members dumps (y :: d')) as [c|] eqn:Ec; [|discriminate].
  cbn [bind]. intros [= <-].
  change (no_control (encode_basestring k ++ key_separator ++ a
                      ++ item_separator ++ c) = true).
  rewrite !JsonMore.no_control_app, JsonMore.no_control_basestring,
    (Hx _ eq_refl), (IH _ eq_refl). reflexivity.
Qed.

(** What [json.dumps] writes holds no control character. *)
Lemma no_control_dumps (v : value) :
  forall line, dumps v = Ok line -> no_control line = true.
Proof.
  induction v using value_nested_ind; intros line.
  - now intros [= <-].
  - destruct b; now intros [= <-].
  - intros [= <-]. apply JsonMore.no_control_int.
  - intros [= <-]. apply JsonMore.no_control_float.
  - intros [= <-]. apply JsonMore.no_control_basestring.
  - discriminate.
  - cbn [dumps]. destruct (dumps_items dumps l) as [b|] eqn:E; [|discriminate].
    cbn [bind]. intros [= <-].
    change (no_control (b ++ [93]) = true).
    rewrite JsonMore.no_control_app, (no_control_items l b H E). reflexivity.
  - cbn [dumps]. destruct (dumps_items dumps l) as [b|] eqn:E; [|discriminate].
    cbn [bind]. intros [= <-].
    change (no_control (b ++ [93]) = true).
    rewrite JsonMore.no_control_app, (no_control_items l b H E). reflexivity.
  - cbn [dumps]. destruct (dumps_members dumps d) as [b|] eqn:E; [|discriminate].
    cbn [bind]. intros [= <-].
    change (no_control (b ++ [125]) = true).
    rewrite JsonMore.no_control_app, (no_control_members d b H E). reflexivity.
  - cbn [dumps].
    destruct (dumps v1) as [a|] eqn:E1; [|discriminate].
    destruct (dumps v2) as [b|] eqn:E2; [|discriminate].
    destruct (dumps v3) as [c|] eqn:E3; [|discriminate].
    cbn [bind]. intros [= <-].
    change (no_control (91 :: (a ++ item_separator ++ b ++ item_separator ++ c)
                        ++ [93]) = true).
    change (no_control ((a ++ item_separator ++ b ++ item_separator ++ c)
                        ++ [93]) = true).
    rewrite !JsonMore.no_control_app, (IHv1 _ eq_refl), (IHv2 _ eq_refl),
      (IHv3 _ eq_refl). reflexivity.
Qed.

(** X9.  A line written for an Event holds no line feed, no carriage
    return and no other control character, whatever the data, the type and
    the pending bytes are: an Event is one line of the file. *)
Theorem event_line_is_single_line
    (decoder decoder' : Utf8.IncrementalDecoder) (e : AsciiCastEvent.t)
    (line : str) :
  AsciiCastEvent.to_json_line decoder e = (Ok line, decoder') ->
  no_control line = true.
Proof.
  unfold AsciiCastEvent.to_json_line.
  destruct (AsciiCastEvent.event_data e); try discriminate.
  destruct (Utf8.IncrementalDecoder_decode decoder b) as [[text|] d];
    [|discriminate].
  intros [= H _].
  exact (no_control_dumps
           (VList [AsciiCastEvent.time e; AsciiCastEvent.event_type e;
                   VStr text]) _ H).
Qed.

(** X10.  A line written for a Header holds no line feed, no carriage
    return and no other control character, whatever its theme holds. *)
Theorem header_line_is_single_line (h : AsciiCastHeader.t) (line : str) :
  AsciiCastHeader.to_json_line h = Ok line -> no_control line = true.
Proof.
  unfold AsciiCastHeader.to_json_line.
  destruct (AsciiCastHeader.theme h); try discriminate; cbn [bind];
    apply no_control_dumps.
Qed.

End Lines.

(** * Header lines *)

Section HeaderLinesMore.
Context {FM : FloatModel}.
Import Json.

(** X11.  The Header decoder, called on a line that holds a JSON value other
    than an object, raises a TypeError: from the test [attr in attributes],
    from the indexing by a string, or from the constructor that is given
    [None] for every field. *)
Theorem header_decoder_rejects_non_objects (line : str) (v : value) :
  loads line = Ok v -> type_of v <> TDict ->
  exists info, AsciiCastHeader.from_json_line line = Error (TypeError info).
Proof.
  intros L T. unfold AsciiCastHeader.from_json_line. rewrite L. cbn [bind].
  assert (N : exists info,
    AsciiCastHeader.new VNone VNone VNone VNone = Error (TypeError info)).
  { rewrite header_new_unfold. eexists. reflexivity. }
  assert (G : forall attr,
    AsciiCastHeader.get_or_None v attr = Ok VNone
    \/ exists info, AsciiCastHeader.get_or_None v attr = Error (TypeError info)).
  { intros attr. destruct v; try (right; eexists; reflexivity).
    - simpl. destruct (AsciiCastHeader.is_infix attr s);
        [right; eexists; reflexivity | now left].
    - simpl. destruct (existsb _ l); [right; eexists; reflexivity | now left].
    - simpl. destruct (existsb _ l); [right; eexists; reflexivity | now left].
    - now elim T. }
  destruct (G (lit "version")) as [->|[i ->]]; [|now exists i].
  destruct (G (lit "width")) as [->|[i ->]]; [|now exists i].
  destruct (G (lit "height")) as [->|[i ->]]; [|now exists i].
  destruct (G (lit "theme")) as [->|[i ->]]; [|now exists i].
  exact N.
Qed.

(** X12.  Every Header that the decoder returns is one that the constructor
    accepts: its version is the int 2, its width and height are ints, and
    its theme is [None] or a Theme. *)
Theorem decoded_header_well_formed (line : str) (h : AsciiCastHeader.t) :
  AsciiCastHeader.from_json_line line = Ok h ->
  AsciiCastHeader.new (AsciiCastHeader.version h) (AsciiCastHeader.width h)
    (AsciiCastHeader.height h) (AsciiCastHeader.theme h) = Ok h
  /\ AsciiCastHeader.version h = VInt 2
  /\ (exists w, AsciiCastHeader.width h = VInt w)
  /\ (exists x, AsciiCastHeader.height h = VInt x)
  /\ (AsciiCastHeader.theme h = VNone
      \/ exists fg bg palette, AsciiCastHeader.theme h = VTheme fg bg palette).
Proof.
  unfold AsciiCastHeader.from_json_line.
  destruct (loads line) as [a|]; [|discriminate]. cbn [bind].
  destruct (AsciiCastHeader.get_or_None a (lit "version")) as [v|];
    [|discriminate]. cbn [bind].
  destruct (AsciiCastHeader.get_or_None a (lit "width")) as [w|];
    [|discriminate]. cbn [bind].
  destruct (AsciiCastHeader.get_or_None a (lit "height")) as [x|];
    [|discriminate]. cbn [bind].
  destruct (AsciiCastHeader.get_or_None a (lit "theme")) as [t|];
    [|discriminate]. cbn [bind].
  match goal with
  | |- bind ?X _ = _ -> _ => destruct X as [t'|]; [|discriminate]
  end. cbn [bind].
  intros N. destruct (header_new_ok _ _ _ _ _ N) as (-> & Hv & Hw & Hx & Ht).
  simpl. now rewrite N.
Qed.

(** X13.  The Header decoder reads the four fields of the object and
    nothing else, and takes a field that is missing for one that is null:
    two lines whose objects agree on [version], [width], [height] and
    [theme] in this sense give the same Header, or the same exception,
    whatever other keys they hold and in whatever order. *)
Theorem header_decoder_reads_four_fields (line1 line2 : str) (d1 d2 : dict) :
  loads line1 = Ok (VDict d1) -> loads line2 = Ok (VDict d2) ->
  (forall attr, In attr AsciiCastHeader._fields ->
                field_or_None d1 attr = field_or_None d2 attr) ->
  AsciiCastHeader.from_json_line line1 = AsciiCastHeader.from_json_line line2
  /\ AsciiCastRecord.from_json_line line1 = AsciiCastRecord.from_json_line line2.
Proof.
  intros L1 L2 H.
  assert (E : AsciiCastHeader.from_json_line line1
              = AsciiCastHeader.from_json_line line2).
  { rewrite (header_from_json_line_dict _ _ L1),
      (header_from_json_line_dict _ _ L2).
    unfold decoded_theme.
    rewrite !(H (lit "version")), !(H (lit "width")), !(H (lit "height")),
      !(H (lit "theme")) by (simpl; auto).
    reflexivity. }
  split; [exact E|].
  unfold AsciiCastRecord.from_json_line. rewrite L1, L2. simpl. now rewrite E.
Qed.

End HeaderLinesMore.

(** * Lines and the records they stand for *)

Section LinesAndRecords.
Context {FM : FloatModel} {FL : FloatLaws FM}.
Import JsonText JsonFacts.

(** The line of a Header that the constructor accepts and whose theme, if
    any, holds strings, and what the decoder makes of it *)
Lemma accepted_header_line (v w hh t : value) (x : AsciiCastHeader.t) :
  AsciiCastHeader.new v w hh t = Ok x -> theme_of_strings t = true ->
  exists line d,
    AsciiCastHeader.to_json_line (AsciiCastHeader.mk v w hh t) = Ok line
    /\ Json.loads line = Ok (VDict d)
    /\ AsciiCastHeader.from_json_line line = Ok (AsciiCastHeader.mk v w hh t).
Proof.
  intros E Ht.
  apply header_new_ok in E as (_ & -> & [wz ->] & [hz ->] & _).
  destruct t as [| | | | | | | | |fg bg palette]; try discriminate.
  - pose (ms := [(lit "version", Json.int_repr 2, VInt 2);
                 (lit "width", Json.int_repr wz, VInt wz);
                 (lit "height", Json.int_repr hz, VInt hz)]).
    assert (P : parses 5 (123 :: join_members (map fst ms) ++ [125])
                  (VDict [(lit "version", VInt 2); (lit "width", VInt wz);
                          (lit "height", VInt hz)])).
    { apply (parses_object 1 ms); [discriminate|].
      repeat (apply Forall_cons || apply Forall_nil); apply parses_int. }
    assert (L : Json.loads (123 :: join_members (map fst ms) ++ [125])
                = Ok (VDict [(lit "version", VInt 2); (lit "width", VInt wz);
                             (lit "height", VInt hz)])).
    { apply (loads_parses 5); [exact P| |reflexivity].
      simpl. rewrite !length_app. simpl. lia. }
    exists (123 :: join_members (map fst ms) ++ [125]). eexists.
    split; [reflexivity|]. split; [exact L|].
    rewrite (header_from_json_line_dict _ _ L). reflexivity.
  - destruct fg as [| | | |fg| | | | |]; try discriminate.
    destruct bg as [| | | |bg| | | | |]; try discriminate.
    destruct palette as [| | | |palette| | | | |]; try discriminate.
    pose (ts := [(lit "fg", Json.encode_basestring fg, VStr fg);
                 (lit "bg", Json.encode_basestring bg, VStr bg);
                 (lit "palette", Json.encode_basestring palette, VStr palette)]).
    pose (td := [(lit "fg", VStr fg); (lit "bg", VStr bg);
                 (lit "palette", VStr palette)]).
    assert (PT : parses 5 (123 :: join_members (map fst ts) ++ [125]) (VDict td)).
    { apply (parses_object 1 ts); [discriminate|].
      repeat (apply Forall_cons || apply Forall_nil); apply parses_str. }
    pose (ms := [(lit "version", Json.int_repr 2, VInt 2);
                 (lit "width", Json.int_repr wz, VInt wz);
                 (lit "height", Json.int_repr hz, VInt hz);
                 (lit "theme", 123 :: join_members (map fst ts) ++ [125],
                  VDict td)]).
    assert (P : parses 10 (123 :: join_members (map fst ms) ++ [125])
                  (VDict [(lit "version", VInt 2); (lit "width", VInt wz);
                          (lit "height", VInt hz); (lit "theme", VDict td)])).
    { apply (parses_object 5 ms); [discriminate|].
      repeat (apply Forall_cons || apply Forall_nil);
        try (apply (parses_mono 1); [apply parses_int|lia]).
      exact PT. }
    assert (L : Json.loads (123 :: join_members (map fst ms) ++ [125])
                = Ok (VDict [(lit "version", VInt 2); (lit "width", VInt wz);
                             (lit "height", VInt hz); (lit "theme", VDict td)])).
    { apply (loads_parses 10); [exact P| |reflexivity].
      simpl. rewrite !length_app. simpl. lia. }
    exists (123 :: join_members (map fst ms) ++ [125]). eexists.
    split; [reflexivity|]. split; [exact L|].
    rewrite (header_from_json_line_dict _ _ L). reflexivity.
Qed.

(** X16.  Two valid Events written with no bytes pending, whose data is
    valid UTF-8 and whose lines are the same, have the same time, the same
    type and the same data: a line stands for one Event, up to the duration
    that is not written. *)
Theorem event_line_determines_event (e1 e2 : AsciiCastEvent.t) (line : str)
    (d1 d2 : Utf8.IncrementalDecoder) :
  valid_event e1 = true -> valid_event e2 = true ->
  valid_utf8_data e1 = true -> valid_utf8_data e2 = true ->
  AsciiCastEvent.to_json_line utf8_decoder e1 = (Ok line, d1) ->
  AsciiCastEvent.to_json_line utf8_decoder e2 = (Ok line, d2) ->
  AsciiCastEvent.time e1 = AsciiCastEvent.time e2
  /\ AsciiCastEvent.event_type e1 = AsciiCastEvent.event_type e2
  /\ AsciiCastEvent.event_data e1 = AsciiCastEvent.event_data e2.
Proof.
  intros V1 V2 U1 U2 W1 W2.
  destruct (event_written_and_read [] e1 V1)
    as (l1 & p1 & t1 & b1 & Hw1 & R1 & _ & _ & L1 & _).
  destruct (event_written_and_read [] e2 V2)
    as (l2 & p2 & t2 & b2 & Hw2 & R2 & _ & _ & L2 & _).
  unfold utf8_decoder in W1, W2. rewrite Hw1 in W1. rewrite Hw2 in W2.
  injection W1 as -> _. injection W2 as -> _.
  rewrite L1 in L2. injection L2 as Ht Hty Htx.
  split; [exact Ht|]. split; [exact Hty|].
  unfold valid_utf8_data in U1, U2. unfold event_bytes in R1, R2.
  destruct (AsciiCastEvent.event_data e1) as [| | | | |x1| | | |];
    try discriminate.
  destruct (AsciiCastEvent.event_data e2) as [| | | | |x2| | | |];
    try discriminate.
  unfold Utf8.valid, Utf8.decode in U1, U2.
  destruct (Utf8.utf_8_decode Utf8.strict true x1) as [[s1 r1]|] eqn:D1;
    [|discriminate].
  destruct (Utf8.utf_8_decode Utf8.strict true x2) as [[s2 r2]|] eqn:D2;
    [|discriminate].
  destruct (Utf8Facts.strict_decode_sound _ _ _ _ (le_n _) D1) as (_ & A1 & B1).
  destruct (Utf8Facts.strict_decode_sound _ _ _ _ (le_n _) D2) as (_ & A2 & B2).
  simpl in R1, R2. rewrite A1 in R1. rewrite A2 in R2.
  injection R1 as <- _. injection R2 as <- _. subst s2.
  rewrite B1 in B2. now injection B2 as ->.
Qed.

(** X17.  A Header read from a line, whose theme if any holds strings, and
    written again gives a line that is read as the same Header, by the
    Header decoder and by the dispatcher. *)
Theorem header_decode_encode_decode (line : str) (h : AsciiCastHeader.t) :
  AsciiCastHeader.from_json_line line = Ok h ->
  theme_of_strings (AsciiCastHeader.theme h) = true ->
  exists line',
    AsciiCastHeader.to_json_line h = Ok line'
    /\ AsciiCastHeader.from_json_line line' = Ok h
    /\ AsciiCastRecord.from_json_line line' = Ok (AsciiCastRecord.Header h).
Proof.
  intros H Ht.
  assert (N : AsciiCastHeader.new (AsciiCastHeader.version h)
                (AsciiCastHeader.width h) (AsciiCastHeader.height h)
                (AsciiCastHeader.theme h) = Ok h).
  { revert H. unfold AsciiCastHeader.from_json_line.
    destruct (Json.loads line) as [a|]; [|discriminate]. cbn [bind].
    destruct (AsciiCastHeader.get_or_None a (lit "version")) as [v|];
      [|discriminate]. cbn [bind].
    destruct (AsciiCastHeader.get_or_None a (lit "width")) as [w|];
      [|discriminate]. cbn [bind].
    destruct (AsciiCastHeader.get_or_None a (lit "height")) as [x|];
      [|discriminate]. cbn [bind].
    destruct (AsciiCastHeader.get_or_None a (lit "theme")) as [t|];
      [|discriminate]. cbn [bind].
    match goal with
    | |- bind ?X _ = _ -> _ => destruct X as [t'|]; [|discriminate]
    end. cbn [bind].
    intros N. destruct (header_new_ok _ _ _ _ _ N) as (-> & _).
    exact N. }
  destruct h as [v w hh t]. simpl in N, Ht.
  destruct (accepted_header_line v w hh t _ N Ht) as (line' & d & Hw & L & Hr).
  exists line'. split; [exact Hw|]. split; [exact Hr|].
  unfold AsciiCastRecord.from_json_line. rewrite L. simpl. now rewrite Hr.
Qed.

(** X18.  Two valid Headers whose lines are the same are the same Header:
    nothing that a valid Header holds is lost in its line. *)
Theorem header_line_determines_header (h1 h2 : AsciiCastHeader.t) (line : str) :
  valid_header h1 = true -> valid_header h2 = true ->
  AsciiCastHeader.to_json_line h1 = Ok line ->
  AsciiCastHeader.to_json_line h2 = Ok line ->
  h1 = h2.
Proof.
  assert (K : forall h, valid_header h = true ->
    AsciiCastHeader.to_json_line h = Ok line ->
    AsciiCastHeader.from_json_line line = Ok h).
  { intros [v w hh t]. unfold valid_header. simpl.
    destruct (AsciiCastHeader.new v w hh t) as [x|] eqn:N; [|discriminate].
    intros Ht Hw.
    destruct (accepted_header_line v w hh t _ N Ht) as (l & d & Hw' & _ & Hr).
    rewrite Hw in Hw'. now injection Hw' as <-. }
  intros V1 V2 W1 W2.
  pose proof (K h1 V1 W1) as R1. rewrite (K h2 V2 W2) in R1.
  now injection R1.
Qed.

End LinesAndRecords.

(** * The theorems at concrete inputs *)

Section Instances.
#[local] Existing Instance IntegralFloats.model.
Local Abbreviation FM := IntegralFloats.model.

Lemma header_round_trip_witness :
  valid_header (FM := FM) themed_header = true
  /\ exists line,
       AsciiCastHeader.to_json_line (FM := FM) themed_header = Ok line
       /\ AsciiCastHeader.from_json_line line = Ok themed_header
       /\ AsciiCastRecord.from_json_line line
          = Ok (AsciiCastRecord.Header themed_header).
Proof.
  split; [reflexivity|].
  apply (header_round_trip (FM := FM) themed_header). reflexivity.
Defined.

Lemma event_round_trip_no_pending_witness :
  valid_event accented_event = true /\ valid_utf8_data accented_event = true
  /\ event_round_trip [] accented_event /\ decoder_after [] accented_event = [].
Proof.
  split; [reflexivity|]. split; [reflexivity|].
  apply (@event_round_trip_no_pending FM JsonFuel.integral_floats_laws
           accented_event); reflexivity.
Defined.

Lemma event_encoding_replaces_witness :
  valid_event (FM := FM) garbled_event = true
  /\ exists line text pending' data,
       AsciiCastEvent.to_json_line (utf8_decoder_at []) garbled_event
       = (Ok line, utf8_decoder_at pending')
       /\ AsciiCastEvent.event_data (FM := FM) garbled_event = VBytes data
       /\ Utf8.utf_8_decode Utf8.replace false ([] ++ data) = Ok (text, pending')
       /\ Json.dumps (VList [AsciiCastEvent.time garbled_event;
                             AsciiCastEvent.event_type garbled_event;
                             VStr text]) = Ok line
       /\ (Utf8.valid ([] ++ data) = false ->
           In Utf8.REPLACEMENT text \/ pending' <> [])
       /\ (forall e2,
           AsciiCastEvent.time e2 = AsciiCastEvent.time garbled_event ->
           AsciiCastEvent.event_type e2 = AsciiCastEvent.event_type garbled_event ->
           AsciiCastEvent.event_data e2 = AsciiCastEvent.event_data garbled_event ->
           AsciiCastEvent.to_json_line (utf8_decoder_at []) e2
           = (Ok line, utf8_decoder_at pending'))
       /\ (pending' = [] -> same_line_twice [] garbled_event garbled_event).
Proof.
  split; [reflexivity|].
  apply (event_encoding_replaces (FM := FM) [] garbled_event). reflexivity.
Defined.

Lemma header_version_check_witness :
  AsciiCastHeader.new (FM := FM) (VInt 1) (VInt 80) (VInt 24) VNone
  = Error (ValueError OnlyV2Supported)
  /\ AsciiCastHeader.new (FM := FM) (VInt 3) (VInt 80) (VInt 24) VNone
     = Error (ValueError OnlyV2Supported)
  /\ AsciiCastHeader.new (FM := FM) (VInt 2) (VInt 80) (VInt 24) VNone
     = Ok (AsciiCastHeader.mk (VInt 2) (VInt 80) (VInt 24) VNone)
  /\ AsciiCastHeader.new (FM := FM) (VStr (lit "1")) (VInt 80) (VInt 24) VNone
     = Error (TypeError (InvalidAttrType (lit "version") TStr))
  /\ exists attr ty,
       AsciiCastHeader.new (FM := FM) (VInt 1) (VInt 80) (VStr (lit "24")) VNone
       = Error (TypeError (InvalidAttrType attr ty)).
Proof.
  split; [|split; [|split; [|split]]].
  - apply (proj1 (header_version_check (FM := FM)
                    (VInt 1) (VInt 80) (VInt 24) VNone) 1%Z);
      try reflexivity. left. reflexivity.
  - apply (proj1 (header_version_check (FM := FM)
                    (VInt 3) (VInt 80) (VInt 24) VNone) 3%Z);
      try reflexivity. left. reflexivity.
  - apply (proj1 (header_version_check (FM := FM)
                    (VInt 2) (VInt 80) (VInt 24) VNone) 2%Z);
      try reflexivity. left. reflexivity.
  - apply (proj1 (proj2 (header_version_check (FM := FM)
                           (VStr (lit "1")) (VInt 80) (VInt 24) VNone))).
    discriminate.
  - apply (proj2 (proj2 (header_version_check (FM := FM)
                           (VInt 1) (VInt 80) (VStr (lit "24")) VNone))).
    intros (_ & H & _). discriminate H.
Defined.

Lemma header_width_float_rejected_witness :
  AsciiCastHeader.new (FM := FM) (VInt 2) (VFloat (Ffinite 80%Z)) (VInt 24) VNone
  = Error (TypeError (InvalidAttrType (lit "width") TFloat))
  /\ (type_of (FM := FM) (VInt 2) = TInt /\ type_of (FM := FM) (VInt 80) = TInt
      /\ type_of (FM := FM) (VInt 24) = TInt).
Proof.
  split.
  - apply (proj1 (proj2 (header_width_float_rejected (FM := FM)
                           (VInt 2) (VInt 24) VNone (Ffinite 80%Z))) 2%Z).
    reflexivity.
  - apply (proj2 (proj2 (header_width_float_rejected (FM := FM)
                           (VInt 2) (VInt 24) VNone (Ffinite 80%Z)))
                 (VInt 80) (AsciiCastHeader.mk (VInt 2) (VInt 80) (VInt 24) VNone)).
    reflexivity.
Defined.

Lemma bool_rejected_for_numbers_witness :
  (exists attr ty,
     AsciiCastHeader.new (FM := FM) (VInt 2) (VInt 80) (VBool true) VNone
     = Error (TypeError (InvalidAttrType attr ty))
     /\ attr = lit "height" /\ ty = TBool)
  /\ (exists attr ty,
     AsciiCastEvent.new (FM := FM) (VInt 0) (VStr (lit "o")) (VBytes [])
       (VBool false)
     = Error (TypeError (InvalidAttrType attr ty))
     /\ attr = lit "duration" /\ ty = TBool).
Proof.
  split.
  - destruct (proj1 (proj2 (proj2 (bool_rejected_for_numbers (FM := FM) true)))
                (VInt 2) (VInt 80) VNone) as (attr & ty & H & K).
    exists attr, ty. split; [exact H|]. apply K; reflexivity.
  - destruct (proj2 (proj2 (proj2 (proj2
                (bool_rejected_for_numbers (FM := FM) false))))
                (VInt 0) (VStr (lit "o")) (VBytes [])) as (attr & ty & H & K).
    exists attr, ty. split; [exact H|]. apply K; reflexivity.
Defined.

Lemma header_line_shape_witness :
  AsciiCastHeader.to_json_line (FM := FM)
    (AsciiCastHeader.mk (VInt 2) (VInt 80) (VInt 24) VNone)
  = Ok (jlit "{'version': 2, 'width': 80, 'height': 24}")
  /\ exists body,
       jlit "{'version': 2, 'width': 80, 'height': 24}" = 123 :: body ++ [125].
Proof.
  split.
  - exact (proj1 (header_line_shape (FM := FM))).
  - apply (proj1 (proj2 (header_line_shape (FM := FM)))
             (AsciiCastHeader.mk (VInt 2) (VInt 80) (VInt 24) VNone)).
    reflexivity.
Defined.

Lemma missing_header_field_is_type_error_witness :
  Json.loads (FM := FM) (jlit "{'version': 2, 'width': 80}")
  = Ok (VDict [(lit "version", VInt 2); (lit "width", VInt 80)])
  /\ exists info,
       AsciiCastHeader.from_json_line (FM := FM)
         (jlit "{'version': 2, 'width': 80}") = Error (TypeError info)
       /\ AsciiCastRecord.from_json_line (FM := FM)
            (jlit "{'version': 2, 'width': 80}") = Error (TypeError info).
Proof.
  split; [vm_compute; reflexivity|].
  apply (missing_header_field_is_type_error (FM := FM)
           (jlit "{'version': 2, 'width': 80}")
           [(lit "version", VInt 2); (lit "width", VInt 80)]).
  - vm_compute. reflexivity.
  - right. right. reflexivity.
Defined.

Lemma theme_unpacked_by_name_witness :
  theme_object (FM := FM) swapped_theme_line
  = Some [(lit "bg", VStr (lit "#000000")); (lit "fg", VStr (lit "#ffffff"));
          (lit "palette", VStr (lit "#111111:#222222"))]
  /\ AsciiCastTheme.new_kwargs (FM := FM)
       [(lit "bg", VStr (lit "#000000")); (lit "fg", VStr (lit "#ffffff"));
        (lit "palette", VStr (lit "#111111:#222222"))]
     = Ok (VTheme (VStr (lit "#ffffff")) (VStr (lit "#000000"))
             (VStr (lit "#111111:#222222"))).
Proof.
  split; [vm_compute; reflexivity|].
  apply (proj1 (proj2 (theme_unpacked_by_name (FM := FM) swapped_theme_line
           [(lit "version", VInt 2); (lit "width", VInt 80);
            (lit "height", VInt 24);
            (lit "theme",
             VDict [(lit "bg", VStr (lit "#000000"));
                    (lit "fg", VStr (lit "#ffffff"));
                    (lit "palette", VStr (lit "#111111:#222222"))])]
           [(lit "bg", VStr (lit "#000000")); (lit "fg", VStr (lit "#ffffff"));
            (lit "palette", VStr (lit "#111111:#222222"))]
           ltac:(vm_compute; reflexivity) ltac:(reflexivity)))).
  repeat split; reflexivity.
Defined.

End Instances.

(** * The further properties at concrete inputs *)

Section FurtherInstances.
#[local] Existing Instance IntegralFloats.model.
Local Abbreviation FM := IntegralFloats.model.
Local Abbreviation FL := JsonFuel.integral_floats_laws.

Lemma event_line_needs_three_items_witness :
  AsciiCastEvent.from_json_line (FM := FM) (jlit "[1, 'o']")
  = Error (ValueError UnpackCount)
  /\ AsciiCastRecord.from_json_line (FM := FM) (jlit "[1, 'o']")
     = Error (ValueError UnpackCount).
Proof.
  apply (event_line_needs_three_items (FM := FM) (jlit "[1, 'o']")
           [VInt 1; VStr (lit "o")]).
  - vm_compute. reflexivity.
  - simpl. lia.
Defined.

Lemma event_data_item_encoded_first_witness :
  AsciiCastEvent.from_json_line (FM := FM) (jlit "[0, 'o', '\ud800']")
  = Error UnicodeEncodeError.
Proof.
  apply (event_data_item_encoded_first (FM := FM) (jlit "[0, 'o', '\ud800']")
           (VInt 0) (VStr (lit "o")) (VStr [0xD800])).
  - vm_compute. reflexivity.
  - vm_compute. reflexivity.
Defined.

Lemma event_items_validated_witness :
  Json.loads (FM := FM) (jlit "[true, 'o', 'hi']")
  = Ok (VList [VBool true; VStr (lit "o"); VStr (lit "hi")])
  /\ AsciiCastEvent.from_json_line (FM := FM) (jlit "[true, 'o', 'hi']")
     = Error (TypeError (InvalidAttrType (lit "time") TBool)).
Proof.
  split; [vm_compute; reflexivity|].
  destruct (event_items_validated (FM := FM) (jlit "[true, 'o', 'hi']")
              (VBool true) (VStr (lit "o")) (lit "hi"))
    as (data & _ & [([H|H] & _)|[(_ & _ & H)|([H|H] & _)]]).
  - vm_compute. reflexivity.
  - vm_compute. reflexivity.
  - discriminate H.
  - discriminate H.
  - exact H.
  - discriminate H.
  - discriminate H.
Defined.

Lemma decoded_event_well_formed_witness :
  let e := AsciiCastEvent.mk (FM := FM) (VInt 1) (VStr (lit "o"))
             (VBytes [x68; xc3; xa9]) VNone in
  valid_event e = true /\ valid_utf8_data e = true
  /\ AsciiCastEvent.duration e = VNone
  /\ exists ty, AsciiCastEvent.event_type e = VStr ty.
Proof.
  apply (decoded_event_well_formed (FM := FM) (jlit "[1, 'o', 'h\u00e9']")).
  - vm_compute. reflexivity.
  - vm_compute. reflexivity.
Defined.

Lemma event_decode_encode_decode_witness :
  let e := AsciiCastEvent.mk (FM := FM) (VFloat (Ffinite 2%Z)) (VStr (lit "i"))
             (VBytes [x68; xc3; xa9]) VNone in
  exists line',
    AsciiCastEvent.to_json_line utf8_decoder e = (Ok line', utf8_decoder)
    /\ AsciiCastEvent.from_json_line line' = Ok e
    /\ AsciiCastRecord.from_json_line line' = Ok (AsciiCastRecord.Event e).
Proof.
  apply (@event_decode_encode_decode FM FL (jlit " [2.0 ,'i', 'h\u00e9'] ")).
  - vm_compute. reflexivity.
  - vm_compute. reflexivity.
Defined.

Lemma written_event_line_reads_back_witness :
  valid_event (FM := FM) completing_event = true
  /\ exists line decoder' text data,
       AsciiCastEvent.to_json_line (utf8_decoder_at [xe2; x82]) completing_event
       = (Ok line, decoder')
       /\ Json.dumps (VList [AsciiCastEvent.time completing_event;
                             AsciiCastEvent.event_type completing_event;
                             VStr text]) = Ok line
       /\ Utf8.encode text = Ok data
       /\ Utf8.decode data = Ok text
       /\ AsciiCastEvent.from_json_line line
          = Ok (AsciiCastEvent.mk (AsciiCastEvent.time completing_event)
                  (AsciiCastEvent.event_type completing_event)
                  (VBytes data) VNone)
       /\ AsciiCastRecord.from_json_line line
          = Ok (AsciiCastRecord.Event
                  (AsciiCastEvent.mk (AsciiCastEvent.time completing_event)
                     (AsciiCastEvent.event_type completing_event)
                     (VBytes data) VNone)).
Proof.
  split; [reflexivity|].
  apply (@written_event_line_reads_back FM FL [xe2; x82] completing_event).
  reflexivity.
Defined.

Lemma event_stream_round_trip_witness :
  let es := [truncated_event (FM := FM); completing_event] in
  Utf8.valid (List.concat (map event_bytes es)) = true
  /\ exists lines es',
       to_json_lines utf8_decoder es = (map Ok lines, utf8_decoder)
       /\ map AsciiCastEvent.from_json_line lines = map Ok es'
       /\ map AsciiCastEvent.time es' = map AsciiCastEvent.time es
       /\ map AsciiCastEvent.event_type es'
          = map AsciiCastEvent.event_type es
       /\ List.concat (map event_bytes es') = List.concat (map event_bytes es).
Proof.
  split; [vm_compute; reflexivity|].
  apply (@event_stream_round_trip FM FL [truncated_event; completing_event]).
  - repeat (apply Forall_cons || apply Forall_nil); reflexivity.
  - vm_compute. reflexivity.
Defined.

Lemma event_line_is_single_line_witness :
  no_control (jlit "[0, 'o', 'a\nb']") = true.
Proof.
  apply (@event_line_is_single_line FM FL utf8_decoder utf8_decoder
           (AsciiCastEvent.mk (VInt 0) (VStr (lit "o"))
              (VBytes [x61; x0a; x62]) VNone)).
  vm_compute. reflexivity.
Defined.

Lemma header_line_is_single_line_witness :
  no_control
    (jlit "{'version': 2, 'width': 80, 'height': 24, 'theme': {'fg': 'a\nb', 'bg': '', 'palette': ''}}")
  = true.
Proof.
  apply (@header_line_is_single_line FM FL
           (AsciiCastHeader.mk (VInt 2) (VInt 80) (VInt 24)
              (VTheme (VStr [97; 10; 98]) (VStr []) (VStr [])))).
  vm_compute. reflexivity.
Defined.

Lemma header_decoder_rejects_non_objects_witness :
  exists info,
    AsciiCastHeader.from_json_line (FM := FM) (jlit "[2, 'o', 'version']")
    = Error (TypeError info).
Proof.
  apply (header_decoder_rejects_non_objects (FM := FM)
           (jlit "[2, 'o', 'version']")
           (VList [VInt 2; VStr (lit "o"); VStr (lit "version")])).
  - vm_compute. reflexivity.
  - simpl. discriminate.
Defined.

Lemma decoded_header_well_formed_witness :
  let h := AsciiCastHeader.mk (FM := FM) (VInt 2) (VInt 80) (VInt 24) VNone in
  AsciiCastHeader.new (AsciiCastHeader.version h) (AsciiCastHeader.width h)
    (AsciiCastHeader.height h) (AsciiCastHeader.theme h) = Ok h
  /\ AsciiCastHeader.version h = VInt 2
  /\ (exists w, AsciiCastHeader.width h = VInt w)
  /\ (exists x, AsciiCastHeader.height h = VInt x)
  /\ (AsciiCastHeader.theme h = VNone
      \/ exists fg bg palette, AsciiCastHeader.theme h = VTheme fg bg palette).
Proof.
  apply (decoded_header_well_formed (FM := FM)
           (jlit "{'version': 2, 'width': 80, 'height': 24, 'title': 'demo'}")).
  vm_compute. reflexivity.
Defined.

Lemma header_decoder_reads_four_fields_witness :
  let line1 := jlit "{'version': 2, 'width': 80, 'height': 24, 'theme': null}" in
  let line2 :=
    jlit "{'env': {'TERM': 'xterm'}, 'height': 24, 'width': 80, 'timestamp': 1504467315, 'version': 2}" in
  AsciiCastHeader.from_json_line (FM := FM) line1
  = AsciiCastHeader.from_json_line line2
  /\ AsciiCastRecord.from_json_line (FM := FM) line1
     = AsciiCastRecord.from_json_line line2.
Proof.
  apply (header_decoder_reads_four_fields (FM := FM)
           (jlit "{'version': 2, 'width': 80, 'height': 24, 'theme': null}")
           (jlit "{'env': {'TERM': 'xterm'}, 'height': 24, 'width': 80, 'timestamp': 1504467315, 'version': 2}")
           [(lit "version", VInt 2); (lit "width", VInt 80);
            (lit "height", VInt 24); (lit "theme", VNone)]
           [(lit "env", VDict [(lit "TERM", VStr (lit "xterm"))]);
            (lit "height", VInt 24); (lit "width", VInt 80);
            (lit "timestamp", VInt 1504467315); (lit "version", VInt 2)]).
  - vm_compute. reflexivity.
  - vm_compute. reflexivity.
  - intros attr [<-|[<-|[<-|[<-|[]]]]]; vm_compute; reflexivity.
Defined.

Lemma surrounding_whitespace_ignored_witness :
  let line := jlit "[1, 'o', 'hi']" in
  AsciiCastRecord.from_json_line (FM := FM) ([32] ++ line ++ [13; 10])
  = AsciiCastRecord.from_json_line line
  /\ AsciiCastHeader.from_json_line (FM := FM) ([32] ++ line ++ [13; 10])
     = AsciiCastHeader.from_json_line line
  /\ AsciiCastEvent.from_json_line (FM := FM) ([32] ++ line ++ [13; 10])
     = AsciiCastEvent.from_json_line line.
Proof.
  apply (surrounding_whitespace_ignored (FM := FM) (jlit "[1, 'o', 'hi']")
           [32] [13; 10] (VList [VInt 1; VStr (lit "o"); VStr (lit "hi")])).
  - vm_compute. reflexivity.
  - reflexivity.
  - reflexivity.
Defined.

Lemma event_line_determines_event_witness :
  let e1 := hi_event (FM := FM) in
  let e2 := AsciiCastEvent.mk (FM := FM) (VInt 1) (VStr (lit "o"))
              (VBytes [x68; x69]) (VInt 3) in
  AsciiCastEvent.time e1 = AsciiCastEvent.time e2
  /\ AsciiCastEvent.event_type e1 = AsciiCastEvent.event_type e2
  /\ AsciiCastEvent.event_data e1 = AsciiCastEvent.event_data e2.
Proof.
  apply (@event_line_determines_event FM FL hi_event
           (AsciiCastEvent.mk (VInt 1) (VStr (lit "o")) (VBytes [x68; x69])
              (VInt 3))
           (jlit "[1, 'o', 'hi']") utf8_decoder utf8_decoder);
    vm_compute; reflexivity.
Defined.

Lemma header_decode_encode_decode_witness :
  exists line',
    AsciiCastHeader.to_json_line (FM := FM) themed_header = Ok line'
    /\ AsciiCastHeader.from_json_line line' = Ok themed_header
    /\ AsciiCastRecord.from_json_line line'
       = Ok (AsciiCastRecord.Header themed_header).
Proof.
  apply (header_decode_encode_decode (FM := FM) swapped_theme_line
           themed_header).
  - vm_compute. reflexivity.
  - reflexivity.
Defined.

Lemma header_line_determines_header_witness :
  AsciiCastHeader.mk (FM := FM) (VInt 2) (VInt 80) (VInt 24) VNone
  = AsciiCastHeader.mk (VInt 2) (VInt 80) (VInt 24) VNone.
Proof.
  apply (header_line_determines_header (FM := FM)
           (AsciiCastHeader.mk (VInt 2) (VInt 80) (VInt 24) VNone)
           (AsciiCastHeader.mk (VInt 2) (VInt 80) (VInt 24) VNone)
           (jlit "{'version': 2, 'width': 80, 'height': 24}"));
    vm_compute; reflexivity.
Defined.

End FurtherInstances.
